(** * Recurrent GRU links and the orthogonal initializer

    A shallow embedding of

      - [chainer/initializers/orthogonal.py]  (class [Orthogonal]),
      - [chainer/links/connection/gru.py]     (classes [GRUBase], [GRU],
        [StatefulGRU], [StackedStatelessGRU], [StackedStatefulGRU]),

    followed by the properties of these classes that the design document
    states, and by further properties read off the code.  Array elements are kept abstract: every statement holds for any
    carrier of scalars and any interpretation of the scalar operations, in
    particular for IEEE floats with their rounding.  Python exceptions are
    values of type [exn]; a method that can raise returns a [result]. *)

From stdpp Require Import base list strings pretty.
From Stdlib Require Import ZArith Lia Ring Reals Lra.

(** ** Exceptions and the error monad *)

(** [InvalidType] is what the framework's type check raises on operands of
    the wrong shape.  [Dangling] is the use of a reference outside the
    store; a Python program never holds one, and every statement below is
    about live references.  An exception carries no store: what a method
    had assigned before it raised is not represented, and no statement
    below speaks of the state after an exception. *)
Inductive exn : Type :=
  | ValueError (msg : string)
  | TypeError
  | AssertionError
  | InvalidType
  | Dangling.

Inductive result (A : Type) : Type :=
  | Ok (a : A)
  | Err (e : exn).
Arguments Ok {A} a.
Arguments Err {A} e.

#[global] Instance result_ret : MRet result := λ A a, Ok a.
#[global] Instance result_bind : MBind result :=
  λ A B f m, match m with Ok a => f a | Err e => Err e end.
#[global] Instance result_fmap : FMap result :=
  λ A B f m, match m with Ok a => Ok (f a) | Err e => Err e end.

(** ** Scalars

    The element type of every array.  No law is assumed of the operations
    unless a statement says so. *)

Class Arith (F : Type) : Type := {
  fzero : F;
  fone : F;
  fadd : F → F → F;
  fsub : F → F → F;
  fmul : F → F → F
}.

Class Activation (F : Type) : Type := {
  fsigmoid : F → F;
  ftanh : F → F
}.

(** A two-dimensional array (batch x features) is the list of its rows. *)
Abbreviation matrix F := (list (list F)).

(** [zip] that raises when the two sequences differ in length, the way the
    framework's type check rejects operands of different shapes. *)
Fixpoint zipM {A B C : Type} (f : A → B → result C)
    (xs : list A) (ys : list B) : result (list C) :=
  match xs, ys with
  | [], [] => Ok []
  | x :: xs', y :: ys' =>
      z ← f x y; zs ← zipM f xs' ys'; Ok (z :: zs)
  | _, _ => Err InvalidType
  end.

(** ** [chainer.Variable] arithmetic and [chainer.functions] *)

Module variable.
Section with_scalars.
Context {F : Type} `{!Arith F}.

(** Modelled from the spec: the element-wise binary operations of the
    variable abstraction (section 6, interface (b)); [variable.py] and
    [basic_math.py] are not part of the sources.  Operands of different
    shapes are rejected. *)
Definition binary (f : F → F → F) (a c : matrix F) : result (matrix F) :=
  zipM (zipM (λ x y, Ok (f x y))) a c.

(** Modelled from the spec: element-wise addition [a + c] of two variables
    ([Variable.__add__], absent from the sources). *)
Definition add (a c : matrix F) : result (matrix F) := binary fadd a c.

(** Modelled from the spec: element-wise product [a * c] of two variables
    ([Variable.__mul__], absent from the sources). *)
Definition mul (a c : matrix F) : result (matrix F) := binary fmul a c.

(** Modelled from the spec: [k - a] for a scalar constant [k]
    ([Variable.__rsub__], absent from the sources). *)
Definition rsub (a : matrix F) (k : F) : matrix F := map (map (fsub k)) a.

End with_scalars.
End variable.

Module functions.
Section with_scalars.
Context {F : Type} `{!Activation F}.

(** Modelled from the spec: element-wise sigmoid (section 6, interface (b));
    [functions/activation/sigmoid.py] is not part of the sources. *)
Definition sigmoid (a : matrix F) : matrix F := map (map fsigmoid) a.

(** Modelled from the spec: element-wise hyperbolic tangent (section 6,
    interface (b)); [functions/activation/tanh.py] is not part of the
    sources. *)
Definition tanh (a : matrix F) : matrix F := map (map ftanh) a.

(** Modelled from the spec: concatenation along the feature axis
    (axis 1) of a non-empty sequence of arrays with equally many rows;
    [functions/array/concat.py] is not part of the sources. *)
Fixpoint concat (xs : list (matrix F)) : result (matrix F) :=
  match xs with
  | [] => Err InvalidType
  | x :: xs' =>
      match xs' with
      | [] => Ok x
      | _ :: _ => rest ← concat xs'; zipM (λ r1 r2, Ok (r1 ++ r2)) x rest
      end
  end.

(** Number of columns of an array given by its rows. *)
Definition ncols (x : matrix F) : nat :=
  match x with [] => 0 | r :: _ => length r end.

(** Modelled from the spec: [split_axis x sections] splits [x] along the
    feature axis into [sections] equal slices, in order (section 4.4);
    [functions/array/split_axis.py] is not part of the sources.  The call
    of the sources passes axis 1 and [force_tuple=True], so the result is
    always a sequence. *)
Definition split_axis (x : matrix F) (sections : nat)
    : result (list (matrix F)) :=
  if decide (sections = 0) then Err InvalidType
  else if decide (ncols x `mod` sections = 0) then
    let w := ncols x `div` sections in
    Ok ((λ i, map (λ row, take w (drop (i * w) row)) x) <$> seq 0 sections)
  else Err InvalidType.

End with_scalars.
End functions.

(** ** Variables as shared objects

    A [chainer.Variable] is a mutable object: a device transfer replaces its
    array in place, and whoever holds a reference to it sees the change.
    Variables that a link retains therefore live in a store and are named by
    references. *)

Inductive Device : Type := CPU | GPU.

(** The array module of a link, [self.xp]. *)
Inductive array_module : Type := numpy | cupy.

#[global] Instance array_module_eq_dec : EqDecision array_module.
Proof. solve_decision. Defined.

Definition device_of (m : array_module) : Device :=
  match m with numpy => CPU | cupy => GPU end.

Abbreviation ref := nat.

Module Var.
Section with_scalars.
Context {F : Type}.

(** Modelled from the spec: a variable carries its array and the device the
    array is placed on (section 5: placement is a location attribute of each
    array); [variable.py] is not part of the sources. *)
Record t : Type := {
  data : matrix F;
  device : Device
}.

(** The store of live variables is the list of them; [alloc] names a new
    one. *)
Definition deref (σ : list t) (l : ref) : result t :=
  match σ !! l with Some v => Ok v | None => Err Dangling end.

Definition alloc (σ : list t) (v : t) : ref * list t :=
  (length σ, σ ++ [v]).

(** Modelled from the spec: [Variable.to_cpu()] moves the array of the
    variable to the CPU, in place, and leaves its contents as they are
    (sections 4.3 and 5); [variable.py] is not part of the sources. *)
Definition to_cpu (l : ref) (σ : list t) : result (list t) :=
  v ← deref σ l; Ok (<[l := {| data := data v; device := CPU |}]> σ).

(** Modelled from the spec: [Variable.to_gpu(device=None)] moves the array
    of the variable to the accelerator, in place, and leaves its contents as
    they are (sections 4.3 and 5; the spec distinguishes CPU from
    accelerator only, so the device id is not recorded); [variable.py] is
    not part of the sources. *)
Definition to_gpu (l : ref) (dev : option nat) (σ : list t)
    : result (list t) :=
  v ← deref σ l; Ok (<[l := {| data := data v; device := GPU |}]> σ).

End with_scalars.
Arguments t F : clear implicits.
End Var.

Abbreviation heap F := (list (Var.t F)).

(** A Python value passed where a variable is expected. *)
Inductive pyobj (F : Type) : Type :=
  | PyVariable (l : ref)
  | PyNdarray (a : matrix F)
  | PyNone.
Arguments PyVariable {F} l.
Arguments PyNdarray {F} a.
Arguments PyNone {F}.

(** ** [chainer.links.connection.linear] *)

Module linear.
Section with_scalars.
Context {F : Type} `{!Arith F}.

(** Modelled from the spec: a LinearUnit owns a weight matrix of shape
    (out_dim, in_dim) and an optional bias of length out_dim (section 3);
    [links/connection/linear.py] is not part of the sources. *)
Record Linear : Type := {
  W : matrix F;
  b : option (list F)
}.

(** Inner product of an input row with a weight row. *)
Definition dot (xs ws : list F) : result F :=
  ps ← zipM (λ x w, Ok (fmul x w)) xs ws; Ok (foldl fadd fzero ps).

(** Modelled from the spec: the affine transform [x W^T + b] of a batch
    (section 3, LinearUnit); [Linear.__call__] is not part of the sources. *)
Definition __call__ (self : Linear) (x : matrix F) : result (matrix F) :=
  mapM (λ xrow,
    y ← mapM (dot xrow) (W self);
    match b self with
    | Some bias => zipM (λ u v, Ok (fadd u v)) y bias
    | None => Ok y
    end) x.

End with_scalars.
Arguments Linear F : clear implicits.
End linear.

(** ** [chainer.links.connection.gru] *)

Module GRUBase.

(** [GRUBase]: the six linear units that [GRUBase.__init__] registers,
    lines 19-32.  Their initial values come from the initializers, which the
    constructor of [Linear] runs; a cell is given here by its six units. *)
Record t (F : Type) : Type := {
  W_r : linear.Linear F;
  U_r : linear.Linear F;
  W_z : linear.Linear F;
  U_z : linear.Linear F;
  W : linear.Linear F;
  U : linear.Linear F
}.
Arguments W_r {F} _.
Arguments U_r {F} _.
Arguments W_z {F} _.
Arguments U_z {F} _.
Arguments W {F} _.
Arguments U {F} _.

End GRUBase.

Module GRU.
Section with_scalars.
Context {F : Type} `{!Arith F, !Activation F}.

(** [GRU.__call__(self, h, x)], lines 79-84.  The method assigns to no
    attribute of [self]; the cell after the call is returned next to the
    result. *)
Definition __call__ (self : GRUBase.t F) (h x : matrix F)
    : result (matrix F * GRUBase.t F) :=
  wx ← linear.__call__ (GRUBase.W_r self) x;
  uh ← linear.__call__ (GRUBase.U_r self) h;
  s ← variable.add wx uh;
  let r := functions.sigmoid s in
  wx ← linear.__call__ (GRUBase.W_z self) x;
  uh ← linear.__call__ (GRUBase.U_z self) h;
  s ← variable.add wx uh;
  let z := functions.sigmoid s in
  wx ← linear.__call__ (GRUBase.W self) x;
  rh ← variable.mul r h;
  uh ← linear.__call__ (GRUBase.U self) rh;
  s ← variable.add wx uh;
  let h_bar := functions.tanh s in
  a ← variable.mul (variable.rsub z fone) h;
  c ← variable.mul z h_bar;
  h_new ← variable.add a c;
  Ok (h_new, self).

End with_scalars.
End GRU.

Module StatefulGRU.
Section with_scalars.
Context {F : Type} `{!Arith F, !Activation F}.

(** A [StatefulGRU] object: the units inherited from [GRUBase], the
    attributes [state_size] and [h] (absent is [None]), and the array module
    [xp] that every link has. *)
Record t : Type := {
  params : GRUBase.t F;
  state_size : nat;
  h : option ref;
  xp : array_module
}.

Definition with_h (self : t) (h' : option ref) : t :=
  {| params := params self; state_size := state_size self;
     h := h'; xp := xp self |}.

Definition with_xp (self : t) (m : array_module) : t :=
  {| params := params self; state_size := state_size self;
     h := h self; xp := m |}.

(** [reset_state], lines 162-163. *)
Definition reset_state (self : t) : t := with_h self None.

(** [__init__], lines 136-141.  [weights] is the cell that
    [super().__init__(out_size, in_size, init, inner_init, bias_init)]
    builds; a new link is on the CPU. *)
Definition __init__ (weights : GRUBase.t F) (in_size out_size : nat) : t :=
  reset_state
    {| params := weights; state_size := out_size; h := None; xp := numpy |}.

(** [to_cpu], lines 143-146. *)
Definition to_cpu (self : t) (σ : heap F) : result (t * heap F) :=
  let self := with_xp self numpy in
  match h self with
  | Some l => σ' ← Var.to_cpu l σ; Ok (self, σ')
  | None => Ok (self, σ)
  end.

(** [to_gpu], lines 148-151. *)
Definition to_gpu (self : t) (dev : option nat) (σ : heap F)
    : result (t * heap F) :=
  let self := with_xp self cupy in
  match h self with
  | Some l => σ' ← Var.to_gpu l dev σ; Ok (self, σ')
  | None => Ok (self, σ)
  end.

(** [set_state], lines 153-160.  [h_] is the very reference the caller
    passed. *)
Definition set_state (self : t) (h : pyobj F) (σ : heap F)
    : result (t * heap F) :=
  match h with
  | PyVariable h_ =>
      σ' ← (if decide (xp self = numpy) then Var.to_cpu h_ σ
            else Var.to_gpu h_ None σ);
      Ok (with_h self (Some h_), σ')
  | _ => Err AssertionError
  end.

(** [__call__], lines 165-179.  The arrays are computed by value; the new
    variable [h_new] is allocated where the link is, stored in [self.h] and
    returned. *)
Definition __call__ (self : t) (x : ref) (σ : heap F)
    : result (ref * t * heap F) :=
  xv ← Var.deref σ x;
  let x := Var.data xv in
  z ← linear.__call__ (GRUBase.W_z (params self)) x;
  h_bar ← linear.__call__ (GRUBase.W (params self)) x;
  '(z, h_bar) ←
    match h self with
    | Some hl =>
        hv ← Var.deref σ hl;
        let h := Var.data hv in
        wx ← linear.__call__ (GRUBase.W_r (params self)) x;
        uh ← linear.__call__ (GRUBase.U_r (params self)) h;
        s ← variable.add wx uh;
        let r := functions.sigmoid s in
        uh ← linear.__call__ (GRUBase.U_z (params self)) h;
        z ← variable.add z uh;
        rh ← variable.mul r h;
        uh ← linear.__call__ (GRUBase.U (params self)) rh;
        h_bar ← variable.add h_bar uh;
        Ok (z, h_bar)
    | None => Ok (z, h_bar)
    end;
  let z := functions.sigmoid z in
  let h_bar := functions.tanh h_bar in
  h_new ← variable.mul z h_bar;
  h_new ←
    match h self with
    | Some hl =>
        hv ← Var.deref σ hl;
        c ← variable.mul (variable.rsub z fone) (Var.data hv);
        variable.add h_new c
    | None => Ok h_new
    end;
  let '(l, σ') :=
    Var.alloc σ {| Var.data := h_new; Var.device := device_of (xp self) |} in
  Ok (l, with_h self (Some l), σ').

End with_scalars.
Arguments t F : clear implicits.
End StatefulGRU.

Module StackedStatelessGRU.
Section with_scalars.
Context {F : Type} `{!Arith F, !Activation F}.

Record t : Type := {
  layers : list (GRUBase.t F);
  num_layers : nat
}.

(** [__init__], lines 205-211.  [new_GRU i n_units n_inputs] is the cell
    that the [i]-th evaluation of [GRU(n_units, n_inputs)] builds.
    [num_layers] is a Python integer; past the assertion it is at least 1
    and is kept as a natural number. *)
Definition __init__ (new_GRU : nat → nat → nat → GRUBase.t F)
    (in_size out_size : nat) (num_layers : Z) : result t :=
  if decide (1 ≤ num_layers)%Z then
    Ok {| layers := new_GRU 0 out_size in_size ::
                    ((λ i, new_GRU i out_size out_size) <$>
                       seq 1 (Z.to_nat num_layers - 1));
          num_layers := Z.to_nat num_layers |}
  else Err AssertionError.

(** The loop of lines 228-230 over [zip(self, h)]: it stops with the shorter
    of the two sequences. *)
Fixpoint loop (ls : list (GRUBase.t F)) (hs : list (matrix F))
    (h_curr : matrix F) (h_list : list (matrix F))
    : result (list (matrix F) * list (GRUBase.t F)) :=
  match ls, hs with
  | layer :: ls', h :: hs' =>
      '(h_curr', layer') ← GRU.__call__ layer h h_curr;
      '(out, ls'') ← loop ls' hs' h_curr' (h_list ++ [h_curr']);
      Ok (out, layer' :: ls'')
  | _, _ => Ok (h_list, ls)
  end.

(** [__call__], lines 213-231. *)
Definition __call__ (self : t) (h x : matrix F) : result (matrix F * t) :=
  hs ← functions.split_axis h (num_layers self);
  '(h_list, ls) ← loop (layers self) hs x [];
  y ← functions.concat h_list;
  Ok (y, {| layers := ls; num_layers := num_layers self |}).

End with_scalars.
Arguments t F : clear implicits.
End StackedStatelessGRU.

(** Python's [l[start:]] for an integer [start]. *)
Definition slice_from {A : Type} (start : Z) (l : list A) : list A :=
  let n := Z.of_nat (length l) in
  let s := if (start <? 0)%Z then Z.max 0 (start + n) else Z.min start n in
  drop (Z.to_nat s) l.

Module StackedStatefulGRU.
Section with_scalars.
Context {F : Type} `{!Arith F, !Activation F}.

Record t : Type := {
  layers : list (StatefulGRU.t F);
  num_layers : nat
}.

(** [reset_state], lines 277-279. *)
Definition reset_state (self : t) : t :=
  {| layers := StatefulGRU.reset_state <$> layers self;
     num_layers := num_layers self |}.

(** [__init__], lines 254-261.  [new_GRU i in_size out_size] is the cell
    that the [i]-th evaluation of [StatefulGRU(in_size, out_size)]
    builds.  [num_layers] is a Python integer; past the assertion it is at
    least 1 and is kept as a natural number. *)
Definition __init__ (new_GRU : nat → nat → nat → StatefulGRU.t F)
    (in_size out_size : nat) (num_layers : Z) : result t :=
  if decide (1 ≤ num_layers)%Z then
    Ok (reset_state
          {| layers := new_GRU 0 in_size out_size ::
                       ((λ i, new_GRU i out_size out_size) <$>
                          seq 1 (Z.to_nat num_layers - 1));
             num_layers := Z.to_nat num_layers |})
  else Err AssertionError.

(** The loop of lines 300-302. *)
Fixpoint loop (ls : list (StatefulGRU.t F)) (h_curr : ref)
    (h_list : list ref) (σ : heap F)
    : result (list ref * list (StatefulGRU.t F) * heap F) :=
  match ls with
  | [] => Ok (h_list, [], σ)
  | layer :: ls' =>
      '(h_curr', layer', σ') ← StatefulGRU.__call__ layer h_curr σ;
      '(out, ls'', σ'') ← loop ls' h_curr' (h_list ++ [h_curr']) σ';
      Ok (out, layer' :: ls'', σ'')
  end.

(** [__call__], lines 281-303.  [concat] builds a new variable, placed
    where its first operand is.  When a layer or [concat] raises, the
    states that the loop had assigned by then are not part of the result:
    an exception carries no store. *)
Definition __call__ (self : t) (x : ref) (top_n : option Z)
    (σ : heap F) : result (ref * t * heap F) :=
  let top_n := default (Z.of_nat (num_layers self)) top_n in
  '(h_list, ls, σ1) ← loop (layers self) x [] σ;
  vs ← mapM (Var.deref σ1) (slice_from (- top_n) h_list);
  y ← functions.concat (Var.data <$> vs);
  let '(l, σ2) :=
    Var.alloc σ1
      {| Var.data := y;
         Var.device := default CPU (Var.device <$> head vs) |} in
  Ok (l, {| layers := ls; num_layers := num_layers self |}, σ2).

(** The loops [for layer in self: layer.m(...)] of lines 264-265, 268-269:
    the method [m] is run on every layer in turn, on the store that the
    layers before it have left. *)
Fixpoint each_layer
    (m : StatefulGRU.t F → heap F → result (StatefulGRU.t F * heap F))
    (ls : list (StatefulGRU.t F)) (σ : heap F)
    : result (list (StatefulGRU.t F) * heap F) :=
  match ls with
  | [] => Ok ([], σ)
  | layer :: ls' =>
      '(layer', σ') ← m layer σ;
      '(ls'', σ'') ← each_layer m ls' σ';
      Ok (layer' :: ls'', σ'')
  end.

(** [to_cpu], lines 263-265. *)
Definition to_cpu (self : t) (σ : heap F) : result (t * heap F) :=
  '(ls, σ') ← each_layer StatefulGRU.to_cpu (layers self) σ;
  Ok ({| layers := ls; num_layers := num_layers self |}, σ').

(** [to_gpu], lines 267-269. *)
Definition to_gpu (self : t) (dev : option nat) (σ : heap F)
    : result (t * heap F) :=
  '(ls, σ') ← each_layer (λ layer, StatefulGRU.to_gpu layer dev)
                 (layers self) σ;
  Ok ({| layers := ls; num_layers := num_layers self |}, σ').

(** Modelled from the spec: [split_axis] applied to a variable yields new
    variables, one for each slice, in order (section 4.5, [set_state]);
    [functions/array/split_axis.py] is not part of the sources.  The slices
    are placed where the variable is. *)
Definition split_variable (h : ref) (sections : nat) (σ : heap F)
    : result (list ref * heap F) :=
  hv ← Var.deref σ h;
  parts ← functions.split_axis (Var.data hv) sections;
  Ok (seq (length σ) (length parts),
      σ ++ ((λ a, {| Var.data := a; Var.device := Var.device hv |}) <$>
              parts)).

(** The loop of lines 273-275 over [zip(self, h)]: it stops with the shorter
    of the two sequences.  Every [h] is a variable, so the assertion of
    line 274 holds. *)
Fixpoint set_state_loop (ls : list (StatefulGRU.t F)) (hs : list ref)
    (σ : heap F) : result (list (StatefulGRU.t F) * heap F) :=
  match ls, hs with
  | layer :: ls', h :: hs' =>
      '(layer', σ') ← StatefulGRU.set_state layer (PyVariable h) σ;
      '(ls'', σ'') ← set_state_loop ls' hs' σ';
      Ok (layer' :: ls'', σ'')
  | _, _ => Ok (ls, σ)
  end.

(** [set_state], lines 271-275, on a variable [h]. *)
Definition set_state (self : t) (h : ref) (σ : heap F)
    : result (t * heap F) :=
  '(hs, σ1) ← split_variable h (num_layers self) σ;
  '(ls, σ2) ← set_state_loop (layers self) hs σ1;
  Ok ({| layers := ls; num_layers := num_layers self |}, σ2).

End with_scalars.
Arguments t F : clear implicits.
End StackedStatefulGRU.

(** ** [chainer.initializers.orthogonal] *)

Module Orthogonal.

(** An array of any rank: its shape and its elements in row-major order. *)
Record ndarray (F : Type) : Type := {
  shape : list nat;
  data : list F
}.
Arguments shape {F} _.
Arguments data {F} _.

(** The two kinds of number that [numpy.prod] returns on a tuple of
    dimensions: an integer, or the float [1.0] on the empty tuple. *)
Inductive npnum : Type :=
  | NpInt (n : nat)
  | NpFloat (n : nat).

Definition np_value (c : npnum) : nat :=
  match c with NpInt n => n | NpFloat n => n end.

Definition np_prod (dims : list nat) : npnum :=
  match dims with
  | [] => NpFloat 1
  | _ :: _ => NpInt (foldr Nat.mul 1 dims)
  end.

(** [str.format] of a count. *)
Definition format (c : npnum) : string :=
  match c with
  | NpInt n => pretty n
  | NpFloat n => pretty n +:+ ".0"
  end.

(** [array.size]. *)
Definition size {F : Type} (array : ndarray F) : nat :=
  foldr Nat.mul 1 (shape array).

(** The message of the [ValueError] of lines 48-51. *)
Definition message (rows : nat) (cols : npnum) : string :=
  "Cannot make orthogonal system because# of vectors (" +:+ pretty rows
  +:+ ") is larger than that of dimensions(" +:+ format cols +:+ ")".

Section with_scalars.
Context {F : Type} `{!Arith F}.

(** NumPy's generator state, sampler and decomposition are taken as given:
    [standard_normal g rows cols] draws a [rows] x [cols] matrix and
    advances the process-global state; [svd a] is
    [numpy.linalg.svd(a, full_matrices=False)].  The sampler takes integer
    dimensions: given a float it raises [TypeError] and draws nothing. *)
Context {RandomState : Type}.
Context (standard_normal : RandomState → nat → nat → matrix F * RandomState).
Context (svd : matrix F → matrix F * list F * matrix F).

Record t : Type := { scale : F }.

(** [m.shape] of a matrix given by its rows. *)
Definition shape2 (m : matrix F) : nat * nat :=
  (length m, functions.ncols m).

(** [q.reshape(shp)]: the same elements in row-major order. *)
Definition reshape (q : matrix F) (shp : list nat) : result (ndarray F) :=
  if decide (length (mjoin q) = foldr Nat.mul 1 shp) then
    Ok {| shape := shp; data := mjoin q |}
  else Err (ValueError "total size of new array must be unchanged").

(** [__call__], lines 41-58.  The array is updated in place; the updated
    array and the generator state after the call are returned.  The array
    module [xp] only decides where the result is placed and does not show
    in the values. *)
Definition __call__ (self : t) (array : ndarray F) (g : RandomState)
    : result (ndarray F * RandomState) :=
  match shape array with
  | [] =>
      Ok ({| shape := shape array;
             data := (λ _, scale self) <$> data array |}, g)
  | len :: rest =>
      if decide (size array = 0) then Ok (array, g)
      else
        let flat_shape := (len, np_prod rest) in
        if decide (np_value flat_shape.2 < flat_shape.1) then
          Err (ValueError (message flat_shape.1 flat_shape.2))
        else
          match flat_shape.2 with
          | NpFloat _ => Err TypeError
          | NpInt cols =>
              let '(a, g') := standard_normal g flat_shape.1 cols in
              let '(u, _, v) := svd a in
              let q :=
                if decide (shape2 u = (flat_shape.1, cols)) then u else v in
              r ← reshape q (shape array);
              Ok ({| shape := shape array;
                     data := (λ e, fmul e (scale self)) <$> data r |}, g')
          end
  end.

End with_scalars.
Arguments t F : clear implicits.
End Orthogonal.

(** * The recurrences of the design document

    Written per sample, on vectors, the way sections 4.2 and 4.3 state them.
    These functions are total; they are compared below with what the methods
    compute on batches. *)

Module Spec.
Section with_scalars.
Context {F : Type} `{!Arith F, !Activation F}.

Definition inner (xs ws : list F) : F :=
  foldl fadd fzero (zip_with fmul xs ws).

(** [L(x)] for a linear unit [L] and one input vector [x]. *)
Definition affine (L : linear.Linear F) (x : list F) : list F :=
  let y := inner x <$> linear.W L in
  match linear.b L with
  | Some bias => zip_with fadd y bias
  | None => y
  end.

Definition reset_gate (c : GRUBase.t F) (h x : list F) : list F :=
  fsigmoid <$>
    zip_with fadd (affine (GRUBase.W_r c) x) (affine (GRUBase.U_r c) h).

Definition update_gate (c : GRUBase.t F) (h x : list F) : list F :=
  fsigmoid <$>
    zip_with fadd (affine (GRUBase.W_z c) x) (affine (GRUBase.U_z c) h).

Definition candidate (c : GRUBase.t F) (h x : list F) : list F :=
  ftanh <$>
    zip_with fadd (affine (GRUBase.W c) x)
      (affine (GRUBase.U c) (zip_with fmul (reset_gate c h x) h)).

(** Section 4.2: [h' = (1 - z) * h + z * h_bar]. *)
Definition gru_step (c : GRUBase.t F) (h x : list F) : list F :=
  let z := update_gate c h x in
  zip_with fadd
    (zip_with fmul (fsub fone <$> z) h)
    (zip_with fmul z (candidate c h x)).

Definition gru (c : GRUBase.t F) (h x : matrix F) : matrix F :=
  zip_with (gru_step c) h x.

(** Section 4.3, state absent: [z = sigmoid(W_z(x))],
    [h_bar = tanh(W(x))], [h' = z * h_bar]. *)
Definition gru_first_step (c : GRUBase.t F) (x : list F) : list F :=
  zip_with fmul
    (fsigmoid <$> affine (GRUBase.W_z c) x)
    (ftanh <$> affine (GRUBase.W c) x).

Definition gru_first (c : GRUBase.t F) (x : matrix F) : matrix F :=
  gru_first_step c <$> x.

(** Shapes.  An array of [r] rows and [c] columns. *)
Definition has_shape (m : matrix F) (r c : nat) : Prop :=
  length m = r ∧ Forall (λ row, length row = c) m.

(** A linear unit from [inp] to [out] features. *)
Definition linear_shape (L : linear.Linear F) (out inp : nat) : Prop :=
  has_shape (linear.W L) out inp ∧
  ∀ bias, linear.b L = Some bias → length bias = out.

(** The invariant of section 3 on the six units of a cell. *)
Definition cell_shape (c : GRUBase.t F) (n_units n_inputs : nat) : Prop :=
  linear_shape (GRUBase.W_r c) n_units n_inputs ∧
  linear_shape (GRUBase.U_r c) n_units n_units ∧
  linear_shape (GRUBase.W_z c) n_units n_inputs ∧
  linear_shape (GRUBase.U_z c) n_units n_units ∧
  linear_shape (GRUBase.W c) n_units n_inputs ∧
  linear_shape (GRUBase.U c) n_units n_units.

(** What the owner of a stateful cell reads back from [link.h]. *)
Definition retained (self : StatefulGRU.t F) (σ : heap F)
    : option (Var.t F) :=
  l ← StatefulGRU.h self; σ !! l.

(** The array of the variable that a call of a stateful link returns. *)
Definition output_data {S : Type} (r : result (ref * S * heap F))
    : result (matrix F) :=
  '(l, _, σ') ← r; v ← Var.deref σ' l; Ok (Var.data v).

(** The array a stateful cell holds, if any. *)
Definition state_of (σ : heap F) (self : StatefulGRU.t F)
    : option (matrix F) :=
  Var.data <$> retained self σ.

(** Section 4.3 as one transition on arrays: the first-call formula when
    the state is absent, the recurrence of section 4.2 otherwise. *)
Definition stateful_step (c : GRUBase.t F) (state : option (matrix F))
    (x : matrix F) : matrix F :=
  match state with
  | None => gru_first c x
  | Some h => gru c h x
  end.

(** Section 4.5: layer 0 consumes the input, layer i > 0 the output of
    layer i - 1.  The outputs of all layers, in layer order. *)
Fixpoint stack_outputs (ls : list (GRUBase.t F * option (matrix F)))
    (x : matrix F) : list (matrix F) :=
  match ls with
  | [] => []
  | (c, state) :: ls' =>
      let y := stateful_step c state x in y :: stack_outputs ls' y
  end.

(** Concatenation along the feature axis, as a total function. *)
Fixpoint hstack (ms : list (matrix F)) : matrix F :=
  match ms with
  | [] => []
  | m :: ms' =>
      match ms' with
      | [] => m
      | _ :: _ => zip_with app m (hstack ms')
      end
  end.

(** The variable in which a cell puts out the array [y]. *)
Definition output_variable (self : StatefulGRU.t F) (y : matrix F)
    : Var.t F :=
  {| Var.data := y; Var.device := device_of (StatefulGRU.xp self) |}.

(** A cell ready to be called on batches of [batch] samples: its units have
    the shapes of section 3 and its state, if present, is a live variable of
    shape batch x n_units. *)
Definition layer_ready (σ : heap F) (batch n_units n_inputs : nat)
    (self : StatefulGRU.t F) : Prop :=
  cell_shape (StatefulGRU.params self) n_units n_inputs ∧
  match StatefulGRU.h self with
  | None => True
  | Some hl =>
      ∃ hv, σ !! hl = Some hv ∧ has_shape (Var.data hv) batch n_units
  end.

(** The invariant of section 3 on a stack: layer 0 takes the external
    input, every other layer takes [n_units] features. *)
Fixpoint stack_ready (σ : heap F) (batch n_units n_inputs : nat)
    (ls : list (StatefulGRU.t F)) : Prop :=
  match ls with
  | [] => True
  | l :: ls' =>
      layer_ready σ batch n_units n_inputs l ∧
      stack_ready σ batch n_units n_units ls'
  end.

(** The state of a cell, if any, is a live variable. *)
Definition state_live (σ : heap F) (self : StatefulGRU.t F) : Prop :=
  match StatefulGRU.h self with
  | None => True
  | Some l => is_Some (σ !! l)
  end.

(** The state of a cell, if any, is placed where the cell is: what the
    tests read as [isinstance(link.h.data, link.xp.ndarray)]. *)
Definition placed (σ : heap F) (self : StatefulGRU.t F) : Prop :=
  ∀ l v,
    StatefulGRU.h self = Some l → σ !! l = Some v →
    Var.device v = device_of (StatefulGRU.xp self).

(** The bias of a linear unit, if any, is zero: what [bias_init=0], the
    default of [GRUBase.__init__], gives. *)
Definition zero_bias (L : linear.Linear F) : Prop :=
  ∀ bias, linear.b L = Some bias → Forall (λ e, e = fzero) bias.

(** The batch of [batch] zero vectors of [n] features. *)
Definition zeros (batch n : nat) : matrix F :=
  replicate batch (replicate n fzero).

(** Section 4.4: slice [i] of width [w] of a batch of concatenated hidden
    vectors, and the [n] slices in order. *)
Definition slice (w i : nat) (m : matrix F) : matrix F :=
  (λ row, take w (drop (i * w) row)) <$> m.

Definition slices (n w : nat) (m : matrix F) : list (matrix F) :=
  (λ i, slice w i m) <$> seq 0 n.

(** The invariant of section 3 on the cells of a stateless stack: cell 0
    takes the external input, every other cell takes [n_units] features. *)
Fixpoint cells_shape (n_units n_inputs : nat) (cs : list (GRUBase.t F))
    : Prop :=
  match cs with
  | [] => True
  | c :: cs' => cell_shape c n_units n_inputs ∧ cells_shape n_units n_units cs'
  end.

(** The last [top_n] of the layer outputs, in layer order (section 4.5). *)
Definition top_layers {A : Type} (top_n : nat) (outs : list A) : list A :=
  drop (length outs - top_n) outs.

End with_scalars.
End Spec.

(** * Orthogonality, in exact arithmetic

    Inner products of the rows and of the columns of a matrix, for the
    statements about the orthogonal initializer.  They are meant for a
    carrier on which the scalar operations obey the laws of a commutative
    semiring. *)

Module LinAlg.
Section with_scalars.
Context {F : Type} `{!Arith F}.

(** [Q Q^T]: entry (i, j) is the inner product of rows i and j. *)
Definition gram_rows (q : matrix F) : matrix F :=
  (λ ri, Spec.inner ri <$> q) <$> q.

Definition column (j : nat) (q : matrix F) : list F :=
  (λ row, default fzero (row !! j)) <$> q.

Definition transpose (cols : nat) (q : matrix F) : matrix F :=
  (λ j, column j q) <$> seq 0 cols.

(** [Q^T Q]: entry (i, j) is the inner product of columns i and j. *)
Definition gram_cols (cols : nat) (q : matrix F) : matrix F :=
  gram_rows (transpose cols q).

(** [s] times the identity matrix of order [n]. *)
Definition scaled_identity (n : nat) (s : F) : matrix F :=
  (λ i, (λ j, if decide (i = j) then s else fzero) <$> seq 0 n) <$> seq 0 n.

(** The elements of an array, in row-major order, as [rows] rows of
    [cols] elements: the array "reshaped to (rows, cols)". *)
Fixpoint rows_of (rows cols : nat) (d : list F) : matrix F :=
  match rows with
  | 0 => []
  | S r => take cols d :: rows_of r cols (drop cols d)
  end.

End with_scalars.
End LinAlg.

(** * Orthogonality to within a tolerance

    The same inner products taken on real numbers, for arrays of floats
    read through their real values: [rows_near d tol q] says that entry
    (i, j) of [Q Q^T] is within [tol] of [d] on the diagonal and of 0 off
    the diagonal. *)

Module Tolerance.

Definition inner (xs ys : list R) : R :=
  foldr Rplus 0%R (zip_with Rmult xs ys).


End Tolerance.

(** * Integer scalars

    A concrete carrier on which the definitions evaluate: the integers, with
    clamping in place of the two activation functions. *)

#[global] Instance Z_Arith : Arith Z := {|
  fzero := 0%Z;
  fone := 1%Z;
  fadd := Z.add;
  fsub := Z.sub;
  fmul := Z.mul
|}.

#[global] Instance Z_Activation : Activation Z := {|
  fsigmoid := λ x, Z.max 0 (Z.min 1 x);
  ftanh := λ x, Z.max (-1) (Z.min 1 x)
|}.

(** Concrete cells, batches and arrays over the integers. *)

Module Sample.

Definition unit (w : matrix Z) (bias : list Z) : linear.Linear Z :=
  {| linear.W := w; linear.b := Some bias |}.

(** A cell with one input and two hidden units. *)
Definition cell : GRUBase.t Z := {|
  GRUBase.W_r := unit [[1]; [0]]%Z [0; 0]%Z;
  GRUBase.U_r := unit [[1; 0]; [0; 1]]%Z [0; 0]%Z;
  GRUBase.W_z := unit [[0]; [0]]%Z [0; 1]%Z;
  GRUBase.U_z := unit [[0; 0]; [0; 0]]%Z [0; 0]%Z;
  GRUBase.W := unit [[1]; [-1]]%Z [0; 0]%Z;
  GRUBase.U := unit [[0; 1]; [1; 0]]%Z [0; 0]%Z
|}.

(** A cell with two inputs and two hidden units, for an upper layer. *)
Definition upper_cell : GRUBase.t Z := {|
  GRUBase.W_r := unit [[1; 0]; [0; 1]]%Z [0; 0]%Z;
  GRUBase.U_r := unit [[1; 0]; [0; 1]]%Z [0; 0]%Z;
  GRUBase.W_z := unit [[0; 0]; [0; 0]]%Z [1; 1]%Z;
  GRUBase.U_z := unit [[0; 0]; [0; 0]]%Z [0; 0]%Z;
  GRUBase.W := unit [[0; 1]; [1; 0]]%Z [0; 0]%Z;
  GRUBase.U := unit [[0; 1]; [1; 0]]%Z [0; 0]%Z
|}.

(** One sample: hidden vector (2, 5), input (3). *)
Definition h0 : matrix Z := [[2; 5]]%Z.
Definition x0 : matrix Z := [[3]]%Z.

Definition on (d : Device) (m : matrix Z) : Var.t Z :=
  {| Var.data := m; Var.device := d |}.

(** The stateful cell that [StatefulGRU(1, 2)] builds around [cell]. *)
Definition fresh : StatefulGRU.t Z := StatefulGRU.__init__ cell 1 2.

(** The cells of a two-layer stack, [StatefulGRU(1, 2)] and
    [StatefulGRU(2, 2)]. *)
Definition new_layer (i in_size out_size : nat) : StatefulGRU.t Z :=
  StatefulGRU.__init__ (if decide (i = 0) then cell else upper_cell)
    in_size out_size.

(** The stack that [StackedStatefulGRU(1, 2, 2)] builds from them. *)
Definition stack : StackedStatefulGRU.t Z := {|
  StackedStatefulGRU.layers :=
    [StatefulGRU.__init__ cell 1 2; StatefulGRU.__init__ upper_cell 2 2];
  StackedStatefulGRU.num_layers := 2
|}.

(** A sampler and a decomposition for the 1 x 2 case: the sample (1, 0)
    and its factorisation [(1) (1) (1, 0)]; the generator state counts the
    draws. *)
Definition sampler (g rows cols : nat) : matrix Z * nat :=
  ([[1; 0]]%Z, S g).

Definition factors (a : matrix Z) : matrix Z * list Z * matrix Z :=
  ([[1]]%Z, [1]%Z, [[1; 0]]%Z).

Definition initializer : Orthogonal.t Z := {| Orthogonal.scale := 2%Z |}.

Definition zeros (shape : list nat) : Orthogonal.ndarray Z :=
  {| Orthogonal.shape := shape;
     Orthogonal.data := replicate (foldr Nat.mul 1 shape) 0%Z |}.

(** The cell of [n_units] hidden units and [n_inputs] inputs whose weights
    are all zero and whose units have no bias. *)
Definition zero_unit (out inp : nat) : linear.Linear Z :=
  {| linear.W := replicate out (replicate inp 0%Z); linear.b := None |}.

Definition zero_cell (n_units n_inputs : nat) : GRUBase.t Z := {|
  GRUBase.W_r := zero_unit n_units n_inputs;
  GRUBase.U_r := zero_unit n_units n_units;
  GRUBase.W_z := zero_unit n_units n_inputs;
  GRUBase.U_z := zero_unit n_units n_units;
  GRUBase.W := zero_unit n_units n_inputs;
  GRUBase.U := zero_unit n_units n_units
|}.

(** The stack of stateless cells made of the same two cells, and a batch of
    one sample holding a hidden vector for each of them. *)
Definition cells : StackedStatelessGRU.t Z := {|
  StackedStatelessGRU.layers := [cell; upper_cell];
  StackedStatelessGRU.num_layers := 2
|}.

Definition h2 : matrix Z := [[2; 5; 1; 0]]%Z.

(** A sampler and a decomposition for the 2 x 2 case: the identity as the
    sample, and the exchange matrix for both factors. *)
Definition square_sampler (g rows cols : nat) : matrix Z * nat :=
  ([[1; 0]; [0; 1]]%Z, S g).

Definition square_factors (a : matrix Z) : matrix Z * list Z * matrix Z :=
  ([[0; 1]; [1; 0]]%Z, [1; 1]%Z, [[0; 1]; [1; 0]]%Z).

End Sample.

(** * Properties *)

(** ** The error monad and checked traversals *)

Lemma bind_Ok {A B : Type} (f : A → result B) (a : A) : Ok a ≫= f = f a.
Proof. reflexivity. Qed.

Lemma bind_Err {A B : Type} (f : A → result B) (e : exn) :
  Err e ≫= f = Err e.
Proof. reflexivity. Qed.

Section traversals.
Context {A B C : Type}.

Lemma zipM_total (f : A → B → C) (xs : list A) (ys : list B) :
  length xs = length ys →
  zipM (λ x y, Ok (f x y)) xs ys = Ok (zip_with f xs ys).
Proof.
  revert ys; induction xs as [|x xs IH]; intros [|y ys] Hlen;
    simpl in *; try discriminate; [reflexivity|].
  rewrite IH by lia. reflexivity.
Qed.

Lemma zipM_ext (f : A → B → result C) (g : A → B → C)
    (xs : list A) (ys : list B) :
  Forall2 (λ x y, f x y = Ok (g x y)) xs ys →
  zipM f xs ys = Ok (zip_with g xs ys).
Proof.
  induction 1 as [|x y xs ys Hxy _ IH]; simpl; [reflexivity|].
  rewrite Hxy; simpl. rewrite IH. reflexivity.
Qed.

Lemma mapM_total (f : A → result B) (g : A → B) (l : list A) :
  Forall (λ x, f x = Ok (g x)) l → mapM f l = Ok (g <$> l).
Proof.
  induction 1 as [|x l Hx _ IH]; simpl; [reflexivity|].
  rewrite Hx; simpl. rewrite IH. reflexivity.
Qed.

Lemma mapM_drop (f : A → result B) (l : list A) (r : list B) (j : nat) :
  mapM f l = Ok r → mapM f (drop j l) = Ok (drop j r).
Proof.
  revert r j; induction l as [|x l IH]; intros r j; simpl.
  - intros [= <-]. by rewrite !drop_nil.
  - destruct (f x) as [y|e] eqn:Hx; simpl; [|discriminate].
    destruct (mapM f l) as [r'|e] eqn:Hl; simpl; [|discriminate].
    intros [= <-]. destruct j as [|j]; simpl.
    + by rewrite Hx, Hl.
    + by apply IH.
Qed.

End traversals.

(** ** Shapes and the success of the array operations *)

Section array_facts.
Context {F : Type} `{!Arith F, !Activation F}.
Implicit Types (a c m x : matrix F) (L : linear.Linear F).

Lemma has_shape_nil k : Spec.has_shape (F:=F) [] 0 k.
Proof. split; [reflexivity | constructor]. Qed.

Lemma has_shape_cons row m r k :
  Spec.has_shape (row :: m) (S r) k ↔ length row = k ∧ Spec.has_shape m r k.
Proof.
  unfold Spec.has_shape; simpl; split.
  - intros [Hl Hf]; inversion Hf; subst; auto.
  - intros [Hrow [Hl Hf]]; split; [lia | constructor; assumption].
Qed.

Lemma has_shape_inv m r k :
  Spec.has_shape m r k →
  match m with
  | [] => r = 0
  | row :: m' => ∃ r', r = S r' ∧ length row = k ∧ Spec.has_shape m' r' k
  end.
Proof.
  destruct m as [|row m']; intros [Hl Hf]; simpl in Hl; [auto|].
  exists (length m'); inversion Hf; subst; repeat split; auto.
Qed.

Lemma has_shape_length m r k : Spec.has_shape m r k → length m = r.
Proof. intros [Hl _]; exact Hl. Qed.

Lemma has_shape_map (f : F → F) m r k :
  Spec.has_shape m r k → Spec.has_shape (map (map f) m) r k.
Proof.
  intros [Hl Hf]; split; [by rewrite length_map|].
  apply Forall_fmap. eapply Forall_impl; [exact Hf|].
  intros row Hrow; simpl. by rewrite length_map.
Qed.

Lemma has_shape_zip_with (f : F → F → F) a c r k :
  Spec.has_shape a r k → Spec.has_shape c r k →
  Spec.has_shape (zip_with (zip_with f) a c) r k.
Proof.
  revert c r; induction a as [|ra a IH]; intros c r Ha Hc.
  - apply has_shape_inv in Ha; subst; simpl. apply has_shape_nil.
  - apply has_shape_inv in Ha as (r' & -> & Hra & Ha).
    destruct c as [|rc c]; [destruct Hc; discriminate|].
    apply has_shape_cons in Hc as [Hrc Hc]; simpl.
    apply has_shape_cons; split; [|by apply IH].
    rewrite length_zip_with; lia.
Qed.

Lemma binary_total (f : F → F → F) a c r k :
  Spec.has_shape a r k → Spec.has_shape c r k →
  variable.binary f a c = Ok (zip_with (zip_with f) a c).
Proof.
  intros Ha Hc. unfold variable.binary. apply zipM_ext.
  revert c r Ha Hc; induction a as [|ra a IH]; intros c r Ha Hc.
  - apply has_shape_inv in Ha; subst.
    destruct c; [constructor | destruct Hc; discriminate].
  - apply has_shape_inv in Ha as (r' & -> & Hra & Ha).
    destruct c as [|rc c]; [destruct Hc; discriminate|].
    apply has_shape_cons in Hc as [Hrc Hc].
    constructor; [apply zipM_total; lia | by eapply IH].
Qed.

Lemma dot_total (xs ws : list F) :
  length xs = length ws → linear.dot xs ws = Ok (Spec.inner xs ws).
Proof.
  intros Hlen. unfold linear.dot, Spec.inner.
  rewrite zipM_total by exact Hlen. reflexivity.
Qed.

Lemma affine_length L out inp (xrow : list F) :
  Spec.linear_shape L out inp → length (Spec.affine L xrow) = out.
Proof.
  intros [[Hl _] Hb]. unfold Spec.affine.
  destruct (linear.b L) as [bias|] eqn:Hbias.
  - rewrite length_zip_with, length_fmap, (Hb bias eq_refl). lia.
  - by rewrite length_fmap.
Qed.

Lemma linear_row_total L out inp (xrow : list F) :
  Spec.linear_shape L out inp → length xrow = inp →
  (y ← mapM (linear.dot xrow) (linear.W L);
   match linear.b L with
   | Some bias => zipM (λ u v, Ok (fadd u v)) y bias
   | None => Ok y
   end) = Ok (Spec.affine L xrow).
Proof.
  intros [[Hl Hf] Hb] Hx.
  rewrite (mapM_total _ (Spec.inner xrow)).
  2:{ eapply Forall_impl; [exact Hf|]. intros wrow Hw; simpl in Hw.
      apply dot_total; lia. }
  simpl. unfold Spec.affine.
  destruct (linear.b L) as [bias|] eqn:Hbias; [|reflexivity].
  apply zipM_total. rewrite length_fmap, (Hb bias eq_refl). lia.
Qed.

Lemma linear_total L out inp x r :
  Spec.linear_shape L out inp → Spec.has_shape x r inp →
  linear.__call__ L x = Ok (Spec.affine L <$> x).
Proof.
  intros HL [_ Hx]. unfold linear.__call__. apply mapM_total.
  eapply Forall_impl; [exact Hx|]. intros xrow Hrow; simpl in Hrow.
  by eapply linear_row_total.
Qed.

Lemma has_shape_sigmoid m r k :
  Spec.has_shape m r k → Spec.has_shape (functions.sigmoid m) r k.
Proof. apply has_shape_map. Qed.

Lemma has_shape_tanh m r k :
  Spec.has_shape m r k → Spec.has_shape (functions.tanh m) r k.
Proof. apply has_shape_map. Qed.

Lemma has_shape_rsub m (z : F) r k :
  Spec.has_shape m r k → Spec.has_shape (variable.rsub m z) r k.
Proof. apply has_shape_map. Qed.

Lemma has_shape_affine L out inp x r :
  Spec.linear_shape L out inp → Spec.has_shape x r inp →
  Spec.has_shape (Spec.affine L <$> x) r out.
Proof.
  intros HL [Hl _]; split; [by rewrite length_fmap|].
  apply Forall_fmap, Forall_forall. intros xrow _; simpl.
  by eapply affine_length.
Qed.

End array_facts.

Create HintDb shapes.
#[global] Hint Resolve has_shape_affine has_shape_sigmoid has_shape_tanh
  has_shape_rsub has_shape_zip_with : shapes.

(** One step through a method body: the array operation at the head of a
    sequence succeeds with its total counterpart, given the shapes of its
    operands. *)
Lemma bind_step {A B : Type} (m : result A) (a : A) (f : A → result B)
    (r : result B) :
  m = Ok a → f a = r → m ≫= f = r.
Proof. intros -> <-; reflexivity. Qed.

Lemma bind_assoc {A B C : Type} (m : result A) (f : A → result B)
    (g : B → result C) :
  (m ≫= f) ≫= g = m ≫= (λ a, f a ≫= g).
Proof. destruct m; reflexivity. Qed.

Ltac array_step :=
  cbv beta iota;
  lazymatch goal with
  | |- (?m ≫= ?f) ≫= ?g = _ => rewrite (bind_assoc m f g)
  | |- Ok ?a ≫= ?f = _ => rewrite (bind_Ok f a)
  | |- _ =>
      eapply bind_step;
        [ first [ eapply linear_total | eapply binary_total ];
          solve [ eauto 20 with shapes ]
        | ]
  end.

(** ** The stateless cell *)

Section stateless_cell.
Context {F : Type} `{!Arith F, !Activation F}.
Implicit Types (h x : matrix F) (self : GRUBase.t F).

(** The batch of [GRU.__call__], built from whole-array operations, is the
    per-sample recurrence applied to each row. *)
Lemma gru_batch_rows self h x :
  length h = length x →
  let r := functions.sigmoid
             (zip_with (zip_with fadd)
                (Spec.affine (GRUBase.W_r self) <$> x)
                (Spec.affine (GRUBase.U_r self) <$> h)) in
  let z := functions.sigmoid
             (zip_with (zip_with fadd)
                (Spec.affine (GRUBase.W_z self) <$> x)
                (Spec.affine (GRUBase.U_z self) <$> h)) in
  let h_bar := functions.tanh
                 (zip_with (zip_with fadd)
                    (Spec.affine (GRUBase.W self) <$> x)
                    (Spec.affine (GRUBase.U self) <$>
                       zip_with (zip_with fmul) r h)) in
  zip_with (zip_with fadd)
    (zip_with (zip_with fmul) (variable.rsub z fone) h)
    (zip_with (zip_with fmul) z h_bar)
  = Spec.gru self h x.
Proof.
  revert x; induction h as [|hrow h IH]; intros [|xrow x] Hlen;
    simpl in Hlen; try discriminate; [reflexivity|].
  cbn zeta in *. unfold Spec.gru; simpl. f_equal.
  apply IH. lia.
Qed.

(** Whatever the arguments, a call that returns leaves the cell as it
    was. *)
Lemma GRU_call_keeps_cell self h x (y : matrix F) (self' : GRUBase.t F) :
  GRU.__call__ self h x = Ok (y, self') → self' = self.
Proof.
  unfold GRU.__call__. intros Hcall.
  repeat
    match type of Hcall with
    | ?m ≫= _ = Ok _ =>
        destruct m; [rewrite bind_Ok in Hcall | discriminate]
    end.
  by injection Hcall as _ <-.
Qed.

(** C1.  On a cell whose units have the shapes of section 3 and on batches
    [h] (batch x n_units) and [x] (batch x n_inputs), [GRU.__call__] does
    not raise, returns exactly the recurrence of section 4.2 applied to each
    sample, and leaves the cell as it was. *)
Theorem C1_GRU_call_closed_form self h x (batch n_units n_inputs : nat) :
  Spec.cell_shape self n_units n_inputs →
  Spec.has_shape h batch n_units →
  Spec.has_shape x batch n_inputs →
  GRU.__call__ self h x = Ok (Spec.gru self h x, self).
Proof.
  intros (HWr & HUr & HWz & HUz & HW & HU) Hh Hx.
  unfold GRU.__call__, variable.add, variable.mul.
  repeat array_step.
  f_equal. f_equal. apply (gru_batch_rows self h x).
  destruct Hh as [-> _], Hx as [-> _]; reflexivity.
Qed.

End stateless_cell.

(** ** The stateful cell *)

Section stateful_cell.
Context {F : Type} `{!Arith F, !Activation F}.
Implicit Types (self : StatefulGRU.t F) (σ : heap F) (l x : ref).

Lemma deref_Some σ l (v : Var.t F) : σ !! l = Some v → Var.deref σ l = Ok v.
Proof. intros Hl. unfold Var.deref. rewrite Hl. reflexivity. Qed.

Lemma zip_with_comm (f : F → F → F) (xs ys : list F) :
  (∀ a c, f a c = f c a) → zip_with f xs ys = zip_with f ys xs.
Proof.
  intros Hf. revert ys; induction xs as [|a xs IH]; intros [|c ys];
    simpl; try reflexivity.
  rewrite Hf, IH. reflexivity.
Qed.

Lemma zip_with_rows_comm (f : F → F → F) (a c : matrix F) :
  (∀ u v, f u v = f v u) →
  zip_with (zip_with f) a c = zip_with (zip_with f) c a.
Proof.
  intros Hf. revert c; induction a as [|ra a IH]; intros [|rc c];
    simpl; try reflexivity.
  rewrite (zip_with_comm f ra rc Hf), IH. reflexivity.
Qed.

Lemma gru_first_batch_rows (c : GRUBase.t F) (xd : matrix F) :
  zip_with (zip_with fmul)
    (functions.sigmoid (Spec.affine (GRUBase.W_z c) <$> xd))
    (functions.tanh (Spec.affine (GRUBase.W c) <$> xd))
  = Spec.gru_first c xd.
Proof.
  induction xd as [|xrow xd IH]; [reflexivity|].
  unfold Spec.gru_first in *; simpl. f_equal. exact IH.
Qed.

(** With the state absent, the body of [__call__] is the short one: only
    [W_z] and [W] are applied. *)
Lemma call_absent self x σ :
  StatefulGRU.h self = None →
  StatefulGRU.__call__ self x σ =
    (xv ← Var.deref σ x;
     z ← linear.__call__ (GRUBase.W_z (StatefulGRU.params self)) (Var.data xv);
     h_bar ← linear.__call__ (GRUBase.W (StatefulGRU.params self)) (Var.data xv);
     h_new ← variable.mul (functions.sigmoid z) (functions.tanh h_bar);
     Ok (length σ, StatefulGRU.with_h self (Some (length σ)),
         σ ++ [{| Var.data := h_new;
                  Var.device := device_of (StatefulGRU.xp self) |}])).
Proof.
  intros Hnone. unfold StatefulGRU.__call__. rewrite Hnone.
  destruct (Var.deref σ x) as [xv|e]; [|reflexivity]. rewrite !bind_Ok.
  destruct (linear.__call__ (GRUBase.W_z _) _) as [z|e]; [|reflexivity].
  rewrite !bind_Ok.
  destruct (linear.__call__ (GRUBase.W _) _) as [h_bar|e]; [|reflexivity].
  rewrite !bind_Ok.
  destruct (variable.mul _ _) as [h_new|e]; reflexivity.
Qed.

(** First call: the state is absent. *)
Lemma first_call self x σ (xv : Var.t F) (batch n_units n_inputs : nat) :
  StatefulGRU.h self = None →
  σ !! x = Some xv →
  Spec.has_shape (Var.data xv) batch n_inputs →
  Spec.linear_shape (GRUBase.W_z (StatefulGRU.params self)) n_units n_inputs →
  Spec.linear_shape (GRUBase.W (StatefulGRU.params self)) n_units n_inputs →
  StatefulGRU.__call__ self x σ =
    Ok (length σ, StatefulGRU.with_h self (Some (length σ)),
        σ ++ [{| Var.data :=
                   Spec.gru_first (StatefulGRU.params self) (Var.data xv);
                 Var.device := device_of (StatefulGRU.xp self) |}]).
Proof.
  intros Hnone Hx Hxs HWz HW. rewrite call_absent by exact Hnone.
  rewrite (deref_Some _ _ _ Hx), bind_Ok. unfold variable.mul.
  repeat array_step. rewrite gru_first_batch_rows. reflexivity.
Qed.

(** Later calls: the state is the variable at [hl]. *)
Lemma next_call self x σ (xv hv : Var.t F) (hl batch n_units n_inputs : nat) :
  (∀ a c : F, fadd a c = fadd c a) →
  StatefulGRU.h self = Some hl →
  σ !! hl = Some hv →
  σ !! x = Some xv →
  Spec.cell_shape (StatefulGRU.params self) n_units n_inputs →
  Spec.has_shape (Var.data hv) batch n_units →
  Spec.has_shape (Var.data xv) batch n_inputs →
  StatefulGRU.__call__ self x σ =
    Ok (length σ, StatefulGRU.with_h self (Some (length σ)),
        σ ++ [{| Var.data :=
                   Spec.gru (StatefulGRU.params self) (Var.data hv)
                     (Var.data xv);
                 Var.device := device_of (StatefulGRU.xp self) |}]).
Proof.
  intros Hcomm Hsome Hh Hx (HWr & HUr & HWz & HUz & HW & HU) Hhs Hxs.
  unfold StatefulGRU.__call__. rewrite Hsome.
  rewrite (deref_Some _ _ _ Hx), (deref_Some _ _ _ Hh), !bind_Ok.
  unfold variable.add, variable.mul.
  repeat array_step.
  unfold Var.alloc. do 5 f_equal.
  rewrite zip_with_rows_comm by exact Hcomm.
  apply (gru_batch_rows (StatefulGRU.params self) (Var.data hv) (Var.data xv)).
  destruct Hhs as [-> _], Hxs as [-> _]; reflexivity.
Qed.

(** C2.  With commutative scalar addition, on an input batch of the right
    width: if the state is absent, [__call__] computes
    [z = sigmoid(W_z(x))], [h_bar = tanh(W(x))], [h' = z * h_bar], and no
    other unit is applied (nothing is asked of [W_r], [U_r], [U_z], [U]); if
    the state is the variable [hv], it computes the recurrence of section
    4.2 on [hv] and [x].  In both cases [h'] is a new variable, the cell
    retains it in [h], and the call returns it. *)
Theorem C2_StatefulGRU_call self x σ (xv : Var.t F)
    (batch n_units n_inputs : nat) :
  (∀ a c : F, fadd a c = fadd c a) →
  σ !! x = Some xv →
  Spec.has_shape (Var.data xv) batch n_inputs →
  let returns h' :=
    StatefulGRU.__call__ self x σ =
      Ok (length σ, StatefulGRU.with_h self (Some (length σ)),
          σ ++ [{| Var.data := h';
                   Var.device := device_of (StatefulGRU.xp self) |}]) in
  (StatefulGRU.h self = None →
   Spec.linear_shape (GRUBase.W_z (StatefulGRU.params self))
     n_units n_inputs →
   Spec.linear_shape (GRUBase.W (StatefulGRU.params self))
     n_units n_inputs →
   returns (Spec.gru_first (StatefulGRU.params self) (Var.data xv)))
  ∧
  (∀ hl hv,
     StatefulGRU.h self = Some hl →
     σ !! hl = Some hv →
     Spec.cell_shape (StatefulGRU.params self) n_units n_inputs →
     Spec.has_shape (Var.data hv) batch n_units →
     returns (Spec.gru (StatefulGRU.params self) (Var.data hv) (Var.data xv))).
Proof.
  intros Hcomm Hx Hxs returns; subst returns; split.
  - intros Hnone HWz HW. by eapply first_call.
  - intros hl hv Hsome Hh Hcell Hhs. by eapply next_call.
Qed.

(** C7.  [reset_state()] followed by a call yields the same output (the
    same array, or the same exception) as the first call of a cell that
    [__init__] has just built around the same units; on an input batch of
    the right width that output is the first-call formula of section 4.3. *)
Theorem C7_reset_then_call_as_fresh self x σ (in_size : nat) :
  let fresh :=
    StatefulGRU.__init__ (StatefulGRU.params self) in_size
      (StatefulGRU.state_size self) in
  Spec.output_data
    (StatefulGRU.__call__ (StatefulGRU.reset_state self) x σ)
  = Spec.output_data (StatefulGRU.__call__ fresh x σ)
  ∧
  ∀ (xv : Var.t F) (batch n_units n_inputs : nat),
    σ !! x = Some xv →
    Spec.has_shape (Var.data xv) batch n_inputs →
    Spec.linear_shape (GRUBase.W_z (StatefulGRU.params self))
      n_units n_inputs →
    Spec.linear_shape (GRUBase.W (StatefulGRU.params self))
      n_units n_inputs →
    Spec.output_data (StatefulGRU.__call__ fresh x σ)
    = Ok (Spec.gru_first (StatefulGRU.params self) (Var.data xv)).
Proof.
  intros fresh. split.
  - subst fresh. rewrite !call_absent by reflexivity.
    simpl StatefulGRU.params.
    destruct (Var.deref σ x) as [xv|e]; [|reflexivity]. rewrite !bind_Ok.
    destruct (linear.__call__ (GRUBase.W_z _) _) as [z|e]; [|reflexivity].
    rewrite !bind_Ok.
    destruct (linear.__call__ (GRUBase.W _) _) as [h_bar|e]; [|reflexivity].
    rewrite !bind_Ok.
    destruct (variable.mul _ _) as [h_new|e]; [|reflexivity].
    rewrite !bind_Ok. unfold Spec.output_data; rewrite !bind_Ok.
    cbv beta iota. unfold Var.deref.
    rewrite !list_lookup_middle by reflexivity. reflexivity.
  - intros xv batch n_units n_inputs Hx Hxs HWz HW.
    rewrite (first_call fresh x σ xv batch n_units n_inputs
               eq_refl Hx Hxs HWz HW).
    unfold Spec.output_data. rewrite bind_Ok. cbv beta iota.
    unfold Var.deref. rewrite list_lookup_middle by reflexivity.
    reflexivity.
Qed.

(** C8.  On a cell that is on the CPU, [set_state(h)] succeeds for every
    live variable [h], the cell then retains that variable, and the array
    read back is the array [h] had, element for element; if [h] was on the
    CPU already, the variable read back is [h] as it was. *)
Theorem C8_set_state_roundtrip self l (v : Var.t F) σ :
  StatefulGRU.xp self = numpy →
  σ !! l = Some v →
  ∃ self' σ',
    StatefulGRU.set_state self (PyVariable l) σ = Ok (self', σ') ∧
    StatefulGRU.h self' = Some l ∧
    Var.data <$> Spec.retained self' σ' = Some (Var.data v) ∧
    (Var.device v = CPU → Spec.retained self' σ' = Some v).
Proof.
  intros Hxp Hl. pose proof (lookup_lt_Some _ _ _ Hl) as Hlt.
  unfold StatefulGRU.set_state, Var.to_cpu. rewrite Hxp; simpl.
  rewrite (deref_Some _ _ _ Hl), bind_Ok, bind_Ok.
  eexists _, _; split; [reflexivity|].
  unfold Spec.retained; simpl. rewrite list_lookup_insert_eq by exact Hlt.
  repeat split. intros Hdev. destruct v as [d dev]; simpl in *.
  by rewrite Hdev.
Qed.

(** C10.  [set_state(h)] keeps the reference it was given: the variable of
    the caller is moved, in place, to the device of the cell (every other
    variable is left alone), and [self.h] is that same variable, so that a
    later transfer of the cell is seen by the caller as well. *)
Theorem C10_set_state_aliases self l (v : Var.t F) σ :
  σ !! l = Some v →
  StatefulGRU.set_state self (PyVariable l) σ =
    Ok (StatefulGRU.with_h self (Some l),
        <[l := {| Var.data := Var.data v;
                  Var.device := device_of (StatefulGRU.xp self) |}]> σ)
  ∧
  (∀ self' σ',
     StatefulGRU.set_state self (PyVariable l) σ = Ok (self', σ') →
     ∃ self'' σ'',
       StatefulGRU.to_gpu self' None σ' = Ok (self'', σ'') ∧
       Var.device <$> σ'' !! l = Some GPU).
Proof.
  intros Hl. pose proof (lookup_lt_Some _ _ _ Hl) as Hlt.
  assert (StatefulGRU.set_state self (PyVariable l) σ =
    Ok (StatefulGRU.with_h self (Some l),
        <[l := {| Var.data := Var.data v;
                  Var.device := device_of (StatefulGRU.xp self) |}]> σ))
    as Hset.
  { unfold StatefulGRU.set_state, Var.to_cpu, Var.to_gpu.
    rewrite (deref_Some _ _ _ Hl).
    destruct (StatefulGRU.xp self); reflexivity. }
  split; [exact Hset|].
  intros self' σ' Hset'. rewrite Hset in Hset'. inversion Hset'; subst.
  unfold StatefulGRU.to_gpu, Var.to_gpu, Var.deref; simpl.
  rewrite list_lookup_insert_eq by exact Hlt. rewrite bind_Ok, bind_Ok.
  eexists _, _; split; [reflexivity|].
  rewrite list_lookup_insert_eq by (rewrite length_insert; exact Hlt).
  reflexivity.
Qed.

End stateful_cell.

(** ** The stack of stateless cells *)

Section stateless_stack.
Context {F : Type} `{!Arith F, !Activation F}.
Implicit Types (h x : matrix F).

Lemma split_axis_one h r k :
  Spec.has_shape h r k → functions.split_axis h 1 = Ok [h].
Proof.
  intros [_ Hrows]. unfold functions.split_axis.
  rewrite decide_False by lia.
  rewrite decide_True by apply Nat.mod_1_r.
  cbv zeta. rewrite Nat.div_1_r. cbn [seq fmap list_fmap].
  do 2 f_equal.
  assert (Forall (λ row, length row = functions.ncols h) h) as Hn.
  { destruct h as [|row h]; [constructor|]. simpl.
    inversion Hrows; subst. assumption. }
  clear Hrows. generalize dependent (functions.ncols h). intros n Hn.
  cbn [Nat.mul]. induction Hn as [|row m Hrow _ IH]; [reflexivity|].
  simpl. rewrite IH. f_equal. rewrite drop_0. apply take_ge. lia.
Qed.

(** C4.  A stack built with [num_layers=1] consists of the one cell
    [GRU(out_size, in_size)], and on every hidden batch [h] and input [x]
    its call yields what the call of that cell yields: the same array, or
    the same exception. *)
Theorem C4_single_layer_stack (new_GRU : nat → nat → nat → GRUBase.t F)
    (in_size out_size : nat) h x (r k : nat) :
  Spec.has_shape h r k →
  ∃ stack,
    StackedStatelessGRU.__init__ new_GRU in_size out_size 1 = Ok stack ∧
    StackedStatelessGRU.layers stack = [new_GRU 0 out_size in_size] ∧
    fst <$> StackedStatelessGRU.__call__ stack h x
    = fst <$> GRU.__call__ (new_GRU 0 out_size in_size) h x.
Proof.
  intros Hh. eexists; split; [reflexivity|]. split; [reflexivity|].
  unfold StackedStatelessGRU.__call__.
  cbn [StackedStatelessGRU.num_layers StackedStatelessGRU.layers].
  change (Z.to_nat 1) with 1.
  rewrite (split_axis_one h r k Hh), bind_Ok.
  cbn [StackedStatelessGRU.loop].
  destruct (GRU.__call__ _ h x) as [[y g]|e]; reflexivity.
Qed.

End stateless_stack.

(** ** The orthogonal initializer *)

Section orthogonal_initializer.
Context {F : Type} `{!Arith F} {RandomState : Type}.
Context (standard_normal : RandomState → nat → nat → matrix F * RandomState).
Context (svd : matrix F → matrix F * list F * matrix F).
Implicit Types (self : Orthogonal.t F) (array : Orthogonal.ndarray F)
  (g : RandomState).

(** C9.  An array whose shape is not empty and that has no element is left
    as it is, whatever its row and column counts: no check is made, no
    sample is drawn, no exception is raised. *)
Theorem C9_zero_size_untouched self array g :
  Orthogonal.shape array ≠ [] →
  Orthogonal.size array = 0 →
  Orthogonal.__call__ standard_normal svd self array g = Ok (array, g).
Proof.
  intros Hshape Hsize. unfold Orthogonal.__call__.
  destruct (Orthogonal.shape array) as [|len rest]; [congruence|].
  rewrite decide_True by exact Hsize. reflexivity.
Qed.

(** C5, amended.  On an array with at least one element whose row count
    exceeds its column count, the call raises [ValueError] with the message
    that names both counts, for every generator state, sampler and
    decomposition. *)
Theorem C5_more_rows_than_columns_raises self array g (len : nat)
    (rest : list nat) :
  Orthogonal.shape array = len :: rest →
  Orthogonal.size array ≠ 0 →
  Orthogonal.np_value (Orthogonal.np_prod rest) < len →
  Orthogonal.__call__ standard_normal svd self array g
  = Err (ValueError (Orthogonal.message len (Orthogonal.np_prod rest))).
Proof.
  intros Hshape Hsize Hlt. unfold Orthogonal.__call__. rewrite Hshape.
  rewrite decide_False by exact Hsize. cbn [fst snd].
  rewrite decide_True by exact Hlt. reflexivity.
Qed.

End orthogonal_initializer.

(** ** Scaling a matrix, in exact arithmetic *)

Section orthogonal_exact.
Context {F : Type} `{!Arith F} {RandomState : Type}.
Context (standard_normal : RandomState → nat → nat → matrix F * RandomState).
Context (svd : matrix F → matrix F * list F * matrix F).
Context (F_semiring : semi_ring_theory (R:=F) fzero fone fadd fmul eq).
Implicit Types (q u v : matrix F) (s k : F).

Add Ring F_ring : F_semiring.

Lemma foldl_inner_scale s (xs ys : list F) (acc : F) :
  foldl fadd (fmul (fmul s s) acc)
    (zip_with fmul ((λ e, fmul e s) <$> xs) ((λ e, fmul e s) <$> ys))
  = fmul (fmul s s) (foldl fadd acc (zip_with fmul xs ys)).
Proof.
  revert ys acc; induction xs as [|x xs IH]; intros [|y ys] acc;
    simpl; try reflexivity.
  rewrite <- IH. f_equal. ring.
Qed.

Lemma inner_scale s (xs ys : list F) :
  Spec.inner ((λ e, fmul e s) <$> xs) ((λ e, fmul e s) <$> ys)
  = fmul (fmul s s) (Spec.inner xs ys).
Proof.
  unfold Spec.inner. rewrite <- foldl_inner_scale. f_equal. ring.
Qed.

Lemma gram_rows_scale s q :
  LinAlg.gram_rows (map (map (λ e, fmul e s)) q)
  = map (map (fmul (fmul s s))) (LinAlg.gram_rows q).
Proof.
  unfold LinAlg.gram_rows. rewrite <- !list_fmap_compose.
  apply list_fmap_ext. intros _ ri _; simpl.
  rewrite <- !list_fmap_compose. apply list_fmap_ext. intros _ rj _; simpl.
  apply inner_scale.
Qed.

Lemma scaled_identity_scale (n : nat) k :
  map (map (fmul k)) (LinAlg.scaled_identity n fone)
  = LinAlg.scaled_identity n k.
Proof.
  unfold LinAlg.scaled_identity. rewrite <- !list_fmap_compose.
  apply list_fmap_ext. intros _ i _; simpl.
  rewrite <- !list_fmap_compose. apply list_fmap_ext. intros _ j _; simpl.
  destruct (decide (i = j)); ring.
Qed.

Lemma length_mjoin_shape q (r c : nat) :
  Spec.has_shape q r c → length (mjoin q) = r * c.
Proof.
  intros [<- Hrows]. induction Hrows as [|row m Hrow _ IH]; [reflexivity|].
  simpl. rewrite length_app, IH, Hrow. reflexivity.
Qed.

Lemma rows_of_mjoin (f : F → F) q (r c : nat) :
  Spec.has_shape q r c → LinAlg.rows_of r c (f <$> mjoin q) = map (map f) q.
Proof.
  intros [<- Hrows]. induction Hrows as [|row m Hrow _ IH]; [reflexivity|].
  simpl. rewrite fmap_app.
  rewrite take_app_length' by (rewrite length_fmap; lia).
  rewrite drop_app_length' by (rewrite length_fmap; lia).
  rewrite IH. reflexivity.
Qed.

Lemma shape2_square u (n : nat) :
  Spec.has_shape u n n → 0 < n → Orthogonal.shape2 u = (n, n).
Proof.
  intros [Hl Hrows] Hpos. unfold Orthogonal.shape2. rewrite Hl. f_equal.
  destruct u as [|row u]; simpl in *; [lia|].
  inversion Hrows; subst; assumption.
Qed.

End orthogonal_exact.

(** ** Orthogonality of the initialized array, to within a tolerance *)

Section scaling_with_rounding.
Context {F : Type} `{!Arith F}.
(** The real number that a scalar stands for, and a bound on the relative
    error of a multiplication (the unit roundoff for floats, 0 for exact
    arithmetic). *)
Context (val : F → R) (rnd : R).
Context (rnd_nonneg : (0 <= rnd)%R).
Context (mul_rounds :
  ∀ x y : F,
    (Rabs (val (fmul x y) - val x * val y) <= rnd * Rabs (val x * val y))%R).
Implicit Types (q u v : matrix F).

Local Open Scope R_scope.






Local Close Scope R_scope.

End scaling_with_rounding.

Section orthogonal_tolerance.
Context {F : Type} `{!Arith F} {RandomState : Type}.
Context (standard_normal : RandomState → nat → nat → matrix F * RandomState).
Context (svd : matrix F → matrix F * list F * matrix F).
Implicit Types (q u v : matrix F).


End orthogonal_tolerance.

(** ** The stack of stateful cells *)

Section stateful_stack.
Context {F : Type} `{!Arith F, !Activation F}.
Context (fadd_comm : ∀ a c : F, fadd a c = fadd c a).
Implicit Types (self : StatefulGRU.t F) (σ : heap F) (l x : ref)
  (ls : list (StatefulGRU.t F)).

Lemma has_shape_gru (c : GRUBase.t F) (h xd : matrix F)
    (batch n_units n_inputs : nat) :
  Spec.cell_shape c n_units n_inputs →
  Spec.has_shape h batch n_units →
  Spec.has_shape xd batch n_inputs →
  Spec.has_shape (Spec.gru c h xd) batch n_units.
Proof.
  intros (HWr & HUr & HWz & HUz & HW & HU) Hh Hx.
  rewrite <- (gru_batch_rows c h xd)
    by (destruct Hh as [-> _], Hx as [-> _]; reflexivity).
  cbv zeta. eauto 40 with shapes.
Qed.

Lemma has_shape_gru_first (c : GRUBase.t F) (xd : matrix F)
    (batch n_units n_inputs : nat) :
  Spec.linear_shape (GRUBase.W_z c) n_units n_inputs →
  Spec.linear_shape (GRUBase.W c) n_units n_inputs →
  Spec.has_shape xd batch n_inputs →
  Spec.has_shape (Spec.gru_first c xd) batch n_units.
Proof.
  intros HWz HW Hx. rewrite <- gru_first_batch_rows.
  eauto 20 with shapes.
Qed.

(** One layer: the call of a ready cell is the transition of section 4.3
    on the array it holds. *)
Lemma layer_call self x σ (xv : Var.t F) (batch n_units n_inputs : nat) :
  Spec.layer_ready σ batch n_units n_inputs self →
  σ !! x = Some xv →
  Spec.has_shape (Var.data xv) batch n_inputs →
  let y := Spec.stateful_step (StatefulGRU.params self)
             (Spec.state_of σ self) (Var.data xv) in
  StatefulGRU.__call__ self x σ =
    Ok (length σ, StatefulGRU.with_h self (Some (length σ)),
        σ ++ [Spec.output_variable self y])
  ∧ Spec.has_shape y batch n_units.
Proof.
  intros [Hcell Hstate] Hx Hxs. unfold Spec.state_of, Spec.retained.
  destruct (StatefulGRU.h self) as [hl|] eqn:Hh; simpl.
  - destruct Hstate as (hv & Hhl & Hhs). rewrite Hhl; simpl. split.
    + by eapply next_call.
    + by eapply has_shape_gru.
  - destruct Hcell as (_ & _ & HWz & _ & HW & _). split.
    + by eapply first_call.
    + by eapply has_shape_gru_first.
Qed.

Lemma stack_ready_app σ (news : heap F) (batch n_units n_in : nat) ls :
  Spec.stack_ready σ batch n_units n_in ls →
  Spec.stack_ready (σ ++ news) batch n_units n_in ls.
Proof.
  revert n_in; induction ls as [|self ls IH]; intros n_in; [done|].
  simpl. intros [[Hcell Hstate] Hrest]. split; [split; [exact Hcell|]|].
  - destruct (StatefulGRU.h self) as [hl|]; [|done].
    destruct Hstate as (hv & Hhl & Hhs). exists hv. split; [|exact Hhs].
    by apply lookup_app_l_Some.
  - by apply IH.
Qed.

Lemma state_of_app σ (news : heap F) (batch n_units n_in : nat) self :
  Spec.layer_ready σ batch n_units n_in self →
  Spec.state_of (σ ++ news) self = Spec.state_of σ self.
Proof.
  intros [_ Hstate]. unfold Spec.state_of, Spec.retained.
  destruct (StatefulGRU.h self) as [hl|]; [|done]. simpl.
  destruct Hstate as (hv & Hhl & _).
  by rewrite (lookup_app_l_Some _ _ _ _ Hhl), Hhl.
Qed.

Lemma stack_states_app σ (news : heap F) (batch n_units n_in : nat) ls :
  Spec.stack_ready σ batch n_units n_in ls →
  (λ self, (StatefulGRU.params self, Spec.state_of (σ ++ news) self)) <$> ls
  = (λ self, (StatefulGRU.params self, Spec.state_of σ self)) <$> ls.
Proof.
  revert n_in; induction ls as [|self ls IH]; intros n_in; [done|].
  simpl. intros [Hself Hrest]. f_equal; [|by eapply IH].
  f_equal. by eapply state_of_app.
Qed.

(** The loop over the layers: every layer is called on the output of the
    layer below, each output is a new variable, and each layer retains its
    own output. *)
Lemma loop_spec (batch n_units : nat) ls :
  ∀ x σ (xv : Var.t F) (n_in : nat) (acc : list ref),
    Spec.stack_ready σ batch n_units n_in ls →
    σ !! x = Some xv →
    Spec.has_shape (Var.data xv) batch n_in →
    let outs :=
      Spec.stack_outputs
        ((λ self, (StatefulGRU.params self, Spec.state_of σ self)) <$> ls)
        (Var.data xv) in
    StackedStatefulGRU.loop ls x acc σ =
      Ok (acc ++ seq (length σ) (length ls),
          zip_with (λ i self, StatefulGRU.with_h self (Some i))
            (seq (length σ) (length ls)) ls,
          σ ++ zip_with Spec.output_variable ls outs)
    ∧ length outs = length ls
    ∧ Forall (λ y, Spec.has_shape y batch n_units) outs.
Proof.
  induction ls as [|self ls IH]; intros x σ xv n_in acc Hready Hx Hxs.
  - simpl. rewrite !app_nil_r. done.
  - destruct Hready as [Hself Hrest].
    destruct (layer_call self x σ xv batch n_units n_in Hself Hx Hxs)
      as [Hcall Hys].
    set (y := Spec.stateful_step (StatefulGRU.params self)
                (Spec.state_of σ self) (Var.data xv)) in *.
    set (v := Spec.output_variable self y) in *.
    destruct (IH (length σ) (σ ++ [v]) v n_units (acc ++ [length σ]))
      as (Hloop & Hlen & Hall).
    { by apply stack_ready_app. }
    { by apply list_lookup_middle. }
    { exact Hys. }
    rewrite (stack_states_app σ [v] batch n_units n_units ls Hrest)
      in Hloop, Hlen, Hall.
    cbn [StackedStatefulGRU.loop]. rewrite Hcall, bind_Ok. cbv beta iota.
    rewrite Hloop, bind_Ok. cbv beta iota zeta.
    rewrite length_app, Nat.add_1_r in *.
    cbn [fmap list_fmap Spec.stack_outputs length seq zip_with].
    fold y. rewrite <- !app_assoc. cbn [app].
    change (Var.data v) with y in *.
    split; [reflexivity|]. split; [by rewrite Hlen|].
    constructor; assumption.
Qed.

Lemma slice_from_last {A : Type} (k : Z) (l : list A) :
  (1 ≤ k)%Z → slice_from (- k) l = Spec.top_layers (Z.to_nat k) l.
Proof.
  intros Hk. unfold slice_from, Spec.top_layers.
  destruct (Z.ltb_spec (- k) 0); [|lia]. f_equal. lia.
Qed.

Lemma slice_from_zero {A : Type} (l : list A) : slice_from (- 0) l = l.
Proof.
  unfold slice_from. simpl. rewrite Z.min_l by lia. reflexivity.
Qed.

Lemma deref_fresh (pre news : heap F) :
  mapM (Var.deref (pre ++ news)) (seq (length pre) (length news)) = Ok news.
Proof.
  revert pre; induction news as [|v news IH]; intros pre; [reflexivity|].
  cbn [mapM seq length].
  rewrite (deref_Some (pre ++ v :: news) (length pre) v)
    by (by apply list_lookup_middle).
  rewrite bind_Ok.
  specialize (IH (pre ++ [v])).
  rewrite <- app_assoc, length_app, Nat.add_1_r in IH. cbn [app] in IH.
  rewrite IH. reflexivity.
Qed.

Lemma concat_total (ms : list (matrix F)) (batch : nat) :
  ms ≠ [] →
  Forall (λ m, length m = batch) ms →
  functions.concat ms = Ok (Spec.hstack ms) ∧
  length (Spec.hstack ms) = batch.
Proof.
  intros Hne Hall. induction Hall as [|m ms Hm Hall IH]; [done|].
  destruct ms as [|m' ms]; [done|].
  destruct IH as [Hc Hl]; [done|].
  cbn [functions.concat Spec.hstack]. cbn [functions.concat] in Hc.
  rewrite Hc, bind_Ok. split.
  - apply zipM_total. cbn [Spec.hstack] in Hl. lia.
  - cbn [Spec.hstack] in Hl. rewrite length_zip_with. lia.
Qed.

Lemma data_output_variables ls (outs : list (matrix F)) :
  length outs = length ls →
  Var.data <$> zip_with Spec.output_variable ls outs = outs.
Proof.
  revert outs; induction ls as [|self ls IH]; intros [|y outs] Hlen;
    simpl in *; try done.
  f_equal. apply IH. lia.
Qed.

Lemma states_after (pre post : heap F) ls (outs : list (matrix F)) :
  length outs = length ls →
  Spec.state_of (pre ++ zip_with Spec.output_variable ls outs ++ post) <$>
    zip_with (λ i self, StatefulGRU.with_h self (Some i))
      (seq (length pre) (length ls)) ls
  = Some <$> outs.
Proof.
  revert pre outs; induction ls as [|self ls IH]; intros pre [|y outs] Hlen;
    simpl in *; try done.
  f_equal.
  - unfold Spec.state_of, Spec.retained; simpl.
    by rewrite list_lookup_middle.
  - specialize (IH (pre ++ [Spec.output_variable self y]) outs).
    rewrite <- app_assoc, length_app, Nat.add_1_r in IH. apply IH. lia.
Qed.

Lemma params_after (ixs : list ref) ls :
  length ixs = length ls →
  StatefulGRU.params <$>
    zip_with (λ i self, StatefulGRU.with_h self (Some i)) ixs ls
  = StatefulGRU.params <$> ls.
Proof.
  revert ixs; induction ls as [|self ls IH]; intros [|i ixs] Hlen;
    simpl in *; try done.
  f_equal. apply IH. lia.
Qed.

(** The call of a ready stack with [top_n] of at least 1 or omitted. *)
Lemma stack_call_top (stack : StackedStatefulGRU.t F)
    x σ (xv : Var.t F) (batch n_units n_inputs : nat) (top_n : option Z) :
  length (StackedStatefulGRU.layers stack)
  = StackedStatefulGRU.num_layers stack →
  1 ≤ StackedStatefulGRU.num_layers stack →
  Spec.stack_ready σ batch n_units n_inputs (StackedStatefulGRU.layers stack) →
  σ !! x = Some xv →
  Spec.has_shape (Var.data xv) batch n_inputs →
  (∀ k, top_n = Some k → (1 ≤ k)%Z) →
  let outs :=
    Spec.stack_outputs
      ((λ layer, (StatefulGRU.params layer, Spec.state_of σ layer)) <$>
         StackedStatefulGRU.layers stack)
      (Var.data xv) in
  let n :=
    match top_n with
    | Some k => Z.to_nat k
    | None => StackedStatefulGRU.num_layers stack
    end in
  ∃ l stack' σ',
    StackedStatefulGRU.__call__ stack x top_n σ = Ok (l, stack', σ') ∧
    Var.data <$> σ' !! l = Some (Spec.hstack (Spec.top_layers n outs)) ∧
    Spec.state_of σ' <$> StackedStatefulGRU.layers stack' = Some <$> outs ∧
    StatefulGRU.params <$> StackedStatefulGRU.layers stack'
    = StatefulGRU.params <$> StackedStatefulGRU.layers stack ∧
    StackedStatefulGRU.num_layers stack' = StackedStatefulGRU.num_layers stack.
Proof.
  intros Hnum Hpos Hready Hx Hxs Htop outs n.
  destruct (loop_spec batch n_units (StackedStatefulGRU.layers stack)
              x σ xv n_inputs [] Hready Hx Hxs) as (Hloop & Hlen & Hall).
  fold outs in Hloop, Hlen, Hall.
  set (ls := StackedStatefulGRU.layers stack) in *.
  set (news := zip_with Spec.output_variable ls outs) in *.
  assert (length news = length ls) as Hnews
    by (subst news; rewrite length_zip_with; lia).
  set (kz := default (Z.of_nat (StackedStatefulGRU.num_layers stack)) top_n).
  assert ((1 ≤ kz)%Z ∧ n = Z.to_nat kz) as [Hkz Hn].
  { subst kz n. destruct top_n as [k|]; simpl; [|lia].
    split; [by apply Htop | reflexivity]. }
  set (j := length ls - n).
  assert (j < length outs) as Hj by (subst j; lia).
  destruct (concat_total (drop j outs) batch) as [Hconcat _].
  { intros Hnil. apply (f_equal length) in Hnil.
    rewrite length_drop in Hnil. simpl in Hnil. lia. }
  { apply Forall_drop. eapply Forall_impl; [exact Hall|].
    intros y [Hy _]. exact Hy. }
  unfold StackedStatefulGRU.__call__. fold ls kz.
  rewrite Hloop, bind_Ok. cbv beta iota. cbn [app].
  rewrite slice_from_last by exact Hkz. unfold Spec.top_layers.
  rewrite length_seq, <- Hn. fold j.
  replace (drop j (seq (length σ) (length ls)))
    with (drop j (seq (length σ) (length news))) by (by rewrite Hnews).
  rewrite (mapM_drop _ _ _ j (deref_fresh σ news)), bind_Ok.
  rewrite fmap_drop. subst news.
  rewrite data_output_variables by exact Hlen.
  rewrite Hlen. fold j. rewrite Hconcat, bind_Ok.
  unfold Var.alloc. eexists _, _, _. split; [reflexivity|].
  cbn [StackedStatefulGRU.layers StackedStatefulGRU.num_layers].
  split; [by rewrite list_lookup_middle|].
  split; [rewrite <- app_assoc; by apply states_after|].
  split; [|reflexivity].
  apply params_after. by rewrite length_seq.
Qed.

(** The stack of stateful cells, for every [top_n] of at least 1 (and for
    [top_n] omitted): layer 0 is fed [x], every other layer the output of
    the layer below; every layer retains its own output; the call returns
    a new variable holding the concatenation of the outputs of the last
    [top_n] layers, in layer order. *)
Theorem StackedStatefulGRU_call_top_layers (stack : StackedStatefulGRU.t F)
    x σ (xv : Var.t F) (batch n_units n_inputs : nat) (top_n : option Z) :
  length (StackedStatefulGRU.layers stack)
  = StackedStatefulGRU.num_layers stack →
  1 ≤ StackedStatefulGRU.num_layers stack →
  Spec.stack_ready σ batch n_units n_inputs (StackedStatefulGRU.layers stack) →
  σ !! x = Some xv →
  Spec.has_shape (Var.data xv) batch n_inputs →
  (∀ k, top_n = Some k → (1 ≤ k)%Z) →
  let outs :=
    Spec.stack_outputs
      ((λ layer, (StatefulGRU.params layer, Spec.state_of σ layer)) <$>
         StackedStatefulGRU.layers stack)
      (Var.data xv) in
  let n :=
    match top_n with
    | Some k => Z.to_nat k
    | None => StackedStatefulGRU.num_layers stack
    end in
  ∃ l stack' σ',
    StackedStatefulGRU.__call__ stack x top_n σ = Ok (l, stack', σ') ∧
    Var.data <$> σ' !! l = Some (Spec.hstack (Spec.top_layers n outs)) ∧
    Spec.state_of σ' <$> StackedStatefulGRU.layers stack' = Some <$> outs ∧
    StatefulGRU.params <$> StackedStatefulGRU.layers stack'
    = StatefulGRU.params <$> StackedStatefulGRU.layers stack ∧
    StackedStatefulGRU.num_layers stack' = StackedStatefulGRU.num_layers stack.
Proof.
  exact (stack_call_top stack x σ xv batch n_units n_inputs top_n).
Qed.

Lemma top_layers_all {A : Type} (outs : list A) :
  Spec.top_layers (length outs) outs = outs.
Proof. unfold Spec.top_layers. by rewrite Nat.sub_diag. Qed.

Lemma hstack_top_layer (outs : list (matrix F)) (y : matrix F) :
  last outs = Some y → Spec.hstack (Spec.top_layers 1 outs) = y.
Proof.
  intros Hlast. unfold Spec.top_layers.
  apply last_Some in Hlast as [outs' ->].
  rewrite length_app, Nat.add_sub. by rewrite drop_app_length.
Qed.

Lemma loop_length ls :
  ∀ x (acc h_list : list ref) σ ls' σ',
    StackedStatefulGRU.loop ls x acc σ = Ok (h_list, ls', σ') →
    length h_list = length acc + length ls.
Proof.
  induction ls as [|self ls IH]; intros x acc h_list σ ls' σ'; simpl.
  - intros [= <- _ _]. lia.
  - destruct (StatefulGRU.__call__ self x σ) as [[[l layer'] σ1]|e];
      simpl; [|discriminate].
    destruct (StackedStatefulGRU.loop ls l (acc ++ [l]) σ1)
      as [[[out ls''] σ2]|e] eqn:Hloop; simpl; [|discriminate].
    intros [= <- _ _]. apply IH in Hloop.
    rewrite length_app in Hloop. simpl in Hloop. lia.
Qed.

(** At [top_n = 0] the slice [h_list[-0:]] is the whole list: the call
    behaves as if [top_n] had been omitted. *)
Lemma StackedStatefulGRU_call_top_zero (stack : StackedStatefulGRU.t F) x σ :
  length (StackedStatefulGRU.layers stack)
  = StackedStatefulGRU.num_layers stack →
  StackedStatefulGRU.__call__ stack x (Some 0%Z) σ
  = StackedStatefulGRU.__call__ stack x None σ.
Proof.
  intros Hnum. unfold StackedStatefulGRU.__call__. simpl default.
  destruct (StackedStatefulGRU.loop _ x [] σ)
    as [[[h_list ls'] σ1]|e] eqn:Hloop; [|reflexivity].
  rewrite !bind_Ok. cbv beta iota. apply loop_length in Hloop.
  rewrite slice_from_zero. unfold slice_from.
  replace (Z.to_nat _) with 0; [reflexivity|].
  simpl in Hloop. destruct (Z.ltb_spec (- Z.of_nat
    (StackedStatefulGRU.num_layers stack)) 0); lia.
Qed.

End stateful_stack.

(** ** The life of a stateful cell *)

Section stateful_cell_life.
Context {F : Type} `{!Arith F, !Activation F}.
Implicit Types (self : StatefulGRU.t F) (σ : heap F) (l x : ref).

(** The stateless call on well-shaped arguments, for use below. *)
Lemma stateless_call (c : GRUBase.t F) (h xd : matrix F)
    (batch n_units n_inputs : nat) :
  Spec.cell_shape c n_units n_inputs →
  Spec.has_shape h batch n_units →
  Spec.has_shape xd batch n_inputs →
  GRU.__call__ c h xd = Ok (Spec.gru c h xd, c).
Proof.
  intros (HWr & HUr & HWz & HUz & HW & HU) Hh Hx.
  unfold GRU.__call__, variable.add, variable.mul.
  repeat array_step.
  f_equal. f_equal. apply (gru_batch_rows c h xd).
  destruct Hh as [-> _], Hx as [-> _]; reflexivity.
Qed.

(** Steps through the binds of a method body that has returned. *)
Ltac returned H :=
  repeat
    (match type of H with
     | ?m ≫= _ = Ok _ =>
         destruct m eqn:?; [rewrite bind_Ok in H | discriminate H]
     end;
     cbv beta iota zeta in H;
     repeat match type of H with
            | context [let '(_, _) := ?p in _] => destruct p
            end).

Lemma call_returned self x σ l (self' : StatefulGRU.t F) (σ' : heap F) :
  StatefulGRU.__call__ self x σ = Ok (l, self', σ') →
  l = length σ ∧
  self' = StatefulGRU.with_h self (Some l) ∧
  ∃ v, σ' = σ ++ [v].
Proof.
  unfold StatefulGRU.__call__, Var.alloc. intros Hcall.
  returned Hcall. injection Hcall as <- <- <-. eauto.
Qed.

Lemma deref_Ok σ l (v : Var.t F) : Var.deref σ l = Ok v → σ !! l = Some v.
Proof.
  unfold Var.deref. destruct (σ !! l); [by intros [= ->] | discriminate].
Qed.

Lemma mapM_returned {A B : Type} (f : A → result B) (P : B → Prop)
    (xs : list A) (ys : list B) :
  (∀ a b, f a = Ok b → P b) →
  mapM f xs = Ok ys → length ys = length xs ∧ Forall P ys.
Proof.
  intros Hf. revert ys; induction xs as [|a xs IH]; intros ys; simpl.
  - intros [= <-]. split; [reflexivity | constructor].
  - destruct (f a) as [b|e] eqn:Ha; simpl; [|discriminate].
    destruct (mapM f xs) as [ys'|e]; simpl; [|discriminate].
    intros [= <-]. destruct (IH ys' eq_refl) as [Hl Hall].
    split; [simpl; lia | constructor; eauto].
Qed.

Lemma zipM_returned {A B C : Type} (f : A → B → result C)
    (P : A → Prop) (Q : B → Prop) (R : C → Prop)
    (xs : list A) (ys : list B) (zs : list C) :
  (∀ a b c, f a b = Ok c → P a → Q b ∧ R c) →
  Forall P xs →
  zipM f xs ys = Ok zs →
  length ys = length xs ∧ length zs = length xs ∧ Forall Q ys ∧ Forall R zs.
Proof.
  intros Hf HP. revert ys zs.
  induction HP as [|a xs Ha _ IH]; intros [|b ys] zs; simpl;
    try discriminate.
  - intros [= <-]. repeat split; constructor.
  - destruct (f a b) as [c|e] eqn:Hab; simpl; [|discriminate].
    destruct (zipM f xs ys) as [zs'|e] eqn:Hrest; simpl; [|discriminate].
    intros [= <-]. destruct (IH ys zs' Hrest) as (Hl1 & Hl2 & HQ & HR).
    destruct (Hf a b c Hab Ha) as [Hb Hc].
    repeat split; simpl; try lia; by constructor.
Qed.

(** An element-wise operation returns only on operands of one shape. *)
Lemma binary_returned (f : F → F → F) (a c r : matrix F) (n k : nat) :
  Spec.has_shape a n k →
  variable.binary f a c = Ok r →
  Spec.has_shape c n k ∧ Spec.has_shape r n k.
Proof.
  intros [Hn Hrows] Hbin. unfold variable.binary in Hbin.
  destruct (zipM_returned (zipM (λ u w : F, Ok (f u w)))
              (λ row, length row = k)
              (λ row, length row = k) (λ row, length row = k)
              a c r) as (Hl1 & Hl2 & HQ & HR); try done.
  - intros ra rc rr Hrow Hra.
    destruct (zipM_returned (λ u w : F, Ok (f u w))
                (λ _, True) (λ _, True) (λ _, True)
                ra rc rr) as (H1 & H2 & _); try done.
    + apply Forall_forall. done.
    + split; lia.
  - split; split; try done; lia.
Qed.

(** A linear unit returns one row per sample and one column per row of its
    weight matrix. *)
Lemma linear_returned (L : linear.Linear F) (xd y : matrix F) :
  linear.__call__ L xd = Ok y →
  Spec.has_shape y (length xd) (length (linear.W L)).
Proof.
  unfold linear.__call__. intros Hcall.
  apply (mapM_returned _ (λ row, length row = length (linear.W L)))
    in Hcall as [Hl Hall]; [by split|].
  intros xrow yrow.
  destruct (mapM (linear.dot xrow) (linear.W L)) as [y0|e] eqn:Hdots;
    simpl; [|discriminate].
  apply (mapM_returned _ (λ _, True)) in Hdots as [Hl0 _]; [|done].
  destruct (linear.b L) as [bias|].
  - intros Hz.
    destruct (zipM_returned (λ u v, Ok (fadd u v))
                (λ _, True) (λ _, True) (λ _, True)
                y0 bias yrow) as (_ & H2 & _); try done.
    + apply Forall_forall. done.
    + lia.
  - by intros [= <-].
Qed.

(** A call that returns, whatever the shapes of the units: the input was a
    live variable; the call has made one new variable, at the end of the
    store, on the device of the cell, and the cell retains it and returns
    it; the new array has one row per sample of the input and one column
    per row of the weight matrix of [W_z]; a state that was present is an
    array of that same shape; the units and the array module of the cell
    are as they were. *)
Theorem StatefulGRU_call_returned self x σ l (self' : StatefulGRU.t F)
    (σ' : heap F) :
  StatefulGRU.__call__ self x σ = Ok (l, self', σ') →
  ∃ xv v,
    let batch := length (Var.data xv) in
    let n_units :=
      length (linear.W (GRUBase.W_z (StatefulGRU.params self))) in
    σ !! x = Some xv ∧
    σ' = σ ++ [v] ∧
    σ' !! l = Some v ∧
    StatefulGRU.h self' = Some l ∧
    StatefulGRU.params self' = StatefulGRU.params self ∧
    StatefulGRU.xp self' = StatefulGRU.xp self ∧
    Var.device v = device_of (StatefulGRU.xp self) ∧
    Spec.has_shape (Var.data v) batch n_units ∧
    ∀ hl, StatefulGRU.h self = Some hl →
      ∃ hv, σ !! hl = Some hv ∧ Spec.has_shape (Var.data hv) batch n_units.
Proof.
  unfold StatefulGRU.__call__, Var.alloc, variable.add, variable.mul.
  intros Hcall.
  destruct (Var.deref σ x) as [xv|e] eqn:Hx; [|discriminate].
  rewrite bind_Ok in Hcall. cbv zeta in Hcall.
  destruct (linear.__call__ (GRUBase.W_z _) _) as [z|e] eqn:Hz;
    [|discriminate].
  rewrite bind_Ok in Hcall.
  destruct (linear.__call__ (GRUBase.W _) _) as [h_bar|e] eqn:Hw;
    [|discriminate].
  rewrite bind_Ok in Hcall.
  apply deref_Ok in Hx. apply linear_returned in Hz.
  exists xv. destruct (StatefulGRU.h self) as [hl|] eqn:Hh.
  - cbv beta iota zeta in Hcall.
    repeat match goal with
           | H : _ ≫= _ = Ok _ |- _ => returned H
           end.
    repeat match goal with
           | H : linear.__call__ _ _ = Ok _ |- _ => clear H
           end.
    simplify_eq.
    repeat match goal with
           | Hs : Spec.has_shape ?a _ _,
             H : variable.binary _ ?a _ = Ok _ |- _ =>
               apply (binary_returned _ _ _ _ _ _ Hs) in H as [? ?]
           | Hs : Spec.has_shape ?a _ _,
             H : variable.binary _ (functions.sigmoid ?a) _ = Ok _ |- _ =>
               apply (binary_returned _ _ _ _ _ _ (has_shape_sigmoid _ _ _ Hs))
                 in H as [? ?]
           | Hs : Spec.has_shape ?a _ _,
             H : variable.binary _ (variable.rsub (functions.sigmoid ?a) _) _
                 = Ok _ |- _ =>
               apply (binary_returned _ _ _ _ _ _
                        (has_shape_rsub _ _ _ _ (has_shape_sigmoid _ _ _ Hs)))
                 in H as [? ?]
           end.
    match goal with
    | H : Var.deref σ hl = Ok ?hv |- _ => apply deref_Ok in H
    end.
    eexists. cbv zeta.
    split; [exact Hx|]. split; [reflexivity|].
    split; [by apply list_lookup_middle|].
    repeat (split; [reflexivity|]).
    split; [assumption|].
    intros hl' [= <-]. eauto.
  - rewrite bind_Ok in Hcall. cbv beta iota zeta in Hcall.
    destruct (variable.binary fmul _ _) as [h_new|e] eqn:Hm; [|discriminate].
    rewrite !bind_Ok in Hcall.
    apply (binary_returned _ _ _ _ _ _ (has_shape_sigmoid _ _ _ Hz))
      in Hm as [_ Hnew].
    injection Hcall as <- <- <-. eexists. cbv zeta.
    split; [exact Hx|]. split; [reflexivity|].
    split; [by apply list_lookup_middle|].
    repeat (split; [reflexivity|]).
    split; [exact Hnew|]. discriminate.
Qed.

(** A ready cell stays ready: the call succeeds, the array it then holds is
    the transition of section 4.3 applied to the array it held, and every
    variable that existed is still there, unchanged.  Calls can therefore
    be chained for as long as the inputs keep their shape. *)
Theorem StatefulGRU_call_keeps_ready self x σ (xv : Var.t F)
    (batch n_units n_inputs : nat) :
  (∀ a c : F, fadd a c = fadd c a) →
  Spec.layer_ready σ batch n_units n_inputs self →
  σ !! x = Some xv →
  Spec.has_shape (Var.data xv) batch n_inputs →
  ∃ l self' σ',
    StatefulGRU.__call__ self x σ = Ok (l, self', σ') ∧
    Spec.state_of σ' self'
    = Some (Spec.stateful_step (StatefulGRU.params self)
              (Spec.state_of σ self) (Var.data xv)) ∧
    Spec.layer_ready σ' batch n_units n_inputs self' ∧
    ∀ l' v, σ !! l' = Some v → σ' !! l' = Some v.
Proof.
  intros Hcomm Hready Hx Hxs.
  destruct (layer_call Hcomm self x σ xv batch n_units n_inputs
              Hready Hx Hxs) as [Hcall Hys].
  eexists _, _, _. split; [exact Hcall|].
  assert ((σ ++ [Spec.output_variable self
                   (Spec.stateful_step (StatefulGRU.params self)
                      (Spec.state_of σ self) (Var.data xv))])
          !! length σ = Some (Spec.output_variable self
                   (Spec.stateful_step (StatefulGRU.params self)
                      (Spec.state_of σ self) (Var.data xv)))) as Hnew
    by (by apply list_lookup_middle).
  split; [|split].
  - unfold Spec.state_of at 1, Spec.retained. simpl. by rewrite Hnew.
  - split; [exact (proj1 Hready)|]. simpl. eauto.
  - intros l' v Hl'. by apply lookup_app_l_Some.
Qed.

(** A cell given the state [h] by [set_state] puts out, on [x], the array
    that the stateless cell with the same units puts out on [(h, x)].  The
    two methods add the two terms of [h'] in opposite orders, so addition is
    taken to commute. *)
Theorem set_state_then_call_is_GRU self l x σ (hv xv : Var.t F)
    (batch n_units n_inputs : nat) :
  (∀ a c : F, fadd a c = fadd c a) →
  σ !! l = Some hv →
  σ !! x = Some xv →
  Spec.cell_shape (StatefulGRU.params self) n_units n_inputs →
  Spec.has_shape (Var.data hv) batch n_units →
  Spec.has_shape (Var.data xv) batch n_inputs →
  ∃ self1 σ1,
    StatefulGRU.set_state self (PyVariable l) σ = Ok (self1, σ1) ∧
    Spec.output_data (StatefulGRU.__call__ self1 x σ1)
    = fst <$> GRU.__call__ (StatefulGRU.params self)
                (Var.data hv) (Var.data xv).
Proof.
  intros Hcomm Hl Hx Hcell Hhs Hxs.
  pose proof (lookup_lt_Some _ _ _ Hl) as Hlt.
  set (moved := {| Var.data := Var.data hv;
                   Var.device := device_of (StatefulGRU.xp self) |}).
  exists (StatefulGRU.with_h self (Some l)), (<[l := moved]> σ). split.
  { unfold StatefulGRU.set_state, Var.to_cpu, Var.to_gpu.
    rewrite (deref_Some _ _ _ Hl). subst moved.
    destruct (StatefulGRU.xp self); reflexivity. }
  assert (∃ xv', <[l := moved]> σ !! x = Some xv' ∧
                 Var.data xv' = Var.data xv) as (xv' & Hx' & Hdata).
  { destruct (decide (l = x)) as [->|Hne].
    - exists moved. rewrite list_lookup_insert_eq by exact Hlt.
      split; [reflexivity|]. simpl. congruence.
    - exists xv. by rewrite list_lookup_insert_ne. }
  rewrite (next_call (StatefulGRU.with_h self (Some l)) x (<[l := moved]> σ)
             xv' moved l batch n_units n_inputs Hcomm eq_refl
             (list_lookup_insert_eq _ _ _ Hlt) Hx' Hcell Hhs
             ltac:(by rewrite Hdata)).
  rewrite (stateless_call _ _ _ batch n_units n_inputs Hcell Hhs Hxs).
  unfold Spec.output_data. rewrite bind_Ok. cbv beta iota.
  rewrite (deref_Some _ _ _ (list_lookup_middle _ [] _ _ eq_refl)).
  rewrite Hdata. reflexivity.
Qed.

Lemma transfer_spec self σ (m : array_module)
    (move : ref → heap F → result (heap F)) :
  (∀ l (σ0 : heap F),
     move l σ0 =
       (v ← Var.deref σ0 l;
        Ok (<[l := {| Var.data := Var.data v;
                      Var.device := device_of m |}]> σ0))) →
  Spec.state_live σ self →
  let transfer self σ :=
    let self := StatefulGRU.with_xp self m in
    match StatefulGRU.h self with
    | Some l => σ' ← move l σ; Ok (self, σ')
    | None => Ok (self, σ)
    end in
  ∃ σ1,
    transfer self σ = Ok (StatefulGRU.with_xp self m, σ1) ∧
    Spec.placed σ1 (StatefulGRU.with_xp self m) ∧
    Var.data <$> σ1 = Var.data <$> σ ∧
    (StatefulGRU.h self = None → σ1 = σ) ∧
    transfer (StatefulGRU.with_xp self m) σ1
    = Ok (StatefulGRU.with_xp self m, σ1).
Proof.
  intros Hmove Hlive transfer. subst transfer. unfold Spec.state_live in Hlive.
  unfold Spec.placed. cbn [StatefulGRU.with_xp StatefulGRU.h StatefulGRU.xp].
  destruct (StatefulGRU.h self) as [l|] eqn:Hh.
  - destruct Hlive as [v Hl]. pose proof (lookup_lt_Some _ _ _ Hl) as Hlt.
    set (v' := {| Var.data := Var.data v; Var.device := device_of m |}).
    exists (<[l := v']> σ).
    assert (<[l := v']> σ !! l = Some v') as Hl'
      by (by apply list_lookup_insert_eq).
    rewrite !Hmove, (deref_Some _ _ _ Hl), (deref_Some _ _ _ Hl'), !bind_Ok.
    split; [reflexivity|]. split; [|split; [|split]].
    + intros l0 v0 [= <-]. rewrite Hl'. by intros [= <-].
    + rewrite list_fmap_insert. apply list_insert_id.
      rewrite list_lookup_fmap, Hl. reflexivity.
    + discriminate.
    + subst v'. cbn [Var.data]. by rewrite list_insert_insert_eq.
  - exists σ. repeat split; try done.
Qed.

(** [to_cpu] and [to_gpu] on a cell whose state, if any, is live: the cell
    changes its array module; its state, if any, ends up where the cell is;
    no array changes its contents and no variable appears or disappears;
    with the state absent the store is untouched; and a second transfer to
    the same side changes nothing. *)
Theorem StatefulGRU_transfers self σ (dev : option nat) :
  Spec.state_live σ self →
  (∃ σ1,
     StatefulGRU.to_cpu self σ = Ok (StatefulGRU.with_xp self numpy, σ1) ∧
     Spec.placed σ1 (StatefulGRU.with_xp self numpy) ∧
     Var.data <$> σ1 = Var.data <$> σ ∧
     (StatefulGRU.h self = None → σ1 = σ) ∧
     StatefulGRU.to_cpu (StatefulGRU.with_xp self numpy) σ1
     = Ok (StatefulGRU.with_xp self numpy, σ1))
  ∧
  (∃ σ1,
     StatefulGRU.to_gpu self dev σ = Ok (StatefulGRU.with_xp self cupy, σ1) ∧
     Spec.placed σ1 (StatefulGRU.with_xp self cupy) ∧
     Var.data <$> σ1 = Var.data <$> σ ∧
     (StatefulGRU.h self = None → σ1 = σ) ∧
     StatefulGRU.to_gpu (StatefulGRU.with_xp self cupy) dev σ1
     = Ok (StatefulGRU.with_xp self cupy, σ1)).
Proof.
  intros Hlive. split.
  - exact (transfer_spec self σ numpy Var.to_cpu (λ _ _, eq_refl) Hlive).
  - exact (transfer_spec self σ cupy (λ l, Var.to_gpu l dev)
             (λ _ _, eq_refl) Hlive).
Qed.

End stateful_cell_life.

(** ** What a call of the stateful stack leaves behind *)

Section stateful_stack_frame.
Context {F : Type} `{!Arith F, !Activation F}.
Implicit Types (σ : heap F) (ls : list (StatefulGRU.t F)).

Lemma loop_returned ls :
  ∀ x (acc h_list : list ref) σ ls' (σ' : heap F),
    StackedStatefulGRU.loop ls x acc σ = Ok (h_list, ls', σ') →
    h_list = acc ++ seq (length σ) (length ls) ∧
    ls' = zip_with (λ i self, StatefulGRU.with_h self (Some i))
            (seq (length σ) (length ls)) ls ∧
    ∃ news, σ' = σ ++ news ∧ length news = length ls.
Proof.
  induction ls as [|self ls IH]; intros x acc h_list σ ls' σ'; simpl.
  - intros [= <- <- <-]. rewrite !app_nil_r. split; [done|].
    split; [done|]. exists []. by rewrite app_nil_r.
  - destruct (StatefulGRU.__call__ self x σ) as [[[l layer'] σ1]|e]
      eqn:Hcall; simpl; [|discriminate].
    destruct (StackedStatefulGRU.loop ls l (acc ++ [l]) σ1)
      as [[[out ls''] σ2]|e] eqn:Hloop; simpl; [|discriminate].
    intros [= <- <- <-].
    apply call_returned in Hcall as (-> & -> & v & ->).
    apply IH in Hloop as (-> & -> & news & -> & Hnews).
    rewrite length_app, Nat.add_1_r, <- !app_assoc. simpl.
    split; [done|]. split; [done|].
    exists (v :: news). split; [done|]. simpl. lia.
Qed.

(** Whatever its arguments, a call of the stack that returns has allocated
    one variable per layer and one more for the concatenation, which it
    returns; layer [i] retains the [i]-th of the new variables; the units of
    the layers and every variable that existed are as they were. *)
Theorem StackedStatefulGRU_call_allocates (stack : StackedStatefulGRU.t F)
    (x : ref) (top_n : option Z) σ (l : ref)
    (stack' : StackedStatefulGRU.t F) (σ' : heap F) :
  StackedStatefulGRU.__call__ stack x top_n σ = Ok (l, stack', σ') →
  let n := length (StackedStatefulGRU.layers stack) in
  l = length σ + n ∧
  StackedStatefulGRU.num_layers stack' = StackedStatefulGRU.num_layers stack ∧
  StatefulGRU.params <$> StackedStatefulGRU.layers stack'
  = StatefulGRU.params <$> StackedStatefulGRU.layers stack ∧
  StatefulGRU.h <$> StackedStatefulGRU.layers stack'
  = Some <$> seq (length σ) n ∧
  ∃ news, σ' = σ ++ news ∧ length news = S n.
Proof.
  intros Hcall n. unfold StackedStatefulGRU.__call__, Var.alloc in Hcall.
  destruct (StackedStatefulGRU.loop _ x [] σ) as [[[h_list ls'] σ1]|e]
    eqn:Hloop; [|discriminate]. rewrite bind_Ok in Hcall.
  cbv beta iota in Hcall.
  destruct (mapM _ _) as [vs|e]; [|discriminate]. rewrite bind_Ok in Hcall.
  destruct (functions.concat _) as [y|e]; [|discriminate].
  rewrite bind_Ok in Hcall. injection Hcall as <- <- <-.
  apply loop_returned in Hloop as (_ & -> & news & -> & Hnews).
  fold n in Hnews |- *. cbn [StackedStatefulGRU.layers
    StackedStatefulGRU.num_layers].
  rewrite length_app, Hnews. split; [done|]. split; [done|].
  split; [|split].
  - apply params_after. by rewrite length_seq.
  - generalize (length σ). subst n. clear.
    induction (StackedStatefulGRU.layers stack) as [|self ls IH];
      intros a; [done|]. simpl. f_equal. apply IH.
  - exists (news ++ [{| Var.data := y;
                        Var.device := default CPU (Var.device <$> head vs) |}]).
    rewrite app_assoc, length_app, Hnews. simpl. split; [done | lia].
Qed.

End stateful_stack_frame.

(** ** The stateful stack at other values of [top_n] *)

Section stateful_stack_slices.
Context {F : Type} `{!Arith F, !Activation F}.
Context (fadd_comm : ∀ a c : F, fadd a c = fadd c a).
Implicit Types (σ : heap F).

Lemma slice_from_nonpositive {A : Type} (k : Z) (l : list A) :
  (k ≤ 0)%Z → slice_from (- k) l = drop (Z.to_nat (- k)) l.
Proof.
  intros Hk. unfold slice_from.
  destruct (Z.ltb_spec (- k) 0); [lia|].
  destruct (decide (Z.to_nat (- k) ≤ length l)).
  - f_equal. lia.
  - rewrite !drop_ge by lia. reflexivity.
Qed.

(** The call of a ready stack whose slice [h_list[-top_n:]] leaves out the
    bottom [j] layers. *)
Lemma stack_call_drop (stack : StackedStatefulGRU.t F) (x : ref) σ
    (xv : Var.t F) (batch n_units n_inputs : nat) (top_n : option Z)
    (j : nat) :
  Spec.stack_ready σ batch n_units n_inputs (StackedStatefulGRU.layers stack) →
  σ !! x = Some xv →
  Spec.has_shape (Var.data xv) batch n_inputs →
  (∀ l : list ref,
     slice_from
       (- default (Z.of_nat (StackedStatefulGRU.num_layers stack)) top_n) l
     = drop j l) →
  let outs :=
    Spec.stack_outputs
      ((λ layer, (StatefulGRU.params layer, Spec.state_of σ layer)) <$>
         StackedStatefulGRU.layers stack)
      (Var.data xv) in
  (j < length (StackedStatefulGRU.layers stack) →
   ∃ l stack' σ',
     StackedStatefulGRU.__call__ stack x top_n σ = Ok (l, stack', σ') ∧
     Var.data <$> σ' !! l = Some (Spec.hstack (drop j outs)) ∧
     Spec.state_of σ' <$> StackedStatefulGRU.layers stack' = Some <$> outs)
  ∧
  (length (StackedStatefulGRU.layers stack) ≤ j →
   StackedStatefulGRU.__call__ stack x top_n σ = Err InvalidType).
Proof.
  intros Hready Hx Hxs Hslice outs.
  destruct (loop_spec fadd_comm batch n_units
              (StackedStatefulGRU.layers stack)
              x σ xv n_inputs [] Hready Hx Hxs) as (Hloop & Hlen & Hall).
  fold outs in Hloop, Hlen, Hall.
  set (ls := StackedStatefulGRU.layers stack) in *.
  set (news := zip_with Spec.output_variable ls outs) in *.
  assert (length news = length ls) as Hnews
    by (subst news; rewrite length_zip_with; lia).
  unfold StackedStatefulGRU.__call__. fold ls.
  rewrite Hloop, bind_Ok. cbv beta iota. cbn [app]. rewrite Hslice.
  split.
  - intros Hj.
    destruct (concat_total (drop j outs) batch) as [Hconcat _].
    { intros Hnil. apply (f_equal length) in Hnil.
      rewrite length_drop in Hnil. simpl in Hnil. lia. }
    { apply Forall_drop. eapply Forall_impl; [exact Hall|].
      intros y [Hy _]. exact Hy. }
    replace (drop j (seq (length σ) (length ls)))
      with (drop j (seq (length σ) (length news))) by (by rewrite Hnews).
    rewrite (mapM_drop _ _ _ j (deref_fresh σ news)), bind_Ok.
    rewrite fmap_drop. subst news.
    rewrite data_output_variables by exact Hlen.
    rewrite Hconcat, bind_Ok.
    unfold Var.alloc. eexists _, _, _. split; [reflexivity|].
    cbn [StackedStatefulGRU.layers].
    split; [by rewrite list_lookup_middle|].
    rewrite <- app_assoc. by apply states_after.
  - intros Hj. rewrite drop_ge by (rewrite length_seq; lia). reflexivity.
Qed.

(** For [top_n = 0] and for negative [top_n] the slice [h_list[-top_n:]]
    starts at index [-top_n]: a ready stack returns the outputs of all
    layers but the bottom [-top_n] (every layer at [top_n = 0]), and
    raises, [concat] having nothing to join, when that leaves no layer. *)
Theorem StackedStatefulGRU_call_nonpositive_top_n
    (stack : StackedStatefulGRU.t F) (x : ref) σ (xv : Var.t F)
    (batch n_units n_inputs : nat) (k : Z) :
  Spec.stack_ready σ batch n_units n_inputs (StackedStatefulGRU.layers stack) →
  σ !! x = Some xv →
  Spec.has_shape (Var.data xv) batch n_inputs →
  (k ≤ 0)%Z →
  let outs :=
    Spec.stack_outputs
      ((λ layer, (StatefulGRU.params layer, Spec.state_of σ layer)) <$>
         StackedStatefulGRU.layers stack)
      (Var.data xv) in
  (Z.to_nat (- k) < length (StackedStatefulGRU.layers stack) →
   ∃ l stack' σ',
     StackedStatefulGRU.__call__ stack x (Some k) σ = Ok (l, stack', σ') ∧
     Var.data <$> σ' !! l
     = Some (Spec.hstack (drop (Z.to_nat (- k)) outs)) ∧
     Spec.state_of σ' <$> StackedStatefulGRU.layers stack' = Some <$> outs)
  ∧
  (length (StackedStatefulGRU.layers stack) ≤ Z.to_nat (- k) →
   StackedStatefulGRU.__call__ stack x (Some k) σ = Err InvalidType).
Proof.
  intros Hready Hx Hxs Hk.
  apply (stack_call_drop stack x σ xv batch n_units n_inputs (Some k)
           (Z.to_nat (- k)) Hready Hx Hxs).
  intros l. by apply slice_from_nonpositive.
Qed.

End stateful_stack_slices.

(** ** More on the orthogonal initializer *)

Section orthogonal_more.
Context {F : Type} `{!Arith F} {RandomState : Type}.
Context (standard_normal : RandomState → nat → nat → matrix F * RandomState).
Context (svd : matrix F → matrix F * list F * matrix F).
Implicit Types (self : Orthogonal.t F) (array : Orthogonal.ndarray F)
  (g : RandomState).

(** Whenever the call returns, the array has kept its shape and its number
    of elements, and the generator has been used at most once: not at all
    for a scalar or an array without elements, once otherwise. *)
Theorem Orthogonal_call_keeps_shape self array g
    (out : Orthogonal.ndarray F) (g' : RandomState) :
  length (Orthogonal.data array) = Orthogonal.size array →
  Orthogonal.__call__ standard_normal svd self array g = Ok (out, g') →
  Orthogonal.shape out = Orthogonal.shape array ∧
  length (Orthogonal.data out) = length (Orthogonal.data array) ∧
  ((Orthogonal.shape array = [] ∨ Orthogonal.size array = 0) → g' = g) ∧
  (Orthogonal.shape array ≠ [] → Orthogonal.size array ≠ 0 →
   ∃ rows cols a, standard_normal g rows cols = (a, g')).
Proof.
  intros Hwf. unfold Orthogonal.__call__, Orthogonal.size in *.
  destruct (Orthogonal.shape array) as [|len rest] eqn:Hshape.
  - intros [= <- <-]. cbn. rewrite length_fmap. repeat split; done.
  - destruct (decide (foldr Nat.mul 1 (len :: rest) = 0)) as [Hz|Hnz].
    + intros [= <- <-]. rewrite Hshape. repeat split; try done.
    + cbn [fst snd]. destruct (decide (_ < len)); [discriminate|].
      destruct (Orthogonal.np_prod rest) as [cols|]; [|discriminate].
      destruct (standard_normal g len cols) as [a g1] eqn:Hsample.
      destruct (svd a) as [[u sv] v].
      unfold Orthogonal.reshape.
      destruct (decide (length (mjoin _) = _)) as [Hlen|]; [|discriminate].
      rewrite bind_Ok. intros [= <- <-]. cbn. rewrite length_fmap.
      split; [done|]. split; [congruence|]. split.
      * intros [|]; [discriminate | contradiction].
      * intros _ _. eauto.
Qed.

(** A one-dimensional array of two elements or more is always rejected:
    its column count is the product of no dimension, the float 1.0, and
    the message says so. *)
Theorem Orthogonal_call_rejects_vectors self array g (n : nat) :
  Orthogonal.shape array = [n] →
  2 ≤ n →
  Orthogonal.__call__ standard_normal svd self array g
  = Err (ValueError
      ("Cannot make orthogonal system because# of vectors (" +:+ pretty n
       +:+ ") is larger than that of dimensions(1.0)")).
Proof.
  intros Hshape Hn. unfold Orthogonal.__call__, Orthogonal.size.
  rewrite Hshape. cbn [foldr].
  rewrite decide_False by lia. cbn [fst snd Orthogonal.np_prod
    Orthogonal.np_value].
  rewrite decide_True by lia. reflexivity.
Qed.

(** A one-dimensional array is never initialized: without elements it is
    left as it is, with one element the column count 1.0 is a float that
    the sampler rejects with [TypeError], and with more the rows outnumber
    the columns.  So a call that returns has changed nothing and has drawn
    nothing. *)
Theorem Orthogonal_call_never_fills_vectors self array g (n : nat) :
  Orthogonal.shape array = [n] →
  (n = 0 →
   Orthogonal.__call__ standard_normal svd self array g = Ok (array, g))
  ∧ (n = 1 →
     Orthogonal.__call__ standard_normal svd self array g = Err TypeError)
  ∧ (∀ (out : Orthogonal.ndarray F) (g' : RandomState),
       Orthogonal.__call__ standard_normal svd self array g = Ok (out, g') →
       n = 0 ∧ out = array ∧ g' = g).
Proof.
  intros Hshape. unfold Orthogonal.__call__, Orthogonal.size.
  rewrite Hshape. cbn [foldr fst snd Orthogonal.np_prod Orthogonal.np_value].
  destruct (decide (n * 1 = 0)) as [Hz|Hnz].
  - split; [done|]. split; [lia|]. intros out g' [= <- <-].
    split; [lia | done].
  - split; [lia|]. destruct (decide (1 < n)) as [Hlt|Hge].
    + split; [lia | discriminate].
    + split; [done | discriminate].
Qed.

(** An array of rank above two is treated as the matrix obtained by
    merging all axes but the first: on the shape [len :: rest] the call
    stores the elements, draws the sample and raises the error that it
    does on the shape [(len, product of rest)]. *)
Theorem Orthogonal_call_flattens self g (len : nat) (rest : list nat)
    (d : list F) :
  rest ≠ [] →
  let array := {| Orthogonal.shape := len :: rest; Orthogonal.data := d |} in
  let flat :=
    {| Orthogonal.shape := [len; foldr Nat.mul 1 rest];
       Orthogonal.data := d |} in
  (λ r, (Orthogonal.data r.1, r.2)) <$>
    Orthogonal.__call__ standard_normal svd self array g
  = (λ r, (Orthogonal.data r.1, r.2)) <$>
      Orthogonal.__call__ standard_normal svd self flat g.
Proof.
  intros Hrest array flat. subst array flat.
  unfold Orthogonal.__call__, Orthogonal.size, Orthogonal.reshape.
  cbn [Orthogonal.shape Orthogonal.data fst snd].
  assert (Orthogonal.np_prod [foldr Nat.mul 1 rest] = Orthogonal.np_prod rest)
    as -> .
  { destruct rest as [|r rest]; [done|]. unfold Orthogonal.np_prod.
    f_equal. cbn [foldr]. lia. }
  assert (foldr Nat.mul 1 [len; foldr Nat.mul 1 rest]
          = foldr Nat.mul 1 (len :: rest)) as ->
    by (cbn [foldr]; lia).
  destruct (decide (foldr Nat.mul 1 (len :: rest) = 0)); [reflexivity|].
  destruct (decide (_ < len)); [reflexivity|].
  destruct (Orthogonal.np_prod rest) as [cols|]; [|reflexivity].
  destruct (standard_normal g len cols) as [a g1].
  destruct (svd a) as [[u sv] v].
  destruct (decide (length (mjoin _) = _)); reflexivity.
Qed.

End orthogonal_more.

(** ** The square case of the orthogonal initializer *)

Section orthogonal_square.
Context {F : Type} `{!Arith F} {RandomState : Type}.
Context (standard_normal : RandomState → nat → nat → matrix F * RandomState).
Context (svd : matrix F → matrix F * list F * matrix F).
Context (F_semiring : semi_ring_theory (R:=F) fzero fone fadd fmul eq).
Implicit Types (q u v : matrix F) (s : F).

Add Ring F_ring_square : F_semiring.

Lemma transpose_scale s (n : nat) q :
  LinAlg.transpose n (map (map (λ e, fmul e s)) q)
  = map (map (λ e, fmul e s)) (LinAlg.transpose n q).
Proof.
  unfold LinAlg.transpose, LinAlg.column.
  rewrite <- !list_fmap_compose. apply list_fmap_ext. intros _ j _; simpl.
  rewrite <- !list_fmap_compose. apply list_fmap_ext. intros _ row _; simpl.
  rewrite list_lookup_fmap. destruct (row !! j); simpl; [reflexivity|ring].
Qed.

(** When rows = cols, on a shape of two axes or more, the factor [u] is
    stored, and if its columns are orthonormal so are, up to [scale], those
    of the result: [Q^T Q = scale^2 I]. *)
Theorem Orthogonal_call_square_columns (self : Orthogonal.t F)
    (array : Orthogonal.ndarray F) (g g' : RandomState) (len : nat)
    (rest : list nat) (a u v : matrix F) (sv : list F) :
  Orthogonal.shape array = len :: rest →
  rest ≠ [] →
  Orthogonal.np_value (Orthogonal.np_prod rest) = len →
  0 < len →
  standard_normal g len len = (a, g') →
  svd a = (u, sv, v) →
  Spec.has_shape u len len →
  LinAlg.gram_cols len u = LinAlg.scaled_identity len fone →
  ∃ out,
    Orthogonal.__call__ standard_normal svd self array g = Ok (out, g') ∧
    Orthogonal.data out = (λ e, fmul e (Orthogonal.scale self)) <$> mjoin u ∧
    LinAlg.gram_cols len (LinAlg.rows_of len len (Orthogonal.data out))
    = LinAlg.scaled_identity len
        (fmul (Orthogonal.scale self) (Orthogonal.scale self)).
Proof.
  intros Hshape Hrest Hcols Hpos Hsample Hsvd Hu Huu.
  assert (foldr Nat.mul 1 (len :: rest) = len * len) as Hsz.
  { rewrite <- Hcols at 3. simpl. destruct rest; reflexivity. }
  assert (Orthogonal.np_prod rest = Orthogonal.NpInt len) as Hprod
    by (rewrite <- Hcols; destruct rest; [done | reflexivity]).
  unfold Orthogonal.__call__, Orthogonal.size. rewrite Hshape, Hsz.
  rewrite decide_False by nia. cbn [fst snd]. rewrite Hprod.
  cbn [Orthogonal.np_value].
  rewrite decide_False by lia. rewrite Hsample, Hsvd.
  rewrite (shape2_square u len Hu Hpos).
  rewrite decide_True by reflexivity.
  unfold Orthogonal.reshape.
  rewrite decide_True by (rewrite Hsz; by apply length_mjoin_shape).
  rewrite bind_Ok. cbn [Orthogonal.shape Orthogonal.data].
  eexists; split; [reflexivity|]. cbn [Orthogonal.data].
  split; [reflexivity|].
  rewrite (rows_of_mjoin _ u len len Hu). unfold LinAlg.gram_cols in *.
  rewrite transpose_scale, (gram_rows_scale F_semiring), Huu.
  apply (scaled_identity_scale F_semiring).
Qed.

End orthogonal_square.

(** ** The first call and the zero state *)

Section zero_state.
Context {F : Type} `{!Arith F, !Activation F}.
Context (F_semiring : semi_ring_theory (R:=F) fzero fone fadd fmul eq).
Implicit Types (c : GRUBase.t F) (L : linear.Linear F).

Add Ring F_ring_zero : F_semiring.

Lemma Forall_zero_replicate (l : list F) :
  Forall (λ e, e = fzero) l → l = replicate (length l) fzero.
Proof.
  induction 1 as [|e l -> _ IH]; [reflexivity|]. simpl. by rewrite <- IH.
Qed.

Lemma inner_zero (n : nat) (ws : list F) :
  Spec.inner (replicate n fzero) ws = fzero.
Proof.
  unfold Spec.inner. revert ws; induction n as [|n IH]; intros [|w ws];
    simpl; try reflexivity.
  replace (fadd fzero (fmul fzero w)) with (fzero : F) by ring. apply IH.
Qed.

Lemma zip_add_zero_r (xs : list F) (n : nat) :
  length xs = n → zip_with fadd xs (replicate n fzero) = xs.
Proof.
  intros <-. induction xs as [|a xs IH]; [reflexivity|]. simpl. rewrite IH.
  f_equal. ring.
Qed.

Lemma zip_add_zero_l (xs : list F) (n : nat) :
  length xs = n → zip_with fadd (replicate n fzero) xs = xs.
Proof.
  intros <-. induction xs as [|a xs IH]; [reflexivity|]. simpl. rewrite IH.
  f_equal. ring.
Qed.

Lemma zip_mul_zero_r (xs : list F) (n : nat) :
  length xs = n → zip_with fmul xs (replicate n fzero) = replicate n fzero.
Proof.
  intros <-. induction xs as [|a xs IH]; [reflexivity|]. simpl. rewrite IH.
  f_equal. ring.
Qed.

Lemma affine_zero L (out inp n : nat) :
  Spec.linear_shape L out inp → Spec.zero_bias L →
  Spec.affine L (replicate n fzero) = replicate out fzero.
Proof.
  intros [[Hl _] Hb] Hz. unfold Spec.affine.
  assert (Spec.inner (replicate n fzero) <$> linear.W L
          = replicate out fzero) as ->.
  { rewrite <- Hl. generalize (linear.W L). intros ws.
    induction ws as [|w ws IH]; [reflexivity|].
    rewrite fmap_cons, inner_zero, IH. reflexivity. }
  destruct (linear.b L) as [bias|] eqn:Hbias; [|reflexivity].
  rewrite (Forall_zero_replicate bias (Hz bias Hbias)), (Hb bias eq_refl).
  apply zip_add_zero_r, length_replicate.
Qed.

(** On one sample: the recurrence of section 4.2 on the zero hidden vector
    is the first-call formula of section 4.3, when the hidden-to-hidden
    units of the update gate and of the candidate have no or zero bias. *)
Lemma gru_step_zero c (x : list F) (n_units n_inputs : nat) :
  Spec.cell_shape c n_units n_inputs →
  Spec.zero_bias (GRUBase.U_z c) →
  Spec.zero_bias (GRUBase.U c) →
  Spec.gru_step c (replicate n_units fzero) x = Spec.gru_first_step c x.
Proof.
  intros (HWr & HUr & HWz & HUz & HW & HU) HzUz HzU.
  unfold Spec.gru_step, Spec.gru_first_step, Spec.update_gate,
    Spec.candidate.
  rewrite (affine_zero _ _ _ _ HUz HzUz).
  rewrite (zip_add_zero_r _ n_units (affine_length _ _ _ x HWz)).
  assert (length (Spec.reset_gate c (replicate n_units fzero) x) = n_units)
    as Hr.
  { unfold Spec.reset_gate. rewrite length_fmap, length_zip_with.
    rewrite (affine_length _ _ _ x HWr), (affine_length _ _ _ _ HUr). lia. }
  rewrite (zip_mul_zero_r _ n_units Hr), (affine_zero _ _ _ _ HU HzU).
  rewrite (zip_add_zero_r _ n_units (affine_length _ _ _ x HW)).
  set (z := fsigmoid <$> Spec.affine (GRUBase.W_z c) x).
  assert (length z = n_units) as Hz
    by (subst z; rewrite length_fmap; by eapply affine_length).
  rewrite (zip_mul_zero_r (fsub fone <$> z) n_units)
    by (by rewrite length_fmap).
  apply zip_add_zero_l.
  rewrite length_zip_with, length_fmap, Hz.
  rewrite (affine_length _ _ _ x HW). lia.
Qed.

Lemma gru_zero c (x : matrix F) (batch n_units n_inputs : nat) :
  Spec.cell_shape c n_units n_inputs →
  Spec.zero_bias (GRUBase.U_z c) →
  Spec.zero_bias (GRUBase.U c) →
  length x = batch →
  Spec.gru c (Spec.zeros batch n_units) x = Spec.gru_first c x.
Proof.
  intros Hcell HzUz HzU <-. unfold Spec.gru, Spec.gru_first, Spec.zeros.
  induction x as [|row x IH]; [reflexivity|]. simpl.
  rewrite IH. f_equal. by eapply gru_step_zero.
Qed.

Lemma has_shape_zeros (batch n : nat) :
  Spec.has_shape (Spec.zeros batch n : matrix F) batch n.
Proof.
  unfold Spec.zeros. split; [apply length_replicate|].
  apply Forall_replicate, length_replicate.
Qed.

(** The first call of a stateful cell, whose state is absent, puts out what
    the stateless cell with the same units puts out on the zero state,
    provided the hidden-to-hidden units of the update gate and of the
    candidate have no or zero bias, as they have when the cell has just been
    built with the default [bias_init].  The arithmetic is exact: the
    scalars form a commutative semiring. *)
Theorem first_call_is_zero_state (self : StatefulGRU.t F) (x : ref)
    (σ : heap F) (xv : Var.t F) (batch n_units n_inputs : nat) :
  StatefulGRU.h self = None →
  σ !! x = Some xv →
  Spec.has_shape (Var.data xv) batch n_inputs →
  Spec.cell_shape (StatefulGRU.params self) n_units n_inputs →
  Spec.zero_bias (GRUBase.U_z (StatefulGRU.params self)) →
  Spec.zero_bias (GRUBase.U (StatefulGRU.params self)) →
  Spec.output_data (StatefulGRU.__call__ self x σ)
  = fst <$> GRU.__call__ (StatefulGRU.params self)
              (Spec.zeros batch n_units) (Var.data xv).
Proof.
  intros Hnone Hx Hxs Hcell HzUz HzU.
  rewrite (stateless_call _ _ _ batch n_units n_inputs Hcell
             (has_shape_zeros batch n_units) Hxs).
  destruct Hcell as (HWr & HUr & HWz & HUz & HW & HU).
  rewrite (first_call self x σ xv batch n_units n_inputs Hnone Hx Hxs HWz HW).
  unfold Spec.output_data. rewrite bind_Ok. cbv beta iota.
  rewrite (deref_Some _ _ _ (list_lookup_middle _ [] _ _ eq_refl)).
  rewrite bind_Ok. cbn [Var.data fmap]. 
  rewrite (gru_zero _ _ batch n_units n_inputs); try done.
  by destruct Hxs.
Qed.

End zero_state.

(** ** The stack of stateless cells, for any number of layers *)

Section stateless_stack_layers.
Context {F : Type} `{!Arith F, !Activation F}.
Implicit Types (h x : matrix F) (cs : list (GRUBase.t F)).

Lemma has_shape_slice h (batch n w i : nat) :
  i < n → Spec.has_shape h batch (n * w) →
  Spec.has_shape (Spec.slice w i h) batch w.
Proof.
  intros Hi [Hlen Hrows]. unfold Spec.slice. split.
  - by rewrite length_fmap.
  - apply Forall_fmap. eapply Forall_impl; [exact Hrows|].
    intros row Hrow. simpl. rewrite length_take, length_drop, Hrow.
    assert (i * w + w ≤ n * w) by nia. lia.
Qed.

Lemma has_shape_slices h (batch n w : nat) :
  Spec.has_shape h batch (n * w) →
  Forall (λ m, Spec.has_shape m batch w) (Spec.slices n w h) ∧
  length (Spec.slices n w h) = n.
Proof.
  intros Hh. unfold Spec.slices. split; [|by rewrite length_fmap, length_seq].
  apply Forall_fmap, Forall_forall. intros i Hi.
  apply elem_of_seq in Hi. simpl.
  apply (has_shape_slice h batch n w i); [lia|exact Hh].
Qed.

Lemma split_axis_slices h (batch n w : nat) :
  1 ≤ n → Spec.has_shape h batch (n * w) →
  functions.split_axis h n = Ok (Spec.slices n w h).
Proof.
  intros Hn [_ Hrows]. unfold functions.split_axis, Spec.slices, Spec.slice.
  rewrite decide_False by lia.
  destruct h as [|row h]; simpl functions.ncols.
  - rewrite decide_True by (apply Nat.Div0.mod_0_l). reflexivity.
  - inversion Hrows as [|? ? Hrow _]; subst. rewrite Hrow.
    rewrite (Nat.mul_comm n w), decide_True by (apply Nat.Div0.mod_mul).
    cbv zeta. rewrite Nat.div_mul by lia. reflexivity.
Qed.

Lemma has_shape_hstack (ms : list (matrix F)) (batch w : nat) :
  ms ≠ [] →
  Forall (λ m, Spec.has_shape m batch w) ms →
  Spec.has_shape (Spec.hstack ms) batch (length ms * w).
Proof.
  intros Hne Hall. induction Hall as [|m ms Hm Hall IH]; [done|].
  destruct ms as [|m' ms].
  - simpl. by rewrite Nat.add_0_r.
  - specialize (IH ltac:(done)).
    change (Spec.hstack (m :: m' :: ms))
      with (zip_with app m (Spec.hstack (m' :: ms))).
    change (length (m :: m' :: ms) * w) with (w + length (m' :: ms) * w).
    clear Hall Hne. revert IH Hm.
    generalize (Spec.hstack (m' :: ms)) (length (m' :: ms) * w).
    intros rest k [Hlr Hr] [Hlm Hmr]. split.
    + rewrite length_zip_with. lia.
    + clear Hlr Hlm. revert rest Hr.
      induction Hmr as [|row m Hrow _ IHm]; intros [|r rest] Hr;
        simpl; try constructor.
      * inversion Hr; subst. rewrite length_app. lia.
      * inversion Hr; subst. by apply IHm.
Qed.

(** The loop over [zip(self, h)]: cell [i] is called on slice [i] and on
    the output of the cell below; no cell changes. *)
Lemma stateless_loop_spec (batch n_units : nat) cs :
  ∀ (hs : list (matrix F)) x (n_in : nat) (acc : list (matrix F)),
    length hs = length cs →
    Spec.cells_shape n_units n_in cs →
    Forall (λ h, Spec.has_shape h batch n_units) hs →
    Spec.has_shape x batch n_in →
    let outs := Spec.stack_outputs (zip cs (Some <$> hs)) x in
    StackedStatelessGRU.loop cs hs x acc = Ok (acc ++ outs, cs)
    ∧ length outs = length cs
    ∧ Forall (λ y, Spec.has_shape y batch n_units) outs.
Proof.
  induction cs as [|c cs IH]; intros [|h hs] x n_in acc Hlen Hcs Hhs Hx;
    try discriminate Hlen.
  - simpl. by rewrite app_nil_r.
  - destruct Hcs as [Hc Hcs]. inversion Hhs as [|? ? Hh Hhs']; subst.
    pose proof (has_shape_gru c h x batch n_units n_in Hc Hh Hx) as Hy.
    destruct (IH hs (Spec.gru c h x) n_units (acc ++ [Spec.gru c h x]))
      as (Hloop & Hl & Hall); try done.
    { simpl in Hlen. lia. }
    cbn [StackedStatelessGRU.loop].
    rewrite (stateless_call c h x batch n_units n_in Hc Hh Hx), bind_Ok.
    cbv beta iota. rewrite Hloop, bind_Ok. cbv beta iota.
    cbn [fmap list_fmap zip zip_with Spec.stack_outputs Spec.stateful_step
         length].
    cbv zeta. rewrite <- app_assoc. cbn [app].
    split; [reflexivity|]. split; [by rewrite Hl|]. by constructor.
Qed.

Lemma stateless_stack_call (stack : StackedStatelessGRU.t F) h x
    (batch n_units n_inputs : nat) :
  length (StackedStatelessGRU.layers stack)
  = StackedStatelessGRU.num_layers stack →
  1 ≤ StackedStatelessGRU.num_layers stack →
  Spec.cells_shape n_units n_inputs (StackedStatelessGRU.layers stack) →
  Spec.has_shape h batch (StackedStatelessGRU.num_layers stack * n_units) →
  Spec.has_shape x batch n_inputs →
  let outs :=
    Spec.stack_outputs
      (zip (StackedStatelessGRU.layers stack)
         (Some <$> Spec.slices (StackedStatelessGRU.num_layers stack)
                     n_units h))
      x in
  StackedStatelessGRU.__call__ stack h x = Ok (Spec.hstack outs, stack)
  ∧ Spec.has_shape (Spec.hstack outs) batch
      (StackedStatelessGRU.num_layers stack * n_units).
Proof.
  intros Hnum Hpos Hcs Hh Hx outs.
  destruct (has_shape_slices h batch _ n_units Hh) as [Hsl Hsll].
  destruct (stateless_loop_spec batch n_units
              (StackedStatelessGRU.layers stack)
              (Spec.slices (StackedStatelessGRU.num_layers stack) n_units h)
              x n_inputs [] ltac:(lia) Hcs Hsl Hx) as (Hloop & Hl & Hall).
  fold outs in Hloop, Hl, Hall.
  assert (outs ≠ []) as Hne.
  { intros Hnil. rewrite Hnil in Hl. simpl in Hl. lia. }
  destruct (concat_total outs batch Hne) as [Hconcat _].
  { eapply Forall_impl; [exact Hall|]. by intros y [Hy _]. }
  split.
  - unfold StackedStatelessGRU.__call__.
    rewrite (split_axis_slices h batch _ n_units Hpos Hh), bind_Ok.
    rewrite Hloop, bind_Ok. cbv beta iota. cbn [app].
    rewrite Hconcat, bind_Ok. by destruct stack.
  - rewrite <- Hnum, <- Hl. by apply has_shape_hstack.
Qed.

(** The stack of stateless cells, for any number of layers: the hidden
    batch is cut into [num_layers] slices of [n_units] columns; cell 0 is
    fed [x] and slice 0, every other cell the output of the cell below and
    its own slice; the call returns the outputs of all cells side by side,
    an array of the shape of the hidden batch, and changes no cell. *)
Theorem StackedStatelessGRU_call_layers (stack : StackedStatelessGRU.t F)
    h x (batch n_units n_inputs : nat) :
  length (StackedStatelessGRU.layers stack)
  = StackedStatelessGRU.num_layers stack →
  1 ≤ StackedStatelessGRU.num_layers stack →
  Spec.cells_shape n_units n_inputs (StackedStatelessGRU.layers stack) →
  Spec.has_shape h batch (StackedStatelessGRU.num_layers stack * n_units) →
  Spec.has_shape x batch n_inputs →
  let outs :=
    Spec.stack_outputs
      (zip (StackedStatelessGRU.layers stack)
         (Some <$> Spec.slices (StackedStatelessGRU.num_layers stack)
                     n_units h))
      x in
  StackedStatelessGRU.__call__ stack h x = Ok (Spec.hstack outs, stack)
  ∧ Spec.has_shape (Spec.hstack outs) batch
      (StackedStatelessGRU.num_layers stack * n_units).
Proof. exact (stateless_stack_call stack h x batch n_units n_inputs). Qed.

End stateless_stack_layers.

(** ** The state of a stack of stateful cells *)

Section stateful_stack_state.
Context {F : Type} `{!Arith F, !Activation F}.
Implicit Types (σ : heap F) (ls : list (StatefulGRU.t F)).

Lemma fmap_pair_zip {A B C : Type} (f : A → B) (g : A → C) (l : list A) :
  (λ a, (f a, g a)) <$> l = zip (f <$> l) (g <$> l).
Proof.
  induction l as [|a l IH]; [reflexivity|].
  rewrite !fmap_cons. cbn [zip_with]. by rewrite IH.
Qed.

Lemma length_stack_outputs (cs : list (GRUBase.t F * option (matrix F)))
    (x : matrix F) :
  length (Spec.stack_outputs cs x) = length cs.
Proof.
  revert x; induction cs as [|[c s] cs IH]; intros x; [reflexivity|].
  simpl. by rewrite IH.
Qed.

(** The loop of [set_state] on variables that have just been made. *)
Lemma set_state_loop_spec ls :
  ∀ (pre news : heap F),
    length news = length ls →
    StackedStatefulGRU.set_state_loop ls (seq (length pre) (length ls))
      (pre ++ news)
    = Ok (zip_with (λ i self, StatefulGRU.with_h self (Some i))
            (seq (length pre) (length ls)) ls,
          pre ++ zip_with Spec.output_variable ls (Var.data <$> news)).
Proof.
  induction ls as [|self ls IH]; intros pre [|v news] Hlen;
    try discriminate Hlen.
  - reflexivity.
  - cbn [length seq StackedStatefulGRU.set_state_loop].
    assert (StatefulGRU.set_state self (PyVariable (length pre))
              (pre ++ v :: news)
            = Ok (StatefulGRU.with_h self (Some (length pre)),
                  (pre ++ [Spec.output_variable self (Var.data v)]) ++ news))
      as ->.
    { unfold StatefulGRU.set_state, Var.to_cpu, Var.to_gpu.
      rewrite (deref_Some _ _ _ (list_lookup_middle pre news v _ eq_refl)).
      rewrite !bind_Ok, <- app_assoc. unfold Spec.output_variable.
      destruct (StatefulGRU.xp self);
        [rewrite decide_True by done | rewrite decide_False by done];
        rewrite bind_Ok, insert_app_r_alt, Nat.sub_diag by lia;
        reflexivity. }
    rewrite bind_Ok. cbv beta iota.
    specialize (IH (pre ++ [Spec.output_variable self (Var.data v)]) news).
    rewrite length_app, Nat.add_1_r in IH.
    rewrite IH by (simpl in Hlen; lia).
    rewrite bind_Ok. cbv beta iota. rewrite <- app_assoc. reflexivity.
Qed.

Lemma stack_set_state (stack : StackedStatefulGRU.t F) (h : ref) σ
    (hv : Var.t F) (batch n_units : nat) :
  length (StackedStatefulGRU.layers stack)
  = StackedStatefulGRU.num_layers stack →
  1 ≤ StackedStatefulGRU.num_layers stack →
  σ !! h = Some hv →
  Spec.has_shape (Var.data hv) batch
    (StackedStatefulGRU.num_layers stack * n_units) →
  StackedStatefulGRU.set_state stack h σ
  = Ok ({| StackedStatefulGRU.layers :=
             zip_with (λ i self, StatefulGRU.with_h self (Some i))
               (seq (length σ) (length (StackedStatefulGRU.layers stack)))
               (StackedStatefulGRU.layers stack);
           StackedStatefulGRU.num_layers :=
             StackedStatefulGRU.num_layers stack |},
        σ ++ zip_with Spec.output_variable (StackedStatefulGRU.layers stack)
               (Spec.slices (StackedStatefulGRU.num_layers stack) n_units
                  (Var.data hv))).
Proof.
  intros Hnum Hpos Hh Hhs.
  destruct (has_shape_slices (Var.data hv) batch _ n_units Hhs) as [_ Hsl].
  unfold StackedStatefulGRU.set_state, StackedStatefulGRU.split_variable.
  rewrite (deref_Some _ _ _ Hh), bind_Ok.
  rewrite (split_axis_slices _ batch _ n_units Hpos Hhs), !bind_Ok.
  cbv beta iota. rewrite Hsl, <- Hnum.
  rewrite set_state_loop_spec by (by rewrite length_fmap, Hnum).
  rewrite bind_Ok. cbv beta iota. do 3 f_equal.
  rewrite <- list_fmap_compose, Hnum. f_equal. apply list_fmap_id.
Qed.

Lemma layers_after (pre post : heap F) ls (outs : list (matrix F)) :
  length outs = length ls →
  Forall (Spec.placed (pre ++ zip_with Spec.output_variable ls outs ++ post))
    (zip_with (λ i self, StatefulGRU.with_h self (Some i))
       (seq (length pre) (length ls)) ls)
  ∧ StatefulGRU.h <$>
      zip_with (λ i self, StatefulGRU.with_h self (Some i))
        (seq (length pre) (length ls)) ls
    = Some <$> seq (length pre) (length ls).
Proof.
  revert pre outs; induction ls as [|self ls IH]; intros pre [|y outs] Hlen;
    simpl in *; try done.
  specialize (IH (pre ++ [Spec.output_variable self y]) outs).
  rewrite <- app_assoc, length_app, Nat.add_1_r in IH. cbn [app] in IH.
  destruct IH as [IHp IHh]; [lia|]. split.
  - constructor; [|exact IHp].
    intros l v [= <-]. rewrite list_lookup_middle by reflexivity.
    by intros [= <-].
  - f_equal. exact IHh.
Qed.

Lemma stack_ready_after (pre post : heap F) ls (outs : list (matrix F))
    (batch n_units n_in : nat) :
  length outs = length ls →
  Spec.cells_shape n_units n_in (StatefulGRU.params <$> ls) →
  Forall (λ y, Spec.has_shape y batch n_units) outs →
  Spec.stack_ready (pre ++ zip_with Spec.output_variable ls outs ++ post)
    batch n_units n_in
    (zip_with (λ i self, StatefulGRU.with_h self (Some i))
       (seq (length pre) (length ls)) ls).
Proof.
  revert pre outs n_in; induction ls as [|self ls IH];
    intros pre [|y outs] n_in Hlen Hcs Hall; simpl in *; try done.
  destruct Hcs as [Hc Hcs]. inversion Hall as [|? ? Hy Hall']; subst.
  split.
  - split; [exact Hc|]. simpl. exists (Spec.output_variable self y).
    split; [by apply list_lookup_middle | exact Hy].
  - specialize (IH (pre ++ [Spec.output_variable self y]) outs n_units).
    rewrite <- app_assoc, length_app, Nat.add_1_r in IH. apply IH; [lia|done..].
Qed.

(** [set_state] on a stack: the variable is cut into [num_layers] new
    variables of [n_units] columns; layer [i] retains the [i]-th of them,
    moved to where the layer is; the variables that existed, the caller's
    among them, are as they were, and no layer retains the caller's. *)
Theorem StackedStatefulGRU_set_state_slices (stack : StackedStatefulGRU.t F)
    (h : ref) σ (hv : Var.t F) (batch n_units : nat) :
  length (StackedStatefulGRU.layers stack)
  = StackedStatefulGRU.num_layers stack →
  1 ≤ StackedStatefulGRU.num_layers stack →
  σ !! h = Some hv →
  Spec.has_shape (Var.data hv) batch
    (StackedStatefulGRU.num_layers stack * n_units) →
  ∃ stack' σ',
    StackedStatefulGRU.set_state stack h σ = Ok (stack', σ') ∧
    Spec.state_of σ' <$> StackedStatefulGRU.layers stack'
    = Some <$> Spec.slices (StackedStatefulGRU.num_layers stack) n_units
                 (Var.data hv) ∧
    StatefulGRU.h <$> StackedStatefulGRU.layers stack'
    = Some <$> seq (length σ) (StackedStatefulGRU.num_layers stack) ∧
    Forall (Spec.placed σ') (StackedStatefulGRU.layers stack') ∧
    StatefulGRU.params <$> StackedStatefulGRU.layers stack'
    = StatefulGRU.params <$> StackedStatefulGRU.layers stack ∧
    StackedStatefulGRU.num_layers stack'
    = StackedStatefulGRU.num_layers stack ∧
    (∃ news, σ' = σ ++ news) ∧
    σ' !! h = Some hv.
Proof.
  intros Hnum Hpos Hh Hhs.
  destruct (has_shape_slices (Var.data hv) batch _ n_units Hhs) as [_ Hsl].
  eexists _, _. split; [by eapply stack_set_state|].
  cbn [StackedStatefulGRU.layers StackedStatefulGRU.num_layers].
  set (ls := StackedStatefulGRU.layers stack) in *.
  set (outs := Spec.slices _ _ _) in *.
  rewrite <- Hnum in Hsl.
  destruct (layers_after σ [] ls outs Hsl) as [Hplaced Hrefs].
  pose proof (states_after σ [] ls outs Hsl) as Hstates.
  rewrite app_nil_r in Hplaced, Hstates.
  split; [exact Hstates|]. split; [by rewrite Hrefs, Hnum|].
  split; [exact Hplaced|].
  split; [apply params_after; by rewrite length_seq|].
  split; [reflexivity|]. split; [by eexists|].
  by apply lookup_app_l_Some.
Qed.

Lemma output_data_of {S : Type} (l : ref) (s : S) σ (m : matrix F) :
  Var.data <$> σ !! l = Some m →
  Spec.output_data (Ok (l, s, σ)) = Ok m.
Proof.
  intros Hl. unfold Spec.output_data. rewrite bind_Ok. cbv beta iota.
  unfold Var.deref. destruct (σ !! l) as [v|]; [|discriminate].
  injection Hl as <-. reflexivity.
Qed.

(** The loop over layers that hold no state. *)
Lemma loop_absent (batch n_units : nat) ls :
  ∀ (x : ref) σ (xv : Var.t F) (n_in : nat) (acc : list ref),
    Spec.cells_shape n_units n_in (StatefulGRU.params <$> ls) →
    σ !! x = Some xv →
    Spec.has_shape (Var.data xv) batch n_in →
    let outs :=
      Spec.stack_outputs
        ((λ self, (StatefulGRU.params self, None)) <$> ls) (Var.data xv) in
    ∃ ls' (news : heap F),
      StackedStatefulGRU.loop (StatefulGRU.reset_state <$> ls) x acc σ
      = Ok (acc ++ seq (length σ) (length news), ls', σ ++ news) ∧
      Var.data <$> news = outs ∧
      Forall (λ y, Spec.has_shape y batch n_units) outs.
Proof.
  induction ls as [|self ls IH]; intros x σ xv n_in acc Hcs Hx Hxs.
  - exists [], []. simpl. by rewrite !app_nil_r.
  - destruct Hcs as [Hc Hcs].
    pose proof Hc as (_ & _ & HWz & _ & HW & _).
    set (y := Spec.gru_first (StatefulGRU.params self) (Var.data xv)).
    set (v := {| Var.data := y;
                 Var.device := device_of (StatefulGRU.xp self) |}).
    pose proof (has_shape_gru_first _ _ batch n_units n_in HWz HW Hxs) as Hy.
    destruct (IH (length σ) (σ ++ [v]) v n_units (acc ++ [length σ]))
      as (ls' & news & Hloop & Hdata & Hall); try done.
    { by apply list_lookup_middle. }
    eexists _, (v :: news).
    rewrite fmap_cons. cbn [StackedStatefulGRU.loop].
    rewrite (first_call (StatefulGRU.reset_state self) x σ xv batch n_units
               n_in eq_refl Hx Hxs HWz HW), bind_Ok.
    cbv beta iota.
    change (StatefulGRU.params (StatefulGRU.reset_state self))
      with (StatefulGRU.params self).
    change (StatefulGRU.xp (StatefulGRU.reset_state self))
      with (StatefulGRU.xp self).
    fold y v. rewrite Hloop, bind_Ok. cbv beta iota.
    rewrite length_app, Nat.add_1_r, <- !app_assoc. cbn [app length seq].
    split; [reflexivity|].
    cbn [fmap list_fmap Spec.stack_outputs Spec.stateful_step].
    split; [exact (f_equal (cons y) Hdata) | by constructor].
Qed.

(** The call, with [top_n] omitted, of a stack whose layers hold no
    state. *)
Lemma stack_call_absent (stack : StackedStatefulGRU.t F)
    (x : ref) σ (xv : Var.t F) (batch n_units n_inputs : nat) :
  length (StackedStatefulGRU.layers stack)
  = StackedStatefulGRU.num_layers stack →
  1 ≤ StackedStatefulGRU.num_layers stack →
  Spec.cells_shape n_units n_inputs
    (StatefulGRU.params <$> StackedStatefulGRU.layers stack) →
  σ !! x = Some xv →
  Spec.has_shape (Var.data xv) batch n_inputs →
  Spec.output_data
    (StackedStatefulGRU.__call__ (StackedStatefulGRU.reset_state stack)
       x None σ)
  = Ok (Spec.hstack
          (Spec.stack_outputs
             ((λ self, (StatefulGRU.params self, None)) <$>
                StackedStatefulGRU.layers stack)
             (Var.data xv))).
Proof.
  intros Hnum Hpos Hcs Hx Hxs.
  destruct (loop_absent batch n_units (StackedStatefulGRU.layers stack)
              x σ xv n_inputs [] Hcs Hx Hxs)
    as (ls' & news & Hloop & Hdata & Hall).
  set (outs := Spec.stack_outputs _ _) in *.
  assert (length news = StackedStatefulGRU.num_layers stack) as Hnews.
  { rewrite <- (length_fmap Var.data), Hdata, <- Hnum. subst outs.
    by rewrite length_stack_outputs, length_fmap. }
  destruct (concat_total outs batch) as [Hconcat _].
  { intros Hnil. pose proof (f_equal length Hdata) as Hl.
    rewrite Hnil, length_fmap in Hl. simpl in Hl. lia. }
  { eapply Forall_impl; [exact Hall|]. by intros y [Hy _]. }
  unfold StackedStatefulGRU.__call__.
  cbn [StackedStatefulGRU.reset_state StackedStatefulGRU.layers
       StackedStatefulGRU.num_layers default].
  rewrite Hloop, bind_Ok. cbv beta iota. cbn [app].
  unfold slice_from. rewrite length_seq.
  replace (Z.to_nat _) with 0
    by (rewrite Hnews;
        destruct (Z.ltb_spec
                    (- Z.of_nat (StackedStatefulGRU.num_layers stack)) 0);
        lia).
  rewrite drop_0, deref_fresh, bind_Ok, Hdata, Hconcat, bind_Ok.
  unfold Var.alloc. apply output_data_of.
  by rewrite list_lookup_middle.
Qed.

(** After [reset_state] a stack puts out what its cells compute from no
    state at all, whatever its layers retained before. *)
Theorem StackedStatefulGRU_reset_then_call (stack : StackedStatefulGRU.t F)
    (x : ref) σ (xv : Var.t F) (batch n_units n_inputs : nat) :
  length (StackedStatefulGRU.layers stack)
  = StackedStatefulGRU.num_layers stack →
  1 ≤ StackedStatefulGRU.num_layers stack →
  Spec.cells_shape n_units n_inputs
    (StatefulGRU.params <$> StackedStatefulGRU.layers stack) →
  σ !! x = Some xv →
  Spec.has_shape (Var.data xv) batch n_inputs →
  Spec.output_data
    (StackedStatefulGRU.__call__ (StackedStatefulGRU.reset_state stack)
       x None σ)
  = Ok (Spec.hstack
          (Spec.stack_outputs
             ((λ self, (StatefulGRU.params self, None)) <$>
                StackedStatefulGRU.layers stack)
             (Var.data xv))).
Proof.
  exact (stack_call_absent stack x σ xv batch n_units n_inputs).
Qed.

(** Device transfers of a stack. *)
Lemma each_layer_transfer (m : array_module)
    (move : ref → heap F → result (heap F))
    (step : StatefulGRU.t F → heap F → result (StatefulGRU.t F * heap F)) :
  (∀ l (σ0 : heap F),
     move l σ0 =
       (v ← Var.deref σ0 l;
        Ok (<[l := {| Var.data := Var.data v;
                      Var.device := device_of m |}]> σ0))) →
  (∀ self σ0,
     step self σ0 =
       match StatefulGRU.h self with
       | Some l => σ' ← move l σ0; Ok (StatefulGRU.with_xp self m, σ')
       | None => Ok (StatefulGRU.with_xp self m, σ0)
       end) →
  ∀ ls σ,
    Forall (Spec.state_live σ) ls →
    ∃ σ1,
      StackedStatefulGRU.each_layer step ls σ
      = Ok ((λ self, StatefulGRU.with_xp self m) <$> ls, σ1) ∧
      Var.data <$> σ1 = Var.data <$> σ ∧
      (∀ l v, σ1 !! l = Some v →
              Var.device v = device_of m ∨ σ !! l = Some v) ∧
      Forall (Spec.placed σ1) ((λ self, StatefulGRU.with_xp self m) <$> ls) ∧
      (∀ l v, σ !! l = Some v →
              Forall (λ self, StatefulGRU.h self ≠ Some l) ls →
              σ1 !! l = Some v).
Proof.
  intros Hmove Hstep ls. induction ls as [|self ls IH]; intros σ Hlive.
  - exists σ. simpl. repeat split; eauto.
  - inversion Hlive as [|? ? Hself Hrest]; subst.
    cbn [StackedStatefulGRU.each_layer]. rewrite Hstep.
    unfold Spec.state_live in Hself.
    destruct (StatefulGRU.h self) as [l0|] eqn:Hh.
    + destruct Hself as [v0 Hl0].
      pose proof (lookup_lt_Some _ _ _ Hl0) as Hlt.
      set (v0' := {| Var.data := Var.data v0; Var.device := device_of m |}).
      rewrite Hmove, (deref_Some _ _ _ Hl0), !bind_Ok. cbv beta iota.
      fold v0'.
      destruct (IH (<[l0 := v0']> σ)) as (σ1 & Hloop & Hdata & Hdev & Hpl & Hframe).
      { eapply Forall_impl; [exact Hrest|]. intros layer.
        unfold Spec.state_live. destruct (StatefulGRU.h layer) as [l|]; [|done].
        intros Hl. apply lookup_lt_is_Some. rewrite length_insert.
        by apply lookup_lt_is_Some. }
      exists σ1. rewrite Hloop, bind_Ok. cbv beta iota.
      split; [reflexivity|]. split; [|split; [|split]].
      * rewrite Hdata, list_fmap_insert. apply list_insert_id.
        by rewrite list_lookup_fmap, Hl0.
      * intros l v Hl. destruct (Hdev l v Hl) as [Hd|Hl']; [by left|].
        destruct (decide (l = l0)) as [->|Hne].
        -- rewrite list_lookup_insert_eq in Hl' by exact Hlt.
           injection Hl' as <-. by left.
        -- rewrite list_lookup_insert_ne in Hl' by done. by right.
      * rewrite fmap_cons. constructor; [|exact Hpl].
        intros l v. cbn [StatefulGRU.with_xp StatefulGRU.h StatefulGRU.xp].
        rewrite Hh. intros [= <-] Hl.
        destruct (Hdev l0 v Hl) as [Hd|Hl']; [exact Hd|].
        rewrite list_lookup_insert_eq in Hl' by exact Hlt.
        by injection Hl' as <-.
      * intros l v Hl Hnot. inversion Hnot as [|? ? Hne Hnot']; subst.
        apply Hframe; [|exact Hnot'].
        rewrite list_lookup_insert_ne by congruence. exact Hl.
    + rewrite bind_Ok. cbv beta iota.
      destruct (IH σ Hrest) as (σ1 & Hloop & Hdata & Hdev & Hpl & Hframe).
      exists σ1. rewrite Hloop, bind_Ok. cbv beta iota.
      split; [reflexivity|]. split; [exact Hdata|]. split; [exact Hdev|].
      split.
      * rewrite fmap_cons. constructor; [|exact Hpl].
        intros l v. cbn [StatefulGRU.with_xp StatefulGRU.h]. by rewrite Hh.
      * intros l v Hl Hnot. inversion Hnot; subst. by apply Hframe.
Qed.

(** [to_cpu] and [to_gpu] on a stack whose layers hold live states, if
    any: every layer changes its array module and nothing else; the state
    of every layer ends up where the layer is, also when layers share a
    variable; no array changes its contents; and a variable that no layer
    retains is left where it is. *)
Theorem StackedStatefulGRU_transfers (stack : StackedStatefulGRU.t F) σ
    (dev : option nat) :
  Forall (Spec.state_live σ) (StackedStatefulGRU.layers stack) →
  (∃ stack1 σ1,
     StackedStatefulGRU.to_cpu stack σ = Ok (stack1, σ1) ∧
     StackedStatefulGRU.layers stack1
     = (λ self, StatefulGRU.with_xp self numpy) <$>
         StackedStatefulGRU.layers stack ∧
     StackedStatefulGRU.num_layers stack1
     = StackedStatefulGRU.num_layers stack ∧
     Forall (Spec.placed σ1) (StackedStatefulGRU.layers stack1) ∧
     Var.data <$> σ1 = Var.data <$> σ ∧
     (∀ l v, σ !! l = Some v →
             Forall (λ self, StatefulGRU.h self ≠ Some l)
               (StackedStatefulGRU.layers stack) →
             σ1 !! l = Some v))
  ∧
  (∃ stack1 σ1,
     StackedStatefulGRU.to_gpu stack dev σ = Ok (stack1, σ1) ∧
     StackedStatefulGRU.layers stack1
     = (λ self, StatefulGRU.with_xp self cupy) <$>
         StackedStatefulGRU.layers stack ∧
     StackedStatefulGRU.num_layers stack1
     = StackedStatefulGRU.num_layers stack ∧
     Forall (Spec.placed σ1) (StackedStatefulGRU.layers stack1) ∧
     Var.data <$> σ1 = Var.data <$> σ ∧
     (∀ l v, σ !! l = Some v →
             Forall (λ self, StatefulGRU.h self ≠ Some l)
               (StackedStatefulGRU.layers stack) →
             σ1 !! l = Some v)).
Proof.
  intros Hlive. split.
  - destruct (each_layer_transfer numpy Var.to_cpu StatefulGRU.to_cpu
                (λ _ _, eq_refl) (λ _ _, eq_refl)
                (StackedStatefulGRU.layers stack) σ Hlive)
      as (σ1 & Hloop & Hdata & _ & Hpl & Hframe).
    eexists _, σ1. unfold StackedStatefulGRU.to_cpu.
    rewrite Hloop, bind_Ok. cbv beta iota. by repeat split.
  - destruct (each_layer_transfer cupy (λ l, Var.to_gpu l dev)
                (λ self, StatefulGRU.to_gpu self dev)
                (λ _ _, eq_refl) (λ _ _, eq_refl)
                (StackedStatefulGRU.layers stack) σ Hlive)
      as (σ1 & Hloop & Hdata & _ & Hpl & Hframe).
    eexists _, σ1. unfold StackedStatefulGRU.to_gpu.
    rewrite Hloop, bind_Ok. cbv beta iota. by repeat split.
Qed.

End stateful_stack_state.

(** ** Building stacks *)

Section stack_construction.
Context {F : Type} `{!Arith F, !Activation F}.

Lemma cells_shape_built (new : nat → GRUBase.t F) (n_units start n : nat) :
  (∀ i, Spec.cell_shape (new i) n_units n_units) →
  Spec.cells_shape n_units n_units (new <$> seq start n).
Proof.
  intros Hnew. revert start; induction n as [|n IH]; intros start; [done|].
  split; [apply Hnew | apply IH].
Qed.

(** [StackedStatelessGRU(in_size, out_size, num_layers)] fails its assertion
    for every [num_layers] below 1, the negative ones included.  Otherwise
    the stack has [num_layers] layers, the bottom one
    [GRU(out_size, in_size)] and every other one [GRU(out_size, out_size)];
    and when [GRU(n_units, n_inputs)] builds units of the shapes of
    section 3, the stack can be called on every hidden batch of
    [num_layers * out_size] columns and input batch of [in_size] columns,
    and returns an array of the shape of the hidden batch. *)
Theorem StackedStatelessGRU_init_layers
    (new_GRU : nat → nat → nat → GRUBase.t F)
    (in_size out_size : nat) (num_layers : Z) :
  (∀ i n_units n_inputs,
     Spec.cell_shape (new_GRU i n_units n_inputs) n_units n_inputs) →
  ((num_layers < 1)%Z →
   StackedStatelessGRU.__init__ new_GRU in_size out_size num_layers
   = Err AssertionError)
  ∧
  ((1 ≤ num_layers)%Z →
   ∃ stack,
     StackedStatelessGRU.__init__ new_GRU in_size out_size num_layers
     = Ok stack ∧
     Z.of_nat (StackedStatelessGRU.num_layers stack) = num_layers ∧
     length (StackedStatelessGRU.layers stack)
     = StackedStatelessGRU.num_layers stack ∧
     StackedStatelessGRU.layers stack !! 0
     = Some (new_GRU 0 out_size in_size) ∧
     (∀ i, 1 ≤ i < StackedStatelessGRU.num_layers stack →
        StackedStatelessGRU.layers stack !! i
        = Some (new_GRU i out_size out_size)) ∧
     ∀ (h x : matrix F) (batch : nat),
       Spec.has_shape h batch
         (StackedStatelessGRU.num_layers stack * out_size) →
       Spec.has_shape x batch in_size →
       ∃ y,
         StackedStatelessGRU.__call__ stack h x = Ok (y, stack) ∧
         Spec.has_shape y batch
           (StackedStatelessGRU.num_layers stack * out_size)).
Proof.
  intros Hnew. unfold StackedStatelessGRU.__init__. split.
  - intros Hlt. rewrite decide_False by lia. reflexivity.
  - intros Hpos. rewrite decide_True by exact Hpos.
    eexists. split; [reflexivity|].
    cbn [StackedStatelessGRU.layers StackedStatelessGRU.num_layers].
    set (n := Z.to_nat num_layers).
    assert (1 ≤ n) as Hn by lia.
    split; [lia|]. cbn [length]. rewrite length_fmap, length_seq.
    split; [lia|]. split; [reflexivity|]. split.
    + intros i Hi. destruct i as [|i]; [lia|].
      change (((λ i0, new_GRU i0 out_size out_size) <$> seq 1 (n - 1)) !! i
              = Some (new_GRU (S i) out_size out_size)).
      rewrite list_lookup_fmap, lookup_seq_lt by lia. reflexivity.
    + intros h x batch Hh Hx. eexists.
      apply (stateless_stack_call
               {| StackedStatelessGRU.layers :=
                    new_GRU 0 out_size in_size ::
                    ((λ i, new_GRU i out_size out_size) <$> seq 1 (n - 1));
                  StackedStatelessGRU.num_layers := n |}
               h x batch out_size in_size); try done.
      * cbn [StackedStatelessGRU.layers StackedStatelessGRU.num_layers length].
        rewrite length_fmap, length_seq. lia.
      * split; [apply Hnew|]. apply cells_shape_built. intros i. apply Hnew.
Qed.

(** [StackedStatefulGRU(in_size, out_size, num_layers)] fails its assertion
    for every [num_layers] below 1, the negative ones included.  Otherwise
    the stack has [num_layers] layers, the bottom one with the units of
    [StatefulGRU(in_size, out_size)] and every other one with those of
    [StatefulGRU(out_size, out_size)], and no layer holds a state; and when
    [StatefulGRU(in_size, out_size)] builds units of the shapes of
    section 3, the first call of the stack succeeds on every input batch of
    [in_size] columns, with the first-call formula of section 4.3 in every
    layer. *)
Theorem StackedStatefulGRU_init_layers
    (new_GRU : nat → nat → nat → StatefulGRU.t F)
    (in_size out_size : nat) (num_layers : Z) :
  (∀ i n_in n_out,
     Spec.cell_shape (StatefulGRU.params (new_GRU i n_in n_out)) n_out n_in) →
  ((num_layers < 1)%Z →
   StackedStatefulGRU.__init__ new_GRU in_size out_size num_layers
   = Err AssertionError)
  ∧
  ((1 ≤ num_layers)%Z →
   ∃ stack,
     StackedStatefulGRU.__init__ new_GRU in_size out_size num_layers
     = Ok stack ∧
     Z.of_nat (StackedStatefulGRU.num_layers stack) = num_layers ∧
     length (StackedStatefulGRU.layers stack)
     = StackedStatefulGRU.num_layers stack ∧
     Forall (λ layer, StatefulGRU.h layer = None)
       (StackedStatefulGRU.layers stack) ∧
     StatefulGRU.params <$> StackedStatefulGRU.layers stack !! 0
     = Some (StatefulGRU.params (new_GRU 0 in_size out_size)) ∧
     (∀ i, 1 ≤ i < StackedStatefulGRU.num_layers stack →
        StatefulGRU.params <$> StackedStatefulGRU.layers stack !! i
        = Some (StatefulGRU.params (new_GRU i out_size out_size))) ∧
     ∀ (x : ref) (σ : heap F) (xv : Var.t F) (batch : nat),
       σ !! x = Some xv →
       Spec.has_shape (Var.data xv) batch in_size →
       Spec.output_data (StackedStatefulGRU.__call__ stack x None σ)
       = Ok (Spec.hstack
               (Spec.stack_outputs
                  ((λ layer, (StatefulGRU.params layer, None)) <$>
                     StackedStatefulGRU.layers stack)
                  (Var.data xv)))).
Proof.
  intros Hnew. unfold StackedStatefulGRU.__init__. split.
  - intros Hlt. rewrite decide_False by lia. reflexivity.
  - intros Hpos. rewrite decide_True by exact Hpos.
    eexists. split; [reflexivity|].
    set (n := Z.to_nat num_layers).
    assert (1 ≤ n) as Hn by lia.
    set (raw := {| StackedStatefulGRU.layers :=
                     new_GRU 0 in_size out_size ::
                     ((λ i, new_GRU i out_size out_size) <$> seq 1 (n - 1));
                   StackedStatefulGRU.num_layers := n |}).
    assert (length (StackedStatefulGRU.layers raw) = n) as Hlen.
    { cbn [raw StackedStatefulGRU.layers length].
      rewrite length_fmap, length_seq. lia. }
    split; [cbn; lia|].
    split; [cbn [StackedStatefulGRU.reset_state StackedStatefulGRU.layers
                 StackedStatefulGRU.num_layers];
            by rewrite length_fmap|].
    split; [|split; [|split]].
    + apply Forall_fmap, Forall_forall. intros layer _. reflexivity.
    + reflexivity.
    + intros i Hi. destruct i as [|i]; [cbn in Hi; lia|].
      cbn [StackedStatefulGRU.num_layers StackedStatefulGRU.reset_state raw]
        in Hi.
      change (StatefulGRU.params <$>
                ((StatefulGRU.reset_state <$>
                    ((λ i0, new_GRU i0 out_size out_size) <$>
                       seq 1 (n - 1))) !! i)
              = Some (StatefulGRU.params (new_GRU (S i) out_size out_size))).
      rewrite !list_lookup_fmap, lookup_seq_lt by lia. reflexivity.
    + intros x σ xv batch Hx Hxs.
      rewrite (stack_call_absent raw x σ xv batch out_size in_size);
        try done.
      * cbn [StackedStatefulGRU.reset_state StackedStatefulGRU.layers].
        by rewrite <- list_fmap_compose.
      * cbn [raw StackedStatefulGRU.layers]. rewrite fmap_cons.
        split; [apply Hnew|]. rewrite <- list_fmap_compose.
        apply (cells_shape_built
                 (λ i, StatefulGRU.params (new_GRU i out_size out_size))).
        intros i. apply Hnew.
Qed.

End stack_construction.

(** ** The two stacks compared *)

Section stacks_compared.
Context {F : Type} `{!Arith F, !Activation F}.
Context (fadd_comm : ∀ a c : F, fadd a c = fadd c a).
Implicit Types (σ : heap F) (ls : list (StatefulGRU.t F)).

(** A stack that was given its states by [set_state h] puts out, on [x],
    what the stack of stateless cells with the same units puts out on
    [(h, x)].  The stateful and the stateless cell add the two terms of
    [h'] in opposite orders, so addition is taken to commute. *)
Theorem StackedStatefulGRU_set_state_then_call
    (stack : StackedStatefulGRU.t F) (h x : ref) σ (hv xv : Var.t F)
    (batch n_units n_inputs : nat) :
  length (StackedStatefulGRU.layers stack)
  = StackedStatefulGRU.num_layers stack →
  1 ≤ StackedStatefulGRU.num_layers stack →
  Spec.cells_shape n_units n_inputs
    (StatefulGRU.params <$> StackedStatefulGRU.layers stack) →
  σ !! h = Some hv →
  σ !! x = Some xv →
  Spec.has_shape (Var.data hv) batch
    (StackedStatefulGRU.num_layers stack * n_units) →
  Spec.has_shape (Var.data xv) batch n_inputs →
  ∃ stack1 σ1,
    StackedStatefulGRU.set_state stack h σ = Ok (stack1, σ1) ∧
    Spec.output_data (StackedStatefulGRU.__call__ stack1 x None σ1)
    = fst <$>
        StackedStatelessGRU.__call__
          {| StackedStatelessGRU.layers :=
               StatefulGRU.params <$> StackedStatefulGRU.layers stack;
             StackedStatelessGRU.num_layers :=
               StackedStatefulGRU.num_layers stack |}
          (Var.data hv) (Var.data xv).
Proof.
  intros Hnum Hpos Hcs Hh Hx Hhs Hxs.
  destruct (has_shape_slices (Var.data hv) batch _ n_units Hhs)
    as [Hsl Hsll].
  eexists _, _. split; [by eapply stack_set_state|].
  set (ls := StackedStatefulGRU.layers stack) in *.
  set (n := StackedStatefulGRU.num_layers stack) in *.
  set (parts := Spec.slices n n_units (Var.data hv)) in *.
  assert (length parts = length ls) as Hparts by lia.
  set (ls1 := zip_with (λ i self, StatefulGRU.with_h self (Some i))
                (seq (length σ) (length ls)) ls).
  set (σ1 := σ ++ zip_with Spec.output_variable ls parts).
  assert (length ls1 = length ls) as Hls1
    by (subst ls1; rewrite length_zip_with, length_seq; lia).
  pose proof (stack_ready_after σ [] ls parts batch n_units n_inputs
                Hparts Hcs Hsl) as Hready.
  pose proof (states_after σ [] ls parts Hparts) as Hstates.
  rewrite app_nil_r in Hready, Hstates. fold ls1 σ1 in Hready, Hstates.
  destruct (stack_call_top fadd_comm
              {| StackedStatefulGRU.layers := ls1;
                 StackedStatefulGRU.num_layers := n |}
              x σ1 xv batch n_units n_inputs None)
    as (l & stack' & σ' & Hcall & Hout & _); try done.
  { simpl. lia. }
  { by apply lookup_app_l_Some. }
  cbn [StackedStatefulGRU.layers StackedStatefulGRU.num_layers] in Hout.
  rewrite Hcall, (output_data_of _ _ _ _ Hout).
  rewrite fmap_pair_zip, Hstates in Hout |- *.
  assert (StatefulGRU.params <$> ls1 = StatefulGRU.params <$> ls) as ->
    by (apply params_after; by rewrite length_seq).
  destruct (stateless_stack_call
              {| StackedStatelessGRU.layers := StatefulGRU.params <$> ls;
                 StackedStatelessGRU.num_layers := n |}
              (Var.data hv) (Var.data xv) batch n_units n_inputs)
    as [Hless _]; try done.
  { simpl. rewrite length_fmap. lia. }
  cbn [StackedStatelessGRU.layers StackedStatelessGRU.num_layers] in Hless.
  rewrite Hless. cbn [fmap result_fmap fst]. fold parts.
  do 2 f_equal. unfold Spec.top_layers.
  rewrite length_stack_outputs, length_zip_with, !length_fmap.
  replace (_ - n) with 0 by lia. reflexivity.
Qed.

End stacks_compared.

(** ** Instances over the integers *)

Lemma Z_semiring : semi_ring_theory (R:=Z) fzero fone fadd fmul eq.
Proof. constructor; intros; simpl; lia. Qed.


(** Settles a shape statement about concrete data by evaluation. *)
Ltac by_evaluation :=
  repeat split; try reflexivity; repeat constructor;
  try (intros ? [= <-]; reflexivity).

(** C1 on the sample cell, hidden vector (2, 5) and input (3). *)
Lemma C1_GRU_call_closed_form_witness :
  Spec.cell_shape Sample.cell 2 1 ∧
  Spec.has_shape Sample.h0 1 2 ∧
  Spec.has_shape Sample.x0 1 1 ∧
  GRU.__call__ Sample.cell Sample.h0 Sample.x0
  = Ok ([[2; -1]]%Z, Sample.cell).
Proof.
  assert (Spec.cell_shape Sample.cell 2 1) as Hc by by_evaluation.
  assert (Spec.has_shape Sample.h0 1 2) as Hh by by_evaluation.
  assert (Spec.has_shape Sample.x0 1 1) as Hx by by_evaluation.
  exact (conj Hc (conj Hh (conj Hx
    (C1_GRU_call_closed_form Sample.cell Sample.h0 Sample.x0 1 2 1
       Hc Hh Hx)))).
Defined.

(** C2 on the sample cell: a first call on the input (3), and a call with
    the state (2, 5). *)
Lemma C2_StatefulGRU_call_witness :
  StatefulGRU.__call__ Sample.fresh 0 [Sample.on CPU Sample.x0]
  = Ok (1, StatefulGRU.with_h Sample.fresh (Some 1),
        [Sample.on CPU Sample.x0; Sample.on CPU [[0; -1]]%Z])
  ∧
  StatefulGRU.__call__ (StatefulGRU.with_h Sample.fresh (Some 1)) 0
    [Sample.on CPU Sample.x0; Sample.on CPU Sample.h0]
  = Ok (2, StatefulGRU.with_h Sample.fresh (Some 2),
        [Sample.on CPU Sample.x0; Sample.on CPU Sample.h0;
         Sample.on CPU [[2; -1]]%Z]).
Proof.
  assert (Spec.has_shape Sample.x0 1 1) as Hx by by_evaluation.
  assert (∀ a c : Z, fadd a c = fadd c a) as Hcomm
    by (intros a c; simpl; lia).
  assert (Spec.linear_shape (GRUBase.W_z Sample.cell) 2 1) as HWz
    by by_evaluation.
  assert (Spec.linear_shape (GRUBase.W Sample.cell) 2 1) as HW
    by by_evaluation.
  assert (Spec.cell_shape Sample.cell 2 1) as Hc by by_evaluation.
  assert (Spec.has_shape Sample.h0 1 2) as Hh by by_evaluation.
  split.
  - exact (proj1 (C2_StatefulGRU_call Sample.fresh 0
             [Sample.on CPU Sample.x0] (Sample.on CPU Sample.x0) 1 2 1
             Hcomm eq_refl Hx) eq_refl HWz HW).
  - exact (proj2 (C2_StatefulGRU_call
             (StatefulGRU.with_h Sample.fresh (Some 1)) 0
             [Sample.on CPU Sample.x0; Sample.on CPU Sample.h0]
             (Sample.on CPU Sample.x0) 1 2 1 Hcomm eq_refl Hx)
           1 (Sample.on CPU Sample.h0) eq_refl eq_refl Hc Hh).
Defined.

(** C4 on the sample cell. *)
Lemma C4_single_layer_stack_witness :
  Spec.has_shape Sample.h0 1 2 ∧
  ∃ stack,
    StackedStatelessGRU.__init__ (λ _ _ _, Sample.cell) 1 2 1 = Ok stack ∧
    StackedStatelessGRU.layers stack = [Sample.cell] ∧
    fst <$> StackedStatelessGRU.__call__ stack Sample.h0 Sample.x0
    = fst <$> GRU.__call__ Sample.cell Sample.h0 Sample.x0.
Proof.
  assert (Spec.has_shape Sample.h0 1 2) as Hh by by_evaluation.
  split; [exact Hh|].
  exact (C4_single_layer_stack (λ _ _ _, Sample.cell) 1 2
           Sample.h0 Sample.x0 1 2 Hh).
Defined.

(** C7 on a cell that holds the state (2, 5): called as it is, it puts out
    (2, -1); after [reset_state()] it puts out (0, -1), as a new cell
    does. *)
Lemma C7_reset_then_call_as_fresh_witness :
  let used := StatefulGRU.with_h Sample.fresh (Some 1) in
  let σ := [Sample.on CPU Sample.x0; Sample.on CPU Sample.h0] in
  Spec.output_data (StatefulGRU.__call__ used 0 σ) = Ok [[2; -1]]%Z ∧
  Spec.output_data
    (StatefulGRU.__call__ (StatefulGRU.reset_state used) 0 σ)
  = Ok [[0; -1]]%Z ∧
  Spec.output_data
    (StatefulGRU.__call__ (StatefulGRU.__init__ Sample.cell 1 2) 0 σ)
  = Ok [[0; -1]]%Z.
Proof.
  intros used σ.
  assert (Spec.has_shape Sample.x0 1 1) as Hx by by_evaluation.
  assert (Spec.linear_shape (GRUBase.W_z Sample.cell) 2 1) as HWz
    by by_evaluation.
  assert (Spec.linear_shape (GRUBase.W Sample.cell) 2 1) as HW
    by by_evaluation.
  pose proof (C7_reset_then_call_as_fresh used 0 σ 1) as [Hsame Hfirst].
  split; [reflexivity|]. split.
  - rewrite Hsame.
    exact (Hfirst (Sample.on CPU Sample.x0) 1 2 1 eq_refl Hx HWz HW).
  - exact (Hfirst (Sample.on CPU Sample.x0) 1 2 1 eq_refl Hx HWz HW).
Defined.

(** C8 on a variable that is on the accelerator and on one that is on the
    CPU already. *)
Lemma C8_set_state_roundtrip_witness :
  (∃ self' σ',
     StatefulGRU.set_state Sample.fresh (PyVariable 0)
       [Sample.on GPU Sample.h0] = Ok (self', σ') ∧
     StatefulGRU.h self' = Some 0 ∧
     Var.data <$> Spec.retained self' σ' = Some Sample.h0 ∧
     (GPU = CPU → Spec.retained self' σ' = Some (Sample.on GPU Sample.h0)))
  ∧
  (∃ self' σ',
     StatefulGRU.set_state Sample.fresh (PyVariable 1)
       [Sample.on CPU Sample.x0; Sample.on CPU Sample.h0] = Ok (self', σ') ∧
     Spec.retained self' σ' = Some (Sample.on CPU Sample.h0)).
Proof.
  split.
  - exact (C8_set_state_roundtrip Sample.fresh 0 (Sample.on GPU Sample.h0)
             [Sample.on GPU Sample.h0] eq_refl eq_refl).
  - destruct (C8_set_state_roundtrip Sample.fresh 1
                (Sample.on CPU Sample.h0)
                [Sample.on CPU Sample.x0; Sample.on CPU Sample.h0]
                eq_refl eq_refl) as (self' & σ' & Hset & _ & _ & Hsame).
    exists self', σ'. split; [exact Hset | exact (Hsame eq_refl)].
Defined.

(** C10 on a new cell, which is on the CPU, and a variable on the
    accelerator. *)
Lemma C10_set_state_aliases_witness :
  StatefulGRU.set_state Sample.fresh (PyVariable 0) [Sample.on GPU Sample.h0]
  = Ok (StatefulGRU.with_h Sample.fresh (Some 0), [Sample.on CPU Sample.h0])
  ∧
  (∀ self' σ',
     StatefulGRU.set_state Sample.fresh (PyVariable 0)
       [Sample.on GPU Sample.h0] = Ok (self', σ') →
     ∃ self'' σ'',
       StatefulGRU.to_gpu self' None σ' = Ok (self'', σ'') ∧
       Var.device <$> σ'' !! 0 = Some GPU).
Proof.
  exact (C10_set_state_aliases Sample.fresh 0 (Sample.on GPU Sample.h0)
           [Sample.on GPU Sample.h0] eq_refl).
Defined.

(** C3 at [top_n = 0], on a two-layer stack just built and the input (3):
    the layers put out (0, -1) and (-1, 0); the call returns both,
    concatenated, as it does when [top_n] is omitted or is 2, whereas the
    last zero layers are no layers at all, which [concat] rejects.  With
    [top_n = 1] the call returns the output of the last layer. *)
Lemma C3_top_n_zero_returns_every_layer :
  let forward top_n :=
    Spec.output_data
      (stack ← StackedStatefulGRU.__init__ Sample.new_layer 1 2 2;
       StackedStatefulGRU.__call__ stack 0 top_n
         [Sample.on CPU Sample.x0]) in
  forward (Some 0%Z) = Ok [[0; -1; -1; 0]]%Z ∧
  forward None = Ok [[0; -1; -1; 0]]%Z ∧
  forward (Some 2%Z) = Ok [[0; -1; -1; 0]]%Z ∧
  forward (Some 1%Z) = Ok [[-1; 0]]%Z ∧
  functions.concat (Spec.top_layers 0 [[[0; -1]]; [[-1; 0]]]%Z)
  = Err InvalidType.
Proof. repeat split. Qed.

(** C5 as stated, at the shape (3, 0): three rows exceed zero columns, and
    the call returns the array as it was instead of raising. *)
Lemma C5_counterexample :
  Orthogonal.shape (Sample.zeros [3; 0]) = [3; 0] ∧
  Orthogonal.np_value (Orthogonal.np_prod [0]) < 3 ∧
  Orthogonal.__call__ Sample.sampler Sample.factors Sample.initializer
    (Sample.zeros [3; 0]) 0
  = Ok (Sample.zeros [3; 0], 0) ∧
  ∀ e, Orthogonal.__call__ Sample.sampler Sample.factors Sample.initializer
         (Sample.zeros [3; 0]) 0 ≠ Err e.
Proof. repeat split; [vm_compute; lia | discriminate]. Qed.

(** C5, amended, at the shape (3, 2). *)
Lemma C5_more_rows_than_columns_raises_witness :
  Orthogonal.shape (Sample.zeros [3; 2]) = [3; 2] ∧
  Orthogonal.size (Sample.zeros [3; 2]) ≠ 0 ∧
  Orthogonal.np_value (Orthogonal.np_prod [2]) < 3 ∧
  Orthogonal.__call__ Sample.sampler Sample.factors Sample.initializer
    (Sample.zeros [3; 2]) 0
  = Err (ValueError
      "Cannot make orthogonal system because# of vectors (3) is larger than that of dimensions(2)").
Proof.
  assert (Orthogonal.size (Sample.zeros [3; 2]) ≠ 0) as Hsize
    by (vm_compute; lia).
  assert (Orthogonal.np_value (Orthogonal.np_prod [2]) < 3) as Hlt
    by (vm_compute; lia).
  exact (conj eq_refl (conj Hsize (conj Hlt
    (C5_more_rows_than_columns_raises Sample.sampler Sample.factors
       Sample.initializer (Sample.zeros [3; 2]) 0 3 [2]
       eq_refl Hsize Hlt)))).
Defined.

(** C9 at the shape (3, 0). *)
Lemma C9_zero_size_untouched_witness :
  Orthogonal.shape (Sample.zeros [3; 0]) ≠ [] ∧
  Orthogonal.size (Sample.zeros [3; 0]) = 0 ∧
  Orthogonal.__call__ Sample.sampler Sample.factors Sample.initializer
    (Sample.zeros [3; 0]) 0
  = Ok (Sample.zeros [3; 0], 0).
Proof.
  assert (Orthogonal.shape (Sample.zeros [3; 0]) ≠ []) as Hshape
    by discriminate.
  exact (conj Hshape (conj eq_refl
    (C9_zero_size_untouched Sample.sampler Sample.factors
       Sample.initializer (Sample.zeros [3; 0]) 0 Hshape eq_refl))).
Defined.





(** ** The further properties, on the samples *)

Lemma Z_add_comm : ∀ a c : Z, fadd a c = fadd c a.
Proof. intros a c; simpl; lia. Qed.

(** A call of the sample cell that holds the state (2, 5), on the input
    (3). *)
Lemma StatefulGRU_call_returned_witness :
  let σ := [Sample.on CPU Sample.x0; Sample.on CPU Sample.h0] in
  let self := StatefulGRU.with_h Sample.fresh (Some 1) in
  let v := Sample.on CPU [[2; -1]]%Z in
  StatefulGRU.__call__ self 0 σ
  = Ok (2, StatefulGRU.with_h Sample.fresh (Some 2), σ ++ [v])
  ∧ ∃ xv v',
      σ !! 0 = Some xv ∧
      σ ++ [v] = σ ++ [v'] ∧
      (σ ++ [v]) !! 2 = Some v' ∧
      StatefulGRU.h (StatefulGRU.with_h Sample.fresh (Some 2)) = Some 2 ∧
      StatefulGRU.params (StatefulGRU.with_h Sample.fresh (Some 2))
      = Sample.cell ∧
      StatefulGRU.xp (StatefulGRU.with_h Sample.fresh (Some 2)) = numpy ∧
      Var.device v' = CPU ∧
      Spec.has_shape (Var.data v') (length (Var.data xv)) 2 ∧
      ∀ hl, Some 1 = Some hl →
        ∃ hv, σ !! hl = Some hv ∧
              Spec.has_shape (Var.data hv) (length (Var.data xv)) 2.
Proof.
  intros σ self v.
  assert (StatefulGRU.__call__ self 0 σ
          = Ok (2, StatefulGRU.with_h Sample.fresh (Some 2), σ ++ [v]))
    as Hcall by reflexivity.
  split; [exact Hcall|].
  exact (StatefulGRU_call_returned self 0 σ 2
           (StatefulGRU.with_h Sample.fresh (Some 2)) (σ ++ [v]) Hcall).
Defined.

(** A call of the sample cell that holds the state (2, 5). *)
Lemma StatefulGRU_call_keeps_ready_witness :
  let σ := [Sample.on CPU Sample.x0; Sample.on CPU Sample.h0] in
  let self := StatefulGRU.with_h Sample.fresh (Some 1) in
  ∃ l self' σ',
    StatefulGRU.__call__ self 0 σ = Ok (l, self', σ') ∧
    Spec.state_of σ' self' = Some [[2; -1]]%Z ∧
    Spec.layer_ready σ' 1 2 1 self' ∧
    ∀ l' v, σ !! l' = Some v → σ' !! l' = Some v.
Proof.
  intros σ self.
  assert (Spec.layer_ready σ 1 2 1 self) as Hready.
  { split; [by_evaluation|]. exists (Sample.on CPU Sample.h0). by_evaluation. }
  assert (Spec.has_shape Sample.x0 1 1) as Hx by by_evaluation.
  exact (StatefulGRU_call_keeps_ready self 0 σ (Sample.on CPU Sample.x0)
           1 2 1 Z_add_comm Hready eq_refl Hx).
Defined.

(** The sample cell given the state (2, 5), then called on (3). *)
Lemma set_state_then_call_is_GRU_witness :
  let σ := [Sample.on CPU Sample.x0; Sample.on GPU Sample.h0] in
  ∃ self1 σ1,
    StatefulGRU.set_state Sample.fresh (PyVariable 1) σ = Ok (self1, σ1) ∧
    Spec.output_data (StatefulGRU.__call__ self1 0 σ1)
    = fst <$> GRU.__call__ Sample.cell Sample.h0 Sample.x0.
Proof.
  intros σ.
  assert (Spec.cell_shape Sample.cell 2 1) as Hc by by_evaluation.
  assert (Spec.has_shape Sample.h0 1 2) as Hh by by_evaluation.
  assert (Spec.has_shape Sample.x0 1 1) as Hx by by_evaluation.
  exact (set_state_then_call_is_GRU Sample.fresh 1 0 σ
           (Sample.on GPU Sample.h0) (Sample.on CPU Sample.x0) 1 2 1
           Z_add_comm eq_refl eq_refl Hc Hh Hx).
Defined.

(** The sample cell, holding a state that is on the CPU, moved to the
    accelerator. *)
Lemma StatefulGRU_transfers_witness :
  let σ := [Sample.on CPU Sample.x0; Sample.on CPU Sample.h0] in
  let self := StatefulGRU.with_h Sample.fresh (Some 1) in
  Spec.state_live σ self ∧
  StatefulGRU.to_gpu self None σ
  = Ok (StatefulGRU.with_xp self cupy,
        [Sample.on CPU Sample.x0; Sample.on GPU Sample.h0]) ∧
  ∃ σ1,
    StatefulGRU.to_gpu self None σ = Ok (StatefulGRU.with_xp self cupy, σ1) ∧
    Spec.placed σ1 (StatefulGRU.with_xp self cupy) ∧
    Var.data <$> σ1 = Var.data <$> σ ∧
    (StatefulGRU.h self = None → σ1 = σ) ∧
    StatefulGRU.to_gpu (StatefulGRU.with_xp self cupy) None σ1
    = Ok (StatefulGRU.with_xp self cupy, σ1).
Proof.
  intros σ self.
  assert (Spec.state_live σ self) as Hlive by (by eexists).
  split; [exact Hlive|]. split; [reflexivity|].
  exact (proj2 (StatefulGRU_transfers self σ None Hlive)).
Defined.

(** A first call of the sample cell, whose hidden-to-hidden biases are
    zero, and the stateless cell on the zero state: both put out (0, -1). *)
Lemma first_call_is_zero_state_witness :
  let σ := [Sample.on CPU Sample.x0] in
  Spec.output_data (StatefulGRU.__call__ Sample.fresh 0 σ)
  = fst <$> GRU.__call__ Sample.cell (Spec.zeros 1 2) Sample.x0
  ∧ fst <$> GRU.__call__ Sample.cell (Spec.zeros 1 2) Sample.x0
    = Ok [[0; -1]]%Z.
Proof.
  intros σ.
  assert (Spec.cell_shape Sample.cell 2 1) as Hc by by_evaluation.
  assert (Spec.has_shape Sample.x0 1 1) as Hx by by_evaluation.
  assert (Spec.zero_bias (GRUBase.U_z Sample.cell)) as HUz
    by (intros bias [= <-]; repeat constructor).
  assert (Spec.zero_bias (GRUBase.U Sample.cell)) as HU
    by (intros bias [= <-]; repeat constructor).
  split; [|reflexivity].
  exact (first_call_is_zero_state Z_semiring Sample.fresh 0 σ
           (Sample.on CPU Sample.x0) 1 2 1 eq_refl eq_refl Hx Hc HUz HU).
Defined.

(** The stack of the two sample cells on the hidden batch (2, 5, 1, 0) and
    the input (3). *)
Lemma StackedStatelessGRU_call_layers_witness :
  StackedStatelessGRU.__call__ Sample.cells Sample.h2 Sample.x0
  = Ok ([[2; -1; -1; 1]]%Z, Sample.cells)
  ∧ Spec.has_shape [[2; -1; -1; 1]]%Z 1 4.
Proof.
  assert (Spec.cells_shape 2 1 (StackedStatelessGRU.layers Sample.cells))
    as Hcs by by_evaluation.
  assert (Spec.has_shape Sample.h2 1 (2 * 2)) as Hh by by_evaluation.
  assert (Spec.has_shape Sample.x0 1 1) as Hx by by_evaluation.
  exact (StackedStatelessGRU_call_layers Sample.cells Sample.h2 Sample.x0
           1 2 1 eq_refl (le_S _ _ (le_n 1)) Hcs Hh Hx).
Defined.

(** The two-layer stack on the input (3), asked for its top layer. *)
Lemma StackedStatefulGRU_call_top_layers_witness :
  StackedStatefulGRU.__init__ Sample.new_layer 1 2 2 = Ok Sample.stack ∧
  ∃ l stack' σ',
    StackedStatefulGRU.__call__ Sample.stack 0 (Some 1%Z)
      [Sample.on CPU Sample.x0] = Ok (l, stack', σ') ∧
    Var.data <$> σ' !! l = Some [[-1; 0]]%Z ∧
    Spec.state_of σ' <$> StackedStatefulGRU.layers stack'
    = [Some [[0; -1]]%Z; Some [[-1; 0]]%Z].
Proof.
  split; [reflexivity|].
  assert (Spec.stack_ready [Sample.on CPU Sample.x0] 1 2 1
            (StackedStatefulGRU.layers Sample.stack)) as Hready
    by by_evaluation.
  assert (Spec.has_shape Sample.x0 1 1) as Hx by by_evaluation.
  destruct (StackedStatefulGRU_call_top_layers Z_add_comm Sample.stack 0
              [Sample.on CPU Sample.x0] (Sample.on CPU Sample.x0) 1 2 1
              (Some 1%Z) eq_refl (le_S _ _ (le_n 1)) Hready eq_refl Hx)
    as (l & stack' & σ' & Hcall & Hout & Hstates & _).
  { intros k [= <-]. lia. }
  exists l, stack', σ'. split; [exact Hcall|]. split; assumption.
Defined.

(** The two-layer stack at [top_n = 0] and with [top_n] omitted. *)
Lemma StackedStatefulGRU_call_top_zero_witness :
  StackedStatefulGRU.__call__ Sample.stack 0 (Some 0%Z)
    [Sample.on CPU Sample.x0]
  = StackedStatefulGRU.__call__ Sample.stack 0 None
      [Sample.on CPU Sample.x0].
Proof.
  exact (StackedStatefulGRU_call_top_zero Sample.stack 0
           [Sample.on CPU Sample.x0] eq_refl).
Defined.

(** The two-layer stack at [top_n = -1], which leaves out the bottom layer,
    and at [top_n = -2], which leaves out both. *)
Lemma StackedStatefulGRU_call_nonpositive_top_n_witness :
  let σ := [Sample.on CPU Sample.x0] in
  (∃ l stack' σ',
     StackedStatefulGRU.__call__ Sample.stack 0 (Some (-1)%Z) σ
     = Ok (l, stack', σ') ∧
     Var.data <$> σ' !! l = Some [[-1; 0]]%Z ∧
     Spec.state_of σ' <$> StackedStatefulGRU.layers stack'
     = [Some [[0; -1]]%Z; Some [[-1; 0]]%Z])
  ∧ StackedStatefulGRU.__call__ Sample.stack 0 (Some (-2)%Z) σ
    = Err InvalidType.
Proof.
  intros σ.
  assert (Spec.stack_ready σ 1 2 1 (StackedStatefulGRU.layers Sample.stack))
    as Hready by by_evaluation.
  assert (Spec.has_shape Sample.x0 1 1) as Hx by by_evaluation.
  split.
  - exact (proj1 (StackedStatefulGRU_call_nonpositive_top_n Z_add_comm
                    Sample.stack 0 σ (Sample.on CPU Sample.x0) 1 2 1 (-1)%Z
                    Hready eq_refl Hx ltac:(lia))
             (le_n 2)).
  - exact (proj2 (StackedStatefulGRU_call_nonpositive_top_n Z_add_comm
                    Sample.stack 0 σ (Sample.on CPU Sample.x0) 1 2 1 (-2)%Z
                    Hready eq_refl Hx ltac:(lia))
             (le_n 2)).
Defined.

(** A call of the two-layer stack on a store of one variable: the layers
    retain the variables 1 and 2, the call returns the variable 3. *)
Lemma StackedStatefulGRU_call_allocates_witness :
  let σ := [Sample.on CPU Sample.x0] in
  ∃ l stack' σ',
    StackedStatefulGRU.__call__ Sample.stack 0 None σ = Ok (l, stack', σ') ∧
    l = 3 ∧
    StackedStatefulGRU.num_layers stack' = 2 ∧
    StatefulGRU.params <$> StackedStatefulGRU.layers stack'
    = [Sample.cell; Sample.upper_cell] ∧
    StatefulGRU.h <$> StackedStatefulGRU.layers stack' = [Some 1; Some 2] ∧
    ∃ news, σ' = σ ++ news ∧ length news = 3.
Proof.
  intros σ.
  assert (∃ l stack' σ',
            StackedStatefulGRU.__call__ Sample.stack 0 None σ
            = Ok (l, stack', σ')) as (l & stack' & σ' & Hcall)
    by (eexists _, _, _; reflexivity).
  exists l, stack', σ'. split; [exact Hcall|].
  exact (StackedStatefulGRU_call_allocates Sample.stack 0 None σ l stack' σ'
           Hcall).
Defined.

(** [set_state] on the two-layer stack, which is on the CPU, with the
    variable (2, 5, 1, 0), which is on the accelerator. *)
Lemma StackedStatefulGRU_set_state_slices_witness :
  let σ := [Sample.on GPU Sample.h2; Sample.on CPU Sample.x0] in
  ∃ stack' σ',
    StackedStatefulGRU.set_state Sample.stack 0 σ = Ok (stack', σ') ∧
    Spec.state_of σ' <$> StackedStatefulGRU.layers stack'
    = [Some [[2; 5]]%Z; Some [[1; 0]]%Z] ∧
    StatefulGRU.h <$> StackedStatefulGRU.layers stack' = [Some 2; Some 3] ∧
    Forall (Spec.placed σ') (StackedStatefulGRU.layers stack') ∧
    StatefulGRU.params <$> StackedStatefulGRU.layers stack'
    = [Sample.cell; Sample.upper_cell] ∧
    StackedStatefulGRU.num_layers stack' = 2 ∧
    (∃ news, σ' = σ ++ news) ∧
    σ' !! 0 = Some (Sample.on GPU Sample.h2).
Proof.
  intros σ.
  assert (Spec.has_shape Sample.h2 1 (2 * 2)) as Hh by by_evaluation.
  exact (StackedStatefulGRU_set_state_slices Sample.stack 0 σ
           (Sample.on GPU Sample.h2) 1 2 eq_refl (le_S _ _ (le_n 1))
           eq_refl Hh).
Defined.

(** The two-layer stack given the states (2, 5) and (1, 0), then called on
    (3), and the stack of the same cells without state. *)
Lemma StackedStatefulGRU_set_state_then_call_witness :
  let σ := [Sample.on GPU Sample.h2; Sample.on CPU Sample.x0] in
  ∃ stack1 σ1,
    StackedStatefulGRU.set_state Sample.stack 0 σ = Ok (stack1, σ1) ∧
    Spec.output_data (StackedStatefulGRU.__call__ stack1 1 None σ1)
    = fst <$> StackedStatelessGRU.__call__ Sample.cells Sample.h2 Sample.x0.
Proof.
  intros σ.
  assert (Spec.cells_shape 2 1
            (StatefulGRU.params <$> StackedStatefulGRU.layers Sample.stack))
    as Hcs by by_evaluation.
  assert (Spec.has_shape Sample.h2 1 (2 * 2)) as Hh by by_evaluation.
  assert (Spec.has_shape Sample.x0 1 1) as Hx by by_evaluation.
  exact (StackedStatefulGRU_set_state_then_call Z_add_comm Sample.stack 0 1
           σ (Sample.on GPU Sample.h2) (Sample.on CPU Sample.x0) 1 2 1
           eq_refl (le_S _ _ (le_n 1)) Hcs eq_refl eq_refl Hh Hx).
Defined.

(** The two-layer stack whose layers both retain the variable 1, reset
    and called on (3). *)
Lemma StackedStatefulGRU_reset_then_call_witness :
  let σ := [Sample.on CPU Sample.x0; Sample.on CPU Sample.h0] in
  let used :=
    {| StackedStatefulGRU.layers :=
         [StatefulGRU.with_h (StatefulGRU.__init__ Sample.cell 1 2) (Some 1);
          StatefulGRU.with_h (StatefulGRU.__init__ Sample.upper_cell 2 2)
            (Some 1)];
       StackedStatefulGRU.num_layers := 2 |} in
  Spec.output_data
    (StackedStatefulGRU.__call__ (StackedStatefulGRU.reset_state used)
       0 None σ)
  = Ok [[0; -1; -1; 0]]%Z.
Proof.
  intros σ used.
  assert (Spec.cells_shape 2 1
            (StatefulGRU.params <$> StackedStatefulGRU.layers used))
    as Hcs by by_evaluation.
  assert (Spec.has_shape Sample.x0 1 1) as Hx by by_evaluation.
  exact (StackedStatefulGRU_reset_then_call used 0 σ
           (Sample.on CPU Sample.x0) 1 2 1 eq_refl (le_S _ _ (le_n 1))
           Hcs eq_refl Hx).
Defined.

(** The two-layer stack whose layers retain the variables 1 and 2, moved
    to the accelerator: the input variable stays on the CPU. *)
Lemma StackedStatefulGRU_transfers_witness :
  let σ := [Sample.on CPU Sample.x0; Sample.on CPU Sample.h0;
            Sample.on CPU [[1; 0]]%Z] in
  let used :=
    {| StackedStatefulGRU.layers :=
         [StatefulGRU.with_h (StatefulGRU.__init__ Sample.cell 1 2) (Some 1);
          StatefulGRU.with_h (StatefulGRU.__init__ Sample.upper_cell 2 2)
            (Some 2)];
       StackedStatefulGRU.num_layers := 2 |} in
  ∃ stack1 σ1,
    StackedStatefulGRU.to_gpu used None σ = Ok (stack1, σ1) ∧
    StackedStatefulGRU.layers stack1
    = (λ self, StatefulGRU.with_xp self cupy) <$>
        StackedStatefulGRU.layers used ∧
    StackedStatefulGRU.num_layers stack1 = 2 ∧
    Forall (Spec.placed σ1) (StackedStatefulGRU.layers stack1) ∧
    Var.data <$> σ1 = Var.data <$> σ ∧
    (∀ l v, σ !! l = Some v →
            Forall (λ self, StatefulGRU.h self ≠ Some l)
              (StackedStatefulGRU.layers used) →
            σ1 !! l = Some v).
Proof.
  intros σ used.
  assert (Forall (Spec.state_live σ) (StackedStatefulGRU.layers used))
    as Hlive by (repeat constructor; by eexists).
  exact (proj2 (StackedStatefulGRU_transfers used σ None Hlive)).
Defined.

(** The initializer with [scale = 2] on an array of shape (1, 2). *)
Lemma Orthogonal_call_keeps_shape_witness :
  let out := {| Orthogonal.shape := [1; 2]; Orthogonal.data := [2; 0]%Z |} in
  Orthogonal.__call__ Sample.sampler Sample.factors Sample.initializer
    (Sample.zeros [1; 2]) 0 = Ok (out, 1) ∧
  Orthogonal.shape out = Orthogonal.shape (Sample.zeros [1; 2]) ∧
  length (Orthogonal.data out)
  = length (Orthogonal.data (Sample.zeros [1; 2])) ∧
  ∃ rows cols a, Sample.sampler 0 rows cols = (a, 1).
Proof.
  intros out.
  assert (Orthogonal.__call__ Sample.sampler Sample.factors
            Sample.initializer (Sample.zeros [1; 2]) 0 = Ok (out, 1))
    as Hcall by reflexivity.
  destruct (Orthogonal_call_keeps_shape Sample.sampler Sample.factors
              Sample.initializer (Sample.zeros [1; 2]) 0 out 1
              eq_refl Hcall) as (Hshape & Hlen & _ & Hdraw).
  split; [exact Hcall|]. split; [exact Hshape|]. split; [exact Hlen|].
  apply Hdraw; [discriminate | vm_compute; lia].
Defined.

(** The initializer on a vector of three elements. *)
Lemma Orthogonal_call_rejects_vectors_witness :
  Orthogonal.__call__ Sample.sampler Sample.factors Sample.initializer
    (Sample.zeros [3]) 0
  = Err (ValueError
      "Cannot make orthogonal system because# of vectors (3) is larger than that of dimensions(1.0)").
Proof.
  exact (Orthogonal_call_rejects_vectors Sample.sampler Sample.factors
           Sample.initializer (Sample.zeros [3]) 0 3 eq_refl
           (le_S _ _ (le_n 2))).
Defined.

(** The initializer on arrays of the shapes (1, 1, 2) and (1, 2). *)
Lemma Orthogonal_call_flattens_witness :
  (λ r, (Orthogonal.data r.1, r.2)) <$>
    Orthogonal.__call__ Sample.sampler Sample.factors Sample.initializer
      (Sample.zeros [1; 1; 2]) 0
  = (λ r, (Orthogonal.data r.1, r.2)) <$>
      Orthogonal.__call__ Sample.sampler Sample.factors Sample.initializer
        (Sample.zeros [1; 2]) 0.
Proof.
  exact (Orthogonal_call_flattens Sample.sampler Sample.factors
           Sample.initializer 0 1 [1; 2] [0; 0]%Z ltac:(discriminate)).
Defined.

(** The initializer with [scale = 2] on an array of shape (2, 2): the
    exchange matrix is stored, doubled. *)
Lemma Orthogonal_call_square_columns_witness :
  ∃ out,
    Orthogonal.__call__ Sample.square_sampler Sample.square_factors
      Sample.initializer (Sample.zeros [2; 2]) 0 = Ok (out, 1) ∧
    Orthogonal.data out = [0; 2; 2; 0]%Z ∧
    LinAlg.gram_cols 2 (LinAlg.rows_of 2 2 (Orthogonal.data out))
    = [[4; 0]; [0; 4]]%Z.
Proof.
  assert (Spec.has_shape [[0; 1]; [1; 0]]%Z 2 2) as Hu by by_evaluation.
  exact (Orthogonal_call_square_columns Sample.square_sampler
           Sample.square_factors Z_semiring Sample.initializer
           (Sample.zeros [2; 2]) 0 1 2 [2]
           [[1; 0]; [0; 1]]%Z [[0; 1]; [1; 0]]%Z [[0; 1]; [1; 0]]%Z
           [1; 1]%Z eq_refl ltac:(discriminate) eq_refl (le_S _ _ (le_n 1))
           eq_refl eq_refl Hu eq_refl).
Defined.

Lemma zero_cell_shape (n_units n_inputs : nat) :
  Spec.cell_shape (Sample.zero_cell n_units n_inputs) n_units n_inputs.
Proof.
  assert (∀ out inp, Spec.linear_shape (Sample.zero_unit out inp) out inp)
    as Hunit.
  { intros out inp. split; [|discriminate]. split.
    - apply length_replicate.
    - apply Forall_replicate, length_replicate. }
  repeat split; apply Hunit.
Qed.

(** Stacks of zero cells, one input and two hidden units: with
    [num_layers = -1] the constructor fails, with [num_layers = 2] it
    builds a stack that can be called. *)
Lemma StackedStatelessGRU_init_layers_witness :
  let new_GRU := λ _ : nat, Sample.zero_cell in
  StackedStatelessGRU.__init__ new_GRU 1 2 (-1) = Err AssertionError
  ∧ ∃ stack,
      StackedStatelessGRU.__init__ new_GRU 1 2 2 = Ok stack ∧
      Z.of_nat (StackedStatelessGRU.num_layers stack) = 2%Z ∧
      length (StackedStatelessGRU.layers stack)
      = StackedStatelessGRU.num_layers stack ∧
      StackedStatelessGRU.layers stack !! 0 = Some (Sample.zero_cell 2 1) ∧
      (∀ i, 1 ≤ i < StackedStatelessGRU.num_layers stack →
         StackedStatelessGRU.layers stack !! i
         = Some (Sample.zero_cell 2 2)) ∧
      ∀ (h x : matrix Z) (batch : nat),
        Spec.has_shape h batch (StackedStatelessGRU.num_layers stack * 2) →
        Spec.has_shape x batch 1 →
        ∃ y,
          StackedStatelessGRU.__call__ stack h x = Ok (y, stack) ∧
          Spec.has_shape y batch (StackedStatelessGRU.num_layers stack * 2).
Proof.
  intros new_GRU.
  assert (∀ i n_units n_inputs,
            Spec.cell_shape (new_GRU i n_units n_inputs) n_units n_inputs)
    as Hnew by (intros i; apply zero_cell_shape).
  split.
  - exact (proj1 (StackedStatelessGRU_init_layers new_GRU 1 2 (-1) Hnew)
             ltac:(lia)).
  - exact (proj2 (StackedStatelessGRU_init_layers new_GRU 1 2 2 Hnew)
             ltac:(lia)).
Defined.

(** The same for stacks of stateful cells. *)
Lemma StackedStatefulGRU_init_layers_witness :
  let new_GRU := λ (_ n_in n_out : nat),
    StatefulGRU.__init__ (Sample.zero_cell n_out n_in) n_in n_out in
  StackedStatefulGRU.__init__ new_GRU 1 2 (-1) = Err AssertionError
  ∧ ∃ stack,
      StackedStatefulGRU.__init__ new_GRU 1 2 2 = Ok stack ∧
      Z.of_nat (StackedStatefulGRU.num_layers stack) = 2%Z ∧
      length (StackedStatefulGRU.layers stack)
      = StackedStatefulGRU.num_layers stack ∧
      Forall (λ layer, StatefulGRU.h layer = None)
        (StackedStatefulGRU.layers stack) ∧
      StatefulGRU.params <$> StackedStatefulGRU.layers stack !! 0
      = Some (Sample.zero_cell 2 1) ∧
      (∀ i, 1 ≤ i < StackedStatefulGRU.num_layers stack →
         StatefulGRU.params <$> StackedStatefulGRU.layers stack !! i
         = Some (Sample.zero_cell 2 2)) ∧
      ∀ (x : ref) (σ : heap Z) (xv : Var.t Z) (batch : nat),
        σ !! x = Some xv →
        Spec.has_shape (Var.data xv) batch 1 →
        Spec.output_data (StackedStatefulGRU.__call__ stack x None σ)
        = Ok (Spec.hstack
                (Spec.stack_outputs
                   ((λ layer, (StatefulGRU.params layer, None)) <$>
                      StackedStatefulGRU.layers stack)
                   (Var.data xv))).
Proof.
  intros new_GRU.
  assert (∀ i n_in n_out,
            Spec.cell_shape (StatefulGRU.params (new_GRU i n_in n_out))
              n_out n_in)
    as Hnew by (intros i n_in n_out; apply zero_cell_shape).
  split.
  - exact (proj1 (StackedStatefulGRU_init_layers new_GRU 1 2 (-1) Hnew)
             ltac:(lia)).
  - exact (proj2 (StackedStatefulGRU_init_layers new_GRU 1 2 2 Hnew)
             ltac:(lia)).
Defined.

(** The initializer on vectors of no, one and three elements. *)
Lemma Orthogonal_call_never_fills_vectors_witness :
  let call n :=
    Orthogonal.__call__ Sample.sampler Sample.factors Sample.initializer
      (Sample.zeros [n]) 0 in
  call 0 = Ok (Sample.zeros [0], 0)
  ∧ call 1 = Err TypeError
  ∧ ∀ out g', call 3 = Ok (out, g') →
      3 = 0 ∧ out = Sample.zeros [3] ∧ g' = 0.
Proof.
  intros call. split; [|split].
  - exact (proj1 (Orthogonal_call_never_fills_vectors Sample.sampler
                    Sample.factors Sample.initializer (Sample.zeros [0]) 0 0
                    eq_refl) eq_refl).
  - exact (proj1 (proj2 (Orthogonal_call_never_fills_vectors Sample.sampler
                           Sample.factors Sample.initializer
                           (Sample.zeros [1]) 0 1 eq_refl)) eq_refl).
  - exact (proj2 (proj2 (Orthogonal_call_never_fills_vectors Sample.sampler
                           Sample.factors Sample.initializer
                           (Sample.zeros [3]) 0 3 eq_refl))).
Defined.
